(** * Status/metrics aggregator of the dockerized web server backend

    A shallow embedding of the Express backend (request accounting
    middleware, uptime and rate helpers, container status query, health
    sampler, the [/health], [/api/status] and [/api/metrics] handlers and
    the [/api/*] not-found handler), followed by the properties of the
    written specification that can be stated over it.

    Conventions of the embedding.
    - A JavaScript number that the code computes is an exact rational
      ([Q]) or, where the source makes it integral, an integer ([Z]);
      an integer is taken to lie within 2^53, where every integer is a
      double.  Where the quotient of two integers is rounded at once
      ([getUptime], [getAverageResponseTime]) the exact quotient stands
      for the double: with a dividend from 0 to below 2^52 the rounded
      result is the same ([floor_of_double_quotient],
      [round_of_double_quotient]).  The request rates divide twice
      (lines 108-109, 149 and 163): there each quotient and the literal
      [0.1] are rounded to binary64 ([JS.double]: nearest, ties to
      even), as the arithmetic of the program does; the limits of the
      exponent, far beyond any uptime or count, are left out.  A
      division whose divisor is zero yields no finite number: it makes
      the computation stop with [None].
    - [Date.now()], [Math.random()] and the outcome of the spawned
      [docker ps] are read from oracles held in the [World]; every
      call consumes the next reading, so two calls in one handler may
      see different instants.
    - An instant is the integer number of milliseconds that
      [Date.now()] returns; [toISOString()] renderings are kept as that
      integer.
    - A string is a sequence of code units below 256. *)

From Stdlib Require Import ZArith QArith Qround Qpower Lia Lqa String Ascii.
From Stdlib Require Import DecimalString DecimalPos DecimalZ.
From Stdlib Require PrimFloat FloatOps SpecFloat Uint63.
From stdpp Require Import gmap.

Local Open Scope Z_scope.

(** ** JavaScript numbers and the [Math] functions the backend uses *)

Module JS.

Definition Math_floor (x : Q) : Z := Qfloor x.

(** [Math.round]: nearest integer, a tie goes up. *)
Definition Math_round (x : Q) : Z := Qfloor (x + (1 # 2)).

Definition Math_max (a b : Q) : Q := if Qle_bool a b then b else a.

(** [a / b] for a divisor that is not a constant of the program. *)
Definition div (a b : Q) : option Q :=
  if Qeq_bool b 0 then None else Some (a / b)%Q.

(** [a < b] on numbers. *)
Definition lt (a b : Q) : bool := negb (Qle_bool b a).

(** [a % b] on integral numbers: the sign follows the dividend. *)
Definition rem (a b : Z) : Z := Z.rem a b.

(** [`${n}`] for an integral number: its decimal digits (the exponent
    notation of numbers from 1e21 on is out of the range of an uptime). *)
Definition show (n : Z) : string := NilZero.string_of_int (Z.to_int n).

(** *** Binary64

    The result of an arithmetic operation is the double nearest to the
    exact result, a tie going to the one whose significand is even.  A
    double other than zero is [m * 2^e] with [2^52 <= |m| < 2^53]. *)

Definition pow2 (k : Z) : Q := (2 ^ k)%Q.

(** The [k] with [2^k <= q < 2^(k+1)], for a positive [q]. *)
Definition binade (q : Q) : Z :=
  let g := Z.log2 (Qnum q) - Z.log2 (Zpos (Qden q)) in
  if Qle_bool (pow2 g) q then g else g - 1.

Definition round_half_even (x : Q) : Z :=
  let f := Qfloor x in
  match (x - inject_Z f ?= 1 # 2)%Q with
  | Lt => f
  | Gt => f + 1
  | Eq => if Z.even f then f else f + 1
  end.

Definition double_pos (q : Q) : Q :=
  let e := binade q - 52 in
  (inject_Z (round_half_even (q / pow2 e)) * pow2 e)%Q.

(** The double nearest to [q], as a fraction in lowest terms. *)
Definition double (q : Q) : Q :=
  let r := Qred q in
  match Qnum r with
  | 0 => 0%Q
  | Zpos _ => Qred (double_pos r)
  | Zneg _ => Qred (- double_pos (- r))
  end.

(** The doubles of the machine, to compare [double] with: the double of
    an integer from 0 to 2^53, the quotient that the machine computes,
    and the value of a finite double as a fraction in lowest terms. *)
Definition float_of_Z (z : Z) : PrimFloat.float :=
  PrimFloat.of_uint63 (Uint63.of_Z z).

Definition float_div (a b : PrimFloat.float) : PrimFloat.float :=
  PrimFloat.div a b.

Definition float_value (f : PrimFloat.float) : option Q :=
  match FloatOps.Prim2SF f with
  | SpecFloat.S754_zero _ => Some 0%Q
  | SpecFloat.S754_finite s m e =>
      Some (Qred ((if s then -1 else 1) * inject_Z (Zpos m) * pow2 e))
  | _ => None
  end.

End JS.

(** ** The world the handlers run in *)

(** [serverMetrics], lines 15-20. *)
Record ServerMetrics : Type := mkMetrics {
  startTime : Z;
  requestCount : Z;
  totalResponseTime : Z;
  responseTimeCount : Z
}.

(** Outcome of [execAsync(cmd)]: the promise resolves with the standard
    output or rejects (runtime absent, permission denied, timeout, non-zero
    exit status). *)
Inductive ExecResult : Type :=
| Resolved (stdout : string)
| Rejected (message : string).

Record World : Type := mkWorld {
  serverMetrics : ServerMetrics;
  clock : nat -> Z;          (* the successive values of Date.now() *)
  clock_reads : nat;
  random : nat -> Q;         (* the successive values of Math.random() *)
  random_draws : nat;
  docker_ps : ExecResult     (* what the summary `docker ps` call yields *)
}.

(** State and failure: [None] is reached only by a division by zero. *)
Definition M (A : Type) : Type := World -> option (A * World).

#[global] Instance M_ret : MRet M := fun A (a : A) w => Some (a, w).

#[global] Instance M_bind : MBind M := fun A B (k : A -> M B) (c : M A) w =>
  match c w with
  | Some (a, w') => k a w'
  | None => None
  end.

Definition lift_option {A : Type} (o : option A) : M A := fun w =>
  match o with
  | Some a => Some (a, w)
  | None => None
  end.

Definition Date_now : M Z := fun w =>
  Some (clock w (clock_reads w),
        mkWorld (serverMetrics w) (clock w) (S (clock_reads w))
                (random w) (random_draws w) (docker_ps w)).

Definition Math_random : M Q := fun w =>
  Some (random w (random_draws w),
        mkWorld (serverMetrics w) (clock w) (clock_reads w)
                (random w) (S (random_draws w)) (docker_ps w)).

Definition get_metrics : M ServerMetrics := fun w => Some (serverMetrics w, w).

Definition set_metrics (m : ServerMetrics) : M unit := fun w =>
  Some (tt, mkWorld m (clock w) (clock_reads w)
                    (random w) (random_draws w) (docker_ps w)).

Definition execAsync_docker_ps : M ExecResult := fun w => Some (docker_ps w, w).

(** The oracle of [Math.random()] stays in [0, 1). *)
Definition random_in_unit (w : World) : Prop :=
  forall n, (0 <= random w n)%Q /\ (random w n < 1)%Q.

(** The wall clock does not run backwards. *)
Definition clock_monotone (w : World) : Prop :=
  forall i j, (i <= j)%nat -> clock w i <= clock w j.

(** ** Helper functions, lines 37-50 *)

Definition ms_per_hour : Z := 1000 * 60 * 60.
Definition ms_per_minute : Z := 1000 * 60.

(** The text [getUptime] builds from [uptime = Date.now() - startTime]. *)
Definition uptimeString (uptime : Z) : string :=
  let hours := JS.Math_floor (inject_Z uptime / inject_Z ms_per_hour) in
  let minutes :=
    JS.Math_floor (inject_Z (JS.rem uptime ms_per_hour) / inject_Z ms_per_minute) in
  if 0 <? hours
  then (JS.show hours ++ "h " ++ JS.show minutes ++ "m")%string
  else (JS.show minutes ++ "m")%string.

Definition getUptime : M string :=
  now ← Date_now;
  m ← get_metrics;
  mret (uptimeString (now - startTime m)).

Definition getAverageResponseTime : M Z :=
  m ← get_metrics;
  if 0 <? responseTimeCount m
  then q ← lift_option (JS.div (inject_Z (totalResponseTime m))
                               (inject_Z (responseTimeCount m)));
       mret (JS.Math_round q)
  else mret 0.

(** ** Strings: [split], [trim] *)

Module Str.

Definition newline : ascii := ascii_of_nat 10.
Definition tab : ascii := ascii_of_nat 9.

(** [s.split(sep)] for a one-character separator; never empty. *)
Fixpoint split (sep : ascii) (s : string) : list string :=
  match s with
  | EmptyString => [EmptyString]
  | String c s' =>
      if Ascii.eqb c sep then EmptyString :: split sep s'
      else match split sep s' with
           | piece :: pieces => String c piece :: pieces
           | [] => [String c EmptyString]
           end
  end.

(** White space of [trim] among the code units below 256. *)
Definition is_space (c : ascii) : bool :=
  let n := nat_of_ascii c in
  ((9 <=? n) && (n <=? 13) || (n =? 32) || (n =? 160))%nat.

Fixpoint trim_start (s : string) : string :=
  match s with
  | EmptyString => EmptyString
  | String c s' => if is_space c then trim_start s' else s
  end.

Fixpoint trim_end (s : string) : string :=
  match s with
  | EmptyString => EmptyString
  | String c s' =>
      match trim_end s' with
      | EmptyString => if is_space c then EmptyString else String c EmptyString
      | t => String c t
      end
  end.

Definition trim (s : string) : string := trim_end (trim_start s).

(** Truthiness of a string: it is not empty. *)
Definition truthy (s : string) : bool :=
  match s with EmptyString => false | String _ _ => true end.

End Str.

(** ** Container status query, lines 52-67 *)

Record Container : Type := mkContainer {
  c_name : option string;      (* name?.trim() *)
  c_status : option string     (* status?.trim(), undefined without a tab *)
}.

Record DockerStatus : Type := mkDockerStatus {
  running : bool;
  containerCount : nat;
  containers : list Container
}.

Definition parse_container (line : string) : Container :=
  let parts := Str.split Str.tab line in
  mkContainer (Str.trim <$> parts !! 0%nat) (Str.trim <$> parts !! 1%nat).

(** What [checkDockerStatus] returns for an outcome of the call: the
    [try] block for standard output, the [catch] block for a rejection. *)
Definition docker_summary (r : ExecResult) : DockerStatus :=
  match r with
  | Resolved stdout =>
      let lines :=
        List.filter (fun line => Str.truthy (Str.trim line))
                    (tail (Str.split Str.newline stdout)) in
      mkDockerStatus (0 <? length lines)%nat (length lines)
                     (parse_container <$> lines)
  | Rejected _ =>
      mkDockerStatus false 0 []
  end.

Definition checkDockerStatus : M DockerStatus :=
  r ← execAsync_docker_ps;
  mret (docker_summary r).

(** ** Health sampler, lines 69-90 *)

Record HealthSample : Type := mkHealth {
  healthy : bool;
  cpu : option Q;
  memory : option Q;
  disk : option Q;
  error : option string;
  timestamp : Z
}.

(** The object the [try] block returns, lines 76-82. *)
Definition sample_of (cpu memory disk : Q) (timestamp : Z) : HealthSample :=
  mkHealth (JS.lt cpu 80 && JS.lt memory 85 && JS.lt disk 90)
           (Some cpu) (Some memory) (Some disk) None timestamp.

(** The object the [catch] block returns, lines 84-88. *)
Definition failed_sample (message : string) (timestamp : Z) : HealthSample :=
  mkHealth false None None None (Some message) timestamp.

(** Nothing in the [try] block throws, so [catch] is never entered. *)
Definition getSystemHealth : M HealthSample :=
  r1 ← Math_random;
  let cpu := JS.Math_floor (r1 * 30) + 10 in
  r2 ← Math_random;
  let memory := JS.Math_floor (r2 * 40) + 30 in
  r3 ← Math_random;
  let disk := JS.Math_floor (r3 * 20) + 20 in
  now ← Date_now;
  mret (sample_of (inject_Z cpu) (inject_Z memory) (inject_Z disk) now).

(** ** Responses *)

Record Response (B : Type) : Type := mkResponse {
  res_status : Z;
  res_body : B
}.
Arguments mkResponse {B} _ _.
Arguments res_status {B} _.
Arguments res_body {B} _.

(** ** GET /health, lines 95-102 *)

Record HealthBody : Type := mkHealthBody {
  hb_status : string;
  hb_timestamp : Z;
  hb_details : HealthSample
}.

Definition health_response (health : HealthSample) : Response HealthBody :=
  mkResponse (if healthy health then 200 else 503)
             (mkHealthBody (if healthy health then "healthy" else "unhealthy")
                           (timestamp health) health).

Definition get_health : M (Response HealthBody) :=
  health ← getSystemHealth;
  mret (health_response health).

(** ** GET /api/status, lines 105-142

    The handler awaits the container query and the health sample first;
    everything it reads of [serverMetrics] is read after the last [await],
    in one synchronous stretch, so the handler is run here in one piece. *)

(** The literal [0.1] of line 163. *)
Definition tenth : Q := JS.double (1 # 10).

(** Lines 108-109, from [Date.now() - serverMetrics.startTime] and
    [serverMetrics.requestCount]: two divisions, each rounded to a
    double. *)
Definition status_requestsPerHour (uptimeMs count : Z) : option Z :=
  let hoursRunning := JS.double (inject_Z uptimeMs / inject_Z ms_per_hour) in
  if JS.lt 0 hoursRunning
  then q ← JS.div (inject_Z count) hoursRunning;
       Some (JS.Math_round (JS.double q))
  else Some 0.

Record StatusBody : Type := mkStatusBody {
  sb_server_status : string;
  sb_server_version : string;
  sb_server_uptime : string;
  sb_webServer_status : string;
  sb_webServer_responseTime : Z;
  sb_docker_status : string;
  sb_docker_containers : nat;
  sb_healthCheck_status : string;
  sb_healthCheck_lastCheck : Z;
  sb_ssl_status : string;
  sb_ssl_certificate : string;
  sb_metrics_uptime : string;
  sb_metrics_responseTime : string;
  sb_metrics_requestsPerHour : Z;  (* rendered by toLocaleString() *)
  sb_timestamp : Z
}.

Definition get_api_status : M (Response StatusBody) :=
  dockerStatus ← checkDockerStatus;
  health ← getSystemHealth;
  now ← Date_now;
  m ← get_metrics;
  requestsPerHour ←
    lift_option (status_requestsPerHour (now - startTime m) (requestCount m));
  uptime1 ← getUptime;
  responseTime1 ← getAverageResponseTime;
  uptime2 ← getUptime;
  responseTime2 ← getAverageResponseTime;
  stamp ← Date_now;
  mret (mkResponse 200
    (mkStatusBody
       "online" "1.0.0" uptime1
       "online" responseTime1
       (if running dockerStatus then "online" else "offline")
       (containerCount dockerStatus)
       (if healthy health then "online" else "degraded") (timestamp health)
       "online" "valid"
       uptime2 (JS.show responseTime2 ++ "ms")%string requestsPerHour
       stamp)).

(** ** GET /api/metrics, lines 145-178 *)

(** Lines 149 and 163, from [uptimeMs] and [serverMetrics.requestCount]:
    two divisions, each rounded to a double. *)
Definition metrics_requestsPerHour (uptimeMs count : Z) : option Z :=
  let hoursRunning := JS.double (inject_Z uptimeMs / inject_Z ms_per_hour) in
  q ← JS.div (inject_Z count) (JS.Math_max hoursRunning tenth);
  Some (JS.Math_round (JS.double q)).

(** Lines 152 and 156, from the value of [Math.random()]. *)
Definition uptime_percentage (r : Q) : Q :=
  let uptimePercentage := JS.Math_max 99 (100 - r * 1) in
  (inject_Z (JS.Math_round (uptimePercentage * 10)) / 10)%Q.

Record MetricsBody : Type := mkMetricsBody {
  mb_uptime_percent : Q;
  mb_uptime_duration : string;
  mb_uptime_startTime : Z;
  mb_perf_averageResponseTime : Z;
  mb_perf_requestCount : Z;
  mb_perf_requestsPerHour : Z;
  mb_system_cpu : option Q;
  mb_system_memory : option Q;
  mb_system_disk : option Q;
  mb_system_healthy : bool;
  mb_dock_status : string;
  mb_dock_containerCount : nat;
  mb_dock_containers : list Container;
  mb_timestamp : Z
}.

Definition get_api_metrics : M (Response MetricsBody) :=
  health ← getSystemHealth;
  dockerStatus ← checkDockerStatus;
  now ← Date_now;
  m ← get_metrics;
  let uptimeMs := now - startTime m in
  r ← Math_random;
  duration ← getUptime;
  averageResponseTime ← getAverageResponseTime;
  requestsPerHour ← lift_option (metrics_requestsPerHour uptimeMs (requestCount m));
  stamp ← Date_now;
  mret (mkResponse 200
    (mkMetricsBody
       (uptime_percentage r) duration (startTime m)
       averageResponseTime (requestCount m) requestsPerHour
       (cpu health) (memory health) (disk health) (healthy health)
       (if running dockerStatus then "running" else "stopped")
       (containerCount dockerStatus) (containers dockerStatus)
       stamp)).

(** ** What the specification says of the rate, section 4.2 *)

(** [round(requestCount / hoursRunning)] where
    [hoursRunning = max(elapsedHours, 0.1)]. *)
Definition spec_requestsPerHour (count : Z) (elapsedHours : Q) : Z :=
  let hoursRunning := if Qlt_le_dec elapsedHours (1 # 10) then (1 # 10)%Q else elapsedHours in
  Qfloor (inject_Z count / hoursRunning + (1 # 2)).

Definition elapsedHours (uptimeMs : Z) : Q := (uptimeMs # 3600000)%Q.

(** The same formula in the arithmetic of a JavaScript program: the
    elapsed hours are a double, [0.1] is the double nearest to one tenth,
    and the quotient is rounded to a double before it is rounded to an
    integer. *)
Definition spec_requestsPerHour_double (count : Z) (elapsedHours : Q) : Z :=
  let hoursRunning := if Qlt_le_dec elapsedHours tenth then tenth else elapsedHours in
  Qfloor (JS.double (inject_Z count / hoursRunning) + (1 # 2)).

Definition elapsedHours_double (uptimeMs : Z) : Q := JS.double (elapsedHours uptimeMs).

(** ** Routing of a GET request (Express 4 router)

    The handlers are registered with [app.get(route, ...)] and the
    not-found handler with [app.use('/api/*', ...)], line 240.  What the
    router does with these registrations decides which handler sees a
    request and which [req.url] it sees:
    - a route of [app.get] is matched against the whole pathname, ignoring
      letter case and one trailing slash;
    - the path of [app.use] is matched as a prefix, ignoring letter case:
      here [/api/], then the star (any run of characters without a line
      terminator, as long as possible), then an optional slash, and the
      match must stop at a slash or at the end of the pathname; the
      matched text is the layer path, and
      before the middleware runs the router removes it from the front of
      [req.url] and puts a slash in front of what remains when that does
      not start with one.  [req.path] read inside the middleware is the
      pathname of the url so trimmed.
    This is the behaviour of the router of Express 4 ([Layer.match] and
    [trim_prefix] in its [lib/router]), which its documentation of
    [req.path] states as: when called from a middleware, the mount point
    is not included in [req.path].
    Requests carry no body, so [express.json()] passes them on, and the
    error-handling middleware of line 230 is skipped while no error is
    pending. *)

Module Router.

Definition slash : ascii := "/"%char.

(** The pathname of a request target: the text before the first [?]. *)
Fixpoint pathname (url : string) : string :=
  match url with
  | EmptyString => EmptyString
  | String c rest => if Ascii.eqb c "?" then EmptyString else String c (pathname rest)
  end.

Definition lower (c : ascii) : ascii :=
  let n := nat_of_ascii c in
  if ((65 <=? n) && (n <=? 90))%nat then ascii_of_nat (n + 32) else c.

(** Remove a literal prefix, ignoring letter case. *)
Fixpoint strip_prefix (p s : string) : option string :=
  match p, s with
  | EmptyString, _ => Some s
  | String a p', String b s' =>
      if Ascii.eqb (lower a) (lower b) then strip_prefix p' s' else None
  | String _ _, EmptyString => None
  end.

(** [app.get(route)] for a route without parameters: [/^route\/?$/i]. *)
Definition route_match (route path : string) : bool :=
  match strip_prefix route path with
  | Some EmptyString => true
  | Some (String c EmptyString) => Ascii.eqb c slash
  | _ => false
  end.

(** [.] of a regular expression matches no line terminator. *)
Definition is_line_terminator (c : ascii) : bool :=
  let n := nat_of_ascii c in ((n =? 10) || (n =? 13))%nat.

(** Length of the text that the star and the optional slash match at
    the start of [r]: the star takes the longest run after which the
    rest of the pattern still matches. *)
Fixpoint star_tail (r : string) : option nat :=
  match r with
  | EmptyString => Some 0%nat
  | String c r' =>
      match (if is_line_terminator c then None else star_tail r') with
      | Some n => Some (S n)
      | None =>
          if Ascii.eqb c slash
          then match r' with
               | EmptyString => Some 1%nat
               | String c' _ => if Ascii.eqb c' slash then Some 1%nat else Some 0%nat
               end
          else None
      end
  end.

(** [layer.path] of the ['/api/*'] layer for a pathname, [None] when
    the layer does not match, together with the text the star took. *)
Definition api_star_match (path : string) : option (string * string) :=
  rest ← strip_prefix "/api/" path;
  n ← star_tail rest;
  Some (substring 0 (5 + n) path, rest).

(** No line terminator occurs in [s]. *)
Fixpoint single_line (s : string) : bool :=
  match s with
  | EmptyString => true
  | String c s' => negb (is_line_terminator c) && single_line s'
  end.

Fixpoint has_percent (s : string) : bool :=
  match s with
  | EmptyString => false
  | String c s' => Ascii.eqb c "%" || has_percent s'
  end.

(** [trim_prefix]: the url the middleware sees, [None] when the router
    moves on to the next layer instead. *)
Definition trim_prefix (layerPath path url : string) : option string :=
  let n := String.length layerPath in
  if (n =? 0)%nat then Some url
  else if negb (String.eqb layerPath (substring 0 n path)) then None
  else
    let breaks :=
      match get n path with
      | Some c => Ascii.eqb c slash || Ascii.eqb c "."
      | None => true
      end in
    if negb breaks then None
    else
      let url' := substring n (String.length url - n) url in
      match url' with
      | String c _ => if Ascii.eqb c slash then Some url' else Some (String slash url')
      | EmptyString => Some (String slash url')
      end.

Inductive Endpoint : Type :=
| Health
| ApiStatus
| ApiMetrics
| ApiContainers
| ApiSystem
| ApiNotFound (req_url : string)  (* the '/api/*' middleware, with its req.url *)
| FinalHandler                    (* no layer answered: Express's own 404 *)
| ParamDecoding.                  (* the matched text has a % escape, which
                                     the router decodes first: not modelled *)

Definition dispatch_get (url : string) : Endpoint :=
  let path := pathname url in
  if route_match "/health" path then Health
  else if route_match "/api/status" path then ApiStatus
  else if route_match "/api/metrics" path then ApiMetrics
  else if route_match "/api/containers" path then ApiContainers
  else if route_match "/api/system" path then ApiSystem
  else match api_star_match path with
       | Some (layerPath, taken) =>
           if has_percent taken then ParamDecoding
           else match trim_prefix layerPath path url with
                | Some url' => ApiNotFound url'
                | None => FinalHandler
                end
       | None => FinalHandler
       end.

End Router.

(** ** 404 handler for API routes, lines 240-246 *)

Record NotFoundBody : Type := mkNotFoundBody {
  nf_error : string;
  nf_path : string;
  nf_timestamp : Z
}.

(** [req_url] is [req.url] as the router hands it to the middleware;
    [req.path] is its pathname. *)
Definition api_not_found (req_url : string) : M (Response NotFoundBody) :=
  stamp ← Date_now;
  mret (mkResponse 404
          (mkNotFoundBody "API endpoint not found" (Router.pathname req_url) stamp)).

(** A GET request for [url] that ends in the not-found handler. *)
Definition get_unmatched (url : string) : M (option (Response NotFoundBody)) :=
  match Router.dispatch_get url with
  | Router.ApiNotFound req_url => r ← api_not_found req_url; mret (Some r)
  | _ => mret None
  end.

(** ** Request tracking middleware, lines 23-34 *)

(** The body of the middleware; the result is the [start] that the
    [finish] listener closes over. *)
Definition track_request : M Z :=
  start ← Date_now;
  m ← get_metrics;
  set_metrics (mkMetrics (startTime m) (requestCount m + 1)
                         (totalResponseTime m) (responseTimeCount m));;
  mret start.

(** The listener registered with [res.on('finish', ...)]. *)
Definition on_finish (start : Z) : M unit :=
  now ← Date_now;
  let responseTime := now - start in
  m ← get_metrics;
  set_metrics (mkMetrics (startTime m) (requestCount m)
                         (totalResponseTime m + responseTime)
                         (responseTimeCount m + 1)).

(** Module load, lines 15-20. *)
Definition boot : M unit :=
  now ← Date_now;
  set_metrics (mkMetrics now 0 0 0).

(** ** The running server

    Besides the world, the server holds the listeners of the responses
    that have not finished yet, each with the [start] it captured.  A
    request is named by its arrival number. *)

Record Server : Type := mkServer {
  world : World;
  in_flight : gmap nat Z;
  arrivals : nat
}.

(** The handlers embedded above.  The two others, /api/containers and
    /api/system, read the same state and write none of it either. *)
Inductive Handler : Type :=
| HHealth
| HStatus
| HMetrics
| HNotFound (req_url : string).

Definition run_handler (h : Handler) : M unit :=
  match h with
  | HHealth => get_health;; mret tt
  | HStatus => get_api_status;; mret tt
  | HMetrics => get_api_metrics;; mret tt
  | HNotFound req_url => api_not_found req_url;; mret tt
  end.

Inductive Event : Type :=
| Arrive                    (* a request reaches the middleware *)
| Answer (h : Handler)      (* a handler computes a response *)
| Finish (request : nat).   (* the response of a request has been sent *)

Definition step (e : Event) (s : Server) : option Server :=
  match e with
  | Arrive =>
      '(start, w) ← track_request (world s);
      Some (mkServer w (<[arrivals s := start]> (in_flight s)) (S (arrivals s)))
  | Answer h =>
      '(_, w) ← run_handler h (world s);
      Some (mkServer w (in_flight s) (arrivals s))
  | Finish request =>
      start ← in_flight s !! request;
      '(_, w) ← on_finish start (world s);
      Some (mkServer w (delete request (in_flight s)) (arrivals s))
  end.

Fixpoint run (events : list Event) (s : Server) : option Server :=
  match events with
  | [] => Some s
  | e :: rest => s' ← step e s; run rest s'
  end.

Definition started (w0 : World) : option Server :=
  '(_, w) ← boot w0;
  Some (mkServer w ∅ 0).

(** [s] is a state of the server some time after a start in [w0]. *)
Definition reachable (w0 : World) (s : Server) : Prop :=
  exists events, (s0 ← started w0; run events s0) = Some s.

(** ** Worlds to run the definitions in *)

Definition no_metrics : ServerMetrics := mkMetrics 0 0 0 0.

(** A clock that advances by seven milliseconds per reading, a random
    source that always yields one half, a host without docker. *)
Definition quiet_world : World :=
  mkWorld no_metrics (fun n => 7 * Z.of_nat n) 0 (fun _ => (1 # 2)%Q) 0
          (Rejected "docker: not found").

(** The same host with two containers running. *)
Definition busy_world : World :=
  mkWorld (mkMetrics 0 10 130 9) (fun n => 180000 + 7 * Z.of_nat n) 0
          (fun n => (Z.of_nat (n mod 4) # 4)%Q) 0
          (Resolved (String.concat (String Str.newline EmptyString)
             ["NAMES" ++ String Str.tab "STATUS";
              "web" ++ String Str.tab "Up 2 hours";
              "db" ++ String Str.tab "Up 5 minutes"; ""])%string).

(** A host whose clock is set back after its second reading: it reads
    0, then 100, then 50 from the third reading on. *)
Definition skewed_world : World :=
  mkWorld no_metrics
          (fun n => match n with 0%nat => 0 | 1%nat => 100 | _ => 50 end) 0
          (fun _ => (1 # 2)%Q) 0
          (Rejected "docker: not found").

(** A host whose random source is rigged so that the sampler draws the
    given whole numbers for cpu, memory and disk. *)
Definition rigged_world (cpu memory disk : Z) : World :=
  mkWorld no_metrics (fun n => 7 * Z.of_nat n) 0
          (fun n => match n with
                    | 0%nat => (cpu - 10 # 30)%Q
                    | 1%nat => (memory - 30 # 40)%Q
                    | _ => (disk - 20 # 20)%Q
                    end) 0
          (Rejected "docker: not found").

(** ** Uptime texts read back *)

(** The text before the first [h], when there is one. *)
Fixpoint before_h (s : string) : option string :=
  match s with
  | EmptyString => None
  | String c rest =>
      if Ascii.eqb c "h" then Some EmptyString else String c <$> before_h rest
  end.

(** The hour count that an uptime text shows; a text without an hour part
    shows none, which counts as zero. *)
Definition hour_component (s : string) : Z :=
  match before_h s with
  | Some digits =>
      match NilZero.int_of_string digits with
      | Some d => Z.of_int d
      | None => 0
      end
  | None => 0
  end.

(** ** What holds of every state the server reaches from [w0] *)

Definition server_invariant (w0 : World) (s : Server) : Prop :=
  let m := serverMetrics (world s) in
  clock (world s) = clock w0 /\
  0 <= responseTimeCount m /\
  responseTimeCount m + Z.of_nat (size (in_flight s)) <= requestCount m /\
  (forall (request : nat) (start : Z),
     in_flight s !! request = Some start ->
     exists i : nat, (i < clock_reads (world s))%nat /\ start = clock w0 i).

(** ** Tables of containers *)

Fixpoint has_char (c : ascii) (s : string) : bool :=
  match s with
  | EmptyString => false
  | String c' s' => Ascii.eqb c' c || has_char c s'
  end.

(** A line of the listing: a name, a tab, a status. *)
Definition row_line (row : string * string) : string :=
  (row.1 ++ String Str.tab row.2)%string.

(** The lines of the rows, each ended by a newline. *)
Fixpoint table_body (rows : list (string * string)) : string :=
  match rows with
  | [] => EmptyString
  | row :: rest => (row_line row ++ String Str.newline (table_body rest))%string
  end.

(** A listing: a header line, then the rows. *)
Definition table_text (header : string) (rows : list (string * string)) : string :=
  (header ++ String Str.newline (table_body rows))%string.

(** A cell of a row: no tab, no newline, nothing for [trim] to remove. *)
Definition cell (s : string) : Prop :=
  has_char Str.tab s = false /\ has_char Str.newline s = false /\ Str.trim s = s.

(** ** GET /api/containers, lines 181-201

    [JSON.parse] and the reading of the [State] property of a parsed
    value are taken as given: [JSON_parse] yields the message of the
    [SyntaxError] or the value, [State] yields the message of the
    [TypeError] that reading a property of [null] raises, or the property
    when it is a string.  The outcome of the spawned [docker ps -a] is an
    argument of the handler. *)

Section Containers.

Context {Json : Type}.
Variable JSON_parse : string -> string + Json.
Variable State : Json -> string + option string.

Record ContainersBody : Type := mkContainersBody {
  cb_containers : list Json;
  cb_total : nat;
  cb_running : nat;
  cb_timestamp : Z
}.

Record ErrorBody : Type := mkErrorBody {
  eb_error : string;
  eb_message : string;
  eb_timestamp : Z
}.

(** [lines.map(line => JSON.parse(line))]: the first throw ends it. *)
Fixpoint parse_lines (lines : list string) : string + list Json :=
  match lines with
  | [] => inr []
  | line :: rest =>
      match JSON_parse line with
      | inl message => inl message
      | inr c =>
          match parse_lines rest with
          | inl message => inl message
          | inr cs => inr (c :: cs)
          end
      end
  end.

(** [containers.filter(c => c.State === 'running').length]. *)
Fixpoint count_running (cs : list Json) : string + nat :=
  match cs with
  | [] => inr 0%nat
  | c :: rest =>
      match State c with
      | inl message => inl message
      | inr state =>
          match count_running rest with
          | inl message => inl message
          | inr n =>
              inr (match state with
                   | Some text => if String.eqb text "running" then S n else n
                   | None => n
                   end)
          end
      end
  end.

(** The [try] block up to the call of [res.json]: the listing and the
    number of running containers, or the message of what was thrown. *)
Definition list_containers (r : ExecResult) : string + (list Json * nat) :=
  match r with
  | Rejected message => inl message
  | Resolved stdout =>
      match parse_lines (List.filter (fun line => Str.truthy (Str.trim line))
                                     (Str.split Str.newline stdout)) with
      | inl message => inl message
      | inr cs =>
          match count_running cs with
          | inl message => inl message
          | inr n => inr (cs, n)
          end
      end
  end.

Definition get_api_containers (r : ExecResult)
  : M (Response (ErrorBody + ContainersBody)) :=
  match list_containers r with
  | inr (cs, n) =>
      stamp ← Date_now;
      mret (mkResponse 200 (inr (mkContainersBody cs (length cs) n stamp)))
  | inl message =>
      stamp ← Date_now;
      mret (mkResponse 500
              (inl (mkErrorBody "Failed to fetch containers" message stamp)))
  end.

End Containers.

(** ** Counting the events of a trace *)

Definition is_arrival (e : Event) : bool :=
  match e with Arrive => true | _ => false end.

Definition is_completion (e : Event) : bool :=
  match e with Finish _ => true | _ => false end.

(** The unfinished requests account for the gap between the counters,
    and every one of them has arrived. *)
Definition server_balance (s : Server) : Prop :=
  let m := serverMetrics (world s) in
  requestCount m = responseTimeCount m + Z.of_nat (size (in_flight s)) /\
  (forall (request : nat) (start : Z),
     in_flight s !! request = Some start -> (request < arrivals s)%nat).

(** ** The dashboard page, frontend/js/main.js *)

(** The uptime text of [updateMetrics], lines 250-259, from
    [uptime = Date.now() - this.state.startTime]. *)
Definition dashboard_uptime (uptime : Z) : string :=
  let hours := JS.Math_floor (inject_Z uptime / inject_Z ms_per_hour) in
  let days := JS.Math_floor (inject_Z hours / 24) in
  if 0 <? days
  then (JS.show days ++ "d " ++ JS.show (JS.rem hours 24) ++ "h")%string
  else (JS.show hours ++ "h")%string.

(** The simulated request counter of [updateMetrics], lines 262-266, from
    the value of [Math.random()]; the number that [toLocaleString()]
    renders. *)
Definition simulated_requests (r : Q) : Z :=
  let baseRequests := 1200 in
  let variance := JS.Math_floor (r * 200) - 100 in
  baseRequests + variance.

(** What [fetch] gives: a response, of which only the status matters
    here, or a rejection. *)
Inductive Fetched : Type :=
| Answered (status : Z)
| NoAnswer.

(** [response.ok]. *)
Definition response_ok (status : Z) : bool := (200 <=? status) && (status <=? 299).

(** The status that [checkHealthEndpoint] shows, lines 201-220. *)
Definition health_indicator (f : Fetched) : string :=
  match f with
  | Answered status =>
      let isHealthy := response_ok status && (status =? 200) in
      if isHealthy then "online" else "offline"
  | NoAnswer => "offline"
  end.

(** *** The mobile menu, lines 67-134

    [has_navMenu] and [has_navToggle] say whether [init] found the
    elements [nav-menu] and [mobile-menu]; [menu_active] and
    [toggle_active] say whether their class lists hold [active];
    [body_overflow] is [document.body.style.overflow].  A handler that
    reads a property of a missing element raises: the result is [None]. *)

Record Page : Type := mkPage {
  has_navMenu : bool;
  has_navToggle : bool
}.

Record Nav : Type := mkNav {
  isMenuOpen : bool;
  menu_active : bool;
  toggle_active : bool;
  body_overflow : string
}.

Definition toggleMobileMenu (p : Page) (s : Nav) : Nav :=
  let open := negb (isMenuOpen s) in
  mkNav open
        (if has_navMenu p then open else menu_active s)
        (if has_navToggle p then open else toggle_active s)
        (if open then "hidden" else "").

Definition handleResize (p : Page) (innerWidth : Z) (s : Nav) : Nav :=
  if (768 <? innerWidth) && isMenuOpen s then toggleMobileMenu p s else s.

Definition handleKeydown (p : Page) (key : string) (s : Nav) : Nav :=
  if String.eqb key "Escape" && isMenuOpen s then toggleMobileMenu p s else s.

(** [in_menu] and [in_toggle]: whether the element contains the target
    of the click. *)
Definition handleOutsideClick (p : Page) (in_menu in_toggle : bool) (s : Nav)
  : option Nav :=
  if isMenuOpen s then
    if has_navMenu p then
      if negb in_menu then
        if has_navToggle p then
          if negb in_toggle then Some (toggleMobileMenu p s) else Some s
        else None
      else Some s
    else None
  else Some s.

(** What [document.querySelector(targetId)] does with the [href] of the
    clicked link. *)
Inductive Lookup : Type :=
| Found
| NotFound
| InvalidSelector.

(** The part of [handleSmoothScroll] that bears on the menu. *)
Definition handleSmoothScroll (p : Page) (target : Lookup) (s : Nav) : option Nav :=
  match target with
  | Found => Some (if isMenuOpen s then toggleMobileMenu p s else s)
  | NotFound => Some s
  | InvalidSelector => None
  end.

(** The calls of the listeners that [setupEventListeners] registers. *)
Inductive NavEvent : Type :=
| ToggleClick
| Resized (innerWidth : Z)
| KeyDown (key : string)
| DocumentClick (in_menu in_toggle : bool)
| AnchorClick (target : Lookup).

Definition nav_step (p : Page) (e : NavEvent) (s : Nav) : option Nav :=
  match e with
  | ToggleClick => Some (if has_navToggle p then toggleMobileMenu p s else s)
  | Resized innerWidth => Some (handleResize p innerWidth s)
  | KeyDown key => Some (handleKeydown p key s)
  | DocumentClick in_menu in_toggle => handleOutsideClick p in_menu in_toggle s
  | AnchorClick target => handleSmoothScroll p target s
  end.

Fixpoint nav_run (p : Page) (events : list NavEvent) (s : Nav) : option Nav :=
  match events with
  | [] => Some s
  | e :: rest => s' ← nav_step p e s; nav_run p rest s'
  end.

(** The classes and the overflow style say what [isMenuOpen] says. *)
Definition nav_synced (s : Nav) : Prop :=
  menu_active s = isMenuOpen s /\
  toggle_active s = isMenuOpen s /\
  body_overflow s = (if isMenuOpen s then "hidden" else "")%string.

Definition closes_menu (e : NavEvent) : bool :=
  match e with ToggleClick => false | _ => true end.

(** ** The animation controller, frontend/js/animations.js *)

(** *** Frame rate, [setupPerformanceMonitoring], lines 286-303

    [frameCount] and [lastTime] are the variables that [measureFPS]
    closes over, [fps] is [performanceMetrics.fps]; times are those of
    [performance.now()]. *)

Record FpsMonitor : Type := mkFps {
  frameCount : Z;
  lastTime : Q;
  fps : Z
}.

Definition measureFPS (currentTime : Q) (s : FpsMonitor) : option FpsMonitor :=
  let frameCount := frameCount s + 1 in
  if Qle_bool (lastTime s + 1000) currentTime
  then q ← JS.div (inject_Z (frameCount * 1000)) (currentTime - lastTime s);
       Some (mkFps 0 currentTime (JS.Math_round q))
  else Some (mkFps frameCount (lastTime s) (fps s)).

(** *** The queue of running animations, lines 213-220

    An animation object is named by a number; [element.animate] returns a
    new object each time. *)

(** [queue.indexOf(a)], [None] for -1. *)
Fixpoint index_of (a : nat) (queue : list nat) : option nat :=
  match queue with
  | [] => None
  | b :: rest => if Nat.eqb b a then Some 0%nat else S <$> index_of a rest
  end.

(** [animationQueue.push(animation)]. *)
Definition animation_started (a : nat) (queue : list nat) : list nat :=
  queue ++ [a].

(** The queue after the [finish] listener of [a] has run. *)
Definition animation_finished (a : nat) (queue : list nat) : list nat :=
  match index_of a queue with
  | Some index => delete index queue
  | None => queue
  end.

(** ** Decimal digits *)

Definition is_digit (c : ascii) : bool :=
  let n := nat_of_ascii c in ((48 <=? n) && (n <=? 57))%nat.

Fixpoint digits_only (s : string) : bool :=
  match s with
  | EmptyString => true
  | String c s' => is_digit c && digits_only s'
  end.

(** * Properties *)

(** ** Arithmetic of [Math.floor] and [Math.round] *)

Lemma inject_Z_nonzero (b : Z) : b <> 0 -> ~ (inject_Z b == 0)%Q.
Proof.
  intros Hb H. apply Hb. unfold Qeq in H. simpl in H. lia.
Qed.

Lemma floor_quotient (a b : Z) :
  JS.Math_floor (inject_Z a / inject_Z b) = a / b.
Proof.
  unfold JS.Math_floor. symmetry. apply Zdiv_Qdiv.
Qed.

Lemma round_quotient (a b : Z) :
  0 < b -> JS.Math_round (inject_Z a / inject_Z b) = (2 * a + b) / (2 * b).
Proof.
  intros Hb. unfold JS.Math_round.
  rewrite Zdiv_Qdiv. apply Qfloor_comp.
  rewrite !inject_Z_plus, !inject_Z_mult.
  assert (Hnz : ~ (inject_Z b == 0)%Q) by (apply inject_Z_nonzero; lia).
  change (inject_Z 2) with (2 # 1)%Q.
  field. exact Hnz.
Qed.

(** [Math.round] of a quotient is the integer nearest to it. *)
Lemma round_quotient_nearest (a b : Z) :
  0 < b ->
  let r := JS.Math_round (inject_Z a / inject_Z b) in
  2 * a - b < 2 * b * r <= 2 * a + b.
Proof.
  intros Hb r. subst r. rewrite round_quotient by exact Hb.
  pose proof (Z.mul_div_le (2 * a + b) (2 * b) ltac:(lia)).
  pose proof (Z.mul_succ_div_gt (2 * a + b) (2 * b) ltac:(lia)).
  lia.
Qed.

Lemma lt_inject_Z (a b : Z) : JS.lt (inject_Z a) (inject_Z b) = (a <? b).
Proof.
  unfold JS.lt.
  destruct (Qle_bool (inject_Z b) (inject_Z a)) eqn:E.
  - apply Qle_bool_iff in E. rewrite <- Zle_Qle in E.
    symmetry. apply Z.ltb_ge. exact E.
  - symmetry. apply Z.ltb_lt.
    destruct (Z.lt_ge_cases a b) as [H | H]; [exact H |].
    assert (Qle_bool (inject_Z b) (inject_Z a) = true) as E'
      by (apply Qle_bool_iff; rewrite <- Zle_Qle; exact H).
    congruence.
Qed.

Lemma lt_spec (a b : Q) : JS.lt a b = true <-> (a < b)%Q.
Proof.
  unfold JS.lt. split.
  - intros H. apply Qnot_le_lt. intros Hle.
    apply Qle_bool_iff in Hle. rewrite Hle in H. discriminate.
  - intros H. destruct (Qle_bool b a) eqn:E; [| reflexivity].
    apply Qle_bool_iff in E. exfalso. exact (Qlt_not_le _ _ H E).
Qed.

Lemma max_spec (a b : Q) :
  (a <= JS.Math_max a b)%Q /\ (b <= JS.Math_max a b)%Q /\
  (JS.Math_max a b = a \/ JS.Math_max a b = b).
Proof.
  unfold JS.Math_max. destruct (Qle_bool a b) eqn:E.
  - apply Qle_bool_iff in E. repeat split; [exact E | apply Qle_refl | now right].
  - repeat split; [apply Qle_refl | | now left].
    apply Qlt_le_weak, Qnot_le_lt. intros H.
    apply Qle_bool_iff in H. congruence.
Qed.

(** ** Rounding to binary64 *)

Lemma pow2_pos (k : Z) : (0 < JS.pow2 k)%Q.
Proof. apply Qpower_0_lt. reflexivity. Qed.

Lemma pow2_add (k l : Z) : (JS.pow2 (k + l) == JS.pow2 k * JS.pow2 l)%Q.
Proof. apply Qpower_plus. discriminate. Qed.

Lemma pow2_succ (k : Z) : (JS.pow2 (k + 1) == 2 * JS.pow2 k)%Q.
Proof. rewrite pow2_add. change (JS.pow2 1) with 2%Q. ring. Qed.

Lemma pow2_lt (k l : Z) : k < l -> (JS.pow2 k < JS.pow2 l)%Q.
Proof. intros H. apply Qpower_lt_compat_l; [exact H | reflexivity]. Qed.

Lemma pow2_le (k l : Z) : k <= l -> (JS.pow2 k <= JS.pow2 l)%Q.
Proof. intros H. apply Qpower_le_compat_l; [exact H | discriminate]. Qed.

Lemma pow2_lt_inv (k l : Z) : (JS.pow2 k < JS.pow2 l)%Q -> k < l.
Proof. intros H. apply (Qpower_lt_compat_l_inv 2); [exact H | reflexivity]. Qed.

Lemma pow2_nat (k : Z) : 0 <= k -> (JS.pow2 k == inject_Z (2 ^ k))%Q.
Proof. intros H. unfold JS.pow2. rewrite Zpower_Qpower by exact H. reflexivity. Qed.

(** A number lies in one JS.binade only. *)
Lemma binade_unique (q : Q) (k l : Z) :
  (JS.pow2 k <= q)%Q -> (q < JS.pow2 (k + 1))%Q ->
  (JS.pow2 l <= q)%Q -> (q < JS.pow2 (l + 1))%Q -> k = l.
Proof.
  intros Hk1 Hk2 Hl1 Hl2.
  assert (k < l + 1) by (apply pow2_lt_inv; eapply Qle_lt_trans; eassumption).
  assert (l < k + 1) by (apply pow2_lt_inv; eapply Qle_lt_trans; eassumption).
  lia.
Qed.

Lemma binade_spec (q : Q) :
  (0 < q)%Q -> (JS.pow2 (JS.binade q) <= q)%Q /\ (q < JS.pow2 (JS.binade q + 1))%Q.
Proof.
  intros Hq. destruct q as [n d]. unfold JS.binade. cbn [Qnum Qden].
  assert (Hn : 0 < n) by (unfold Qlt in Hq; simpl in Hq; lia).
  destruct (Z.log2_spec n Hn) as [Ha1 Ha2].
  destruct (Z.log2_spec (Zpos d) ltac:(lia)) as [Hb1 Hb2].
  set (a := Z.log2 n) in *. set (b := Z.log2 (Zpos d)) in *.
  assert (Ha0 : 0 <= a) by apply Z.log2_nonneg.
  assert (Hb0 : 0 <= b) by apply Z.log2_nonneg.
  assert (HA : (JS.pow2 a == inject_Z (2 ^ a))%Q) by (apply pow2_nat; exact Ha0).
  assert (HB : (JS.pow2 b == inject_Z (2 ^ b))%Q) by (apply pow2_nat; exact Hb0).
  assert (Hg : (JS.pow2 (a - b) * inject_Z (2 ^ b) == inject_Z (2 ^ a))%Q).
  { rewrite <- HA, <- HB, <- pow2_add. replace (a - b + b) with a by lia. reflexivity. }
  assert (Hq' : ((n # d) * inject_Z (Zpos d) == inject_Z n)%Q).
  { unfold Qeq, Qmult, inject_Z. simpl. lia. }
  pose proof (pow2_pos (a - b)) as Hpg.
  assert (HAq : (inject_Z (2 ^ a) <= inject_Z n)%Q) by (rewrite <- Zle_Qle; exact Ha1).
  assert (HAq2 : (inject_Z n < 2 * inject_Z (2 ^ a))%Q).
  { change 2%Q with (inject_Z 2). rewrite <- inject_Z_mult, <- Zlt_Qlt.
    rewrite Z.pow_succ_r in Ha2 by exact Ha0. lia. }
  assert (HBq : (inject_Z (2 ^ b) <= inject_Z (Zpos d))%Q) by (rewrite <- Zle_Qle; exact Hb1).
  assert (HBq2 : (inject_Z (Zpos d) < 2 * inject_Z (2 ^ b))%Q).
  { change 2%Q with (inject_Z 2). rewrite <- inject_Z_mult, <- Zlt_Qlt.
    rewrite Z.pow_succ_r in Hb2 by exact Hb0. lia. }
  assert (HBpos : (0 < inject_Z (2 ^ b))%Q).
  { change 0%Q with (inject_Z 0). rewrite <- Zlt_Qlt. apply Z.pow_pos_nonneg; lia. }
  set (x := (n # d)%Q) in *. set (D := inject_Z (Zpos d)) in *.
  set (A := inject_Z (2 ^ a)) in *. set (B := inject_Z (2 ^ b)) in *.
  set (N := inject_Z n) in *. set (G := JS.pow2 (a - b)) in *.
  destruct (Qle_bool G x) eqn:E.
  - apply Qle_bool_iff in E. split; [exact E |].
    rewrite pow2_succ. fold G.
        assert (H1 : (x * D < 2 * G * D)%Q) by nra.
    assert (HD : (0 < D)%Q) by lra.
    apply Qnot_le_lt. intros Hle. nra.
  - assert (Hlt : (x < G)%Q).
    { apply Qnot_le_lt. intros H. apply Qle_bool_iff in H. congruence. }
    replace (a - b - 1 + 1) with (a - b) by lia. fold G. split; [| exact Hlt].
    assert (Hhalf : (2 * JS.pow2 (a - b - 1) == G)%Q).
    { rewrite <- pow2_succ. replace (a - b - 1 + 1) with (a - b) by lia. reflexivity. }
    set (H := JS.pow2 (a - b - 1)) in *.
    assert (HD : (0 < D)%Q) by lra.
    apply Qnot_lt_le. intros Hc. nra.
Qed.

Lemma round_half_even_near (x : Q) :
  (inject_Z (JS.round_half_even x) <= x + (1 # 2))%Q /\
  (x - (1 # 2) <= inject_Z (JS.round_half_even x))%Q.
Proof.
  unfold JS.round_half_even. cbv zeta.
  pose proof (Qfloor_le x) as Hlo. pose proof (Qlt_floor x) as Hhi.
  set (f := Qfloor x) in *.
  rewrite inject_Z_plus in Hhi. change (inject_Z 1) with 1%Q in Hhi.
  destruct (x - inject_Z f ?= 1 # 2)%Q eqn:E.
  - rewrite <- Qeq_alt in E.
    destruct (Z.even f); [| rewrite inject_Z_plus; change (inject_Z 1) with 1%Q]; lra.
  - rewrite <- Qlt_alt in E. lra.
  - rewrite <- Qgt_alt in E. rewrite inject_Z_plus. change (inject_Z 1) with 1%Q. lra.
Qed.

Lemma round_half_even_bounds (x : Q) :
  Qfloor x <= JS.round_half_even x <= Qfloor x + 1.
Proof.
  unfold JS.round_half_even. cbv zeta.
  destruct (x - inject_Z (Qfloor x) ?= 1 # 2)%Q; [destruct (Z.even (Qfloor x)) | |]; lia.
Qed.

Lemma round_half_even_comp (x y : Q) :
  (x == y)%Q -> JS.round_half_even x = JS.round_half_even y.
Proof.
  intros H. unfold JS.round_half_even. cbv zeta.
  rewrite (Qfloor_comp x y H).
  assert (Hc : (x - inject_Z (Qfloor y) ?= 1 # 2)%Q = (y - inject_Z (Qfloor y) ?= 1 # 2)%Q).
  { apply Qcompare_comp; [rewrite H; reflexivity | reflexivity]. }
  rewrite Hc. reflexivity.
Qed.

Lemma round_half_even_Z (z : Z) : JS.round_half_even (inject_Z z) = z.
Proof.
  unfold JS.round_half_even. cbv zeta. rewrite Qfloor_Z.
  assert (E : (inject_Z z - inject_Z z ?= 1 # 2)%Q = Lt).
  { rewrite <- Qlt_alt. generalize (inject_Z z). intros a. lra. }
  rewrite E. reflexivity.
Qed.

Lemma round_half_even_mono (x y : Q) :
  (x <= y)%Q -> JS.round_half_even x <= JS.round_half_even y.
Proof.
  intros Hxy.
  pose proof (Qfloor_resp_le x y Hxy) as Hf.
  pose proof (round_half_even_bounds x) as Hx.
  pose proof (round_half_even_bounds y) as Hy.
  destruct (Z.eq_dec (Qfloor x) (Qfloor y)) as [Heq | Hne]; [| lia].
  clear Hx Hy Hf. unfold JS.round_half_even. cbv zeta. rewrite Heq.
  set (f := Qfloor y) in *.
  destruct (Z.even f);
    destruct (x - inject_Z f ?= 1 # 2)%Q eqn:Ex;
    destruct (y - inject_Z f ?= 1 # 2)%Q eqn:Ey;
    try lia; exfalso;
    first [rewrite <- Qeq_alt in Ex | rewrite <- Qlt_alt in Ex | rewrite <- Qgt_alt in Ex];
    first [rewrite <- Qeq_alt in Ey | rewrite <- Qlt_alt in Ey | rewrite <- Qgt_alt in Ey];
    lra.
Qed.

Lemma mantissa_bounds (q : Q) :
  (0 < q)%Q ->
  (JS.pow2 52 <= q / JS.pow2 (JS.binade q - 52))%Q /\ (q / JS.pow2 (JS.binade q - 52) < JS.pow2 53)%Q.
Proof.
  intros Hq. destruct (binade_spec q Hq) as [Hlo Hhi].
  pose proof (pow2_pos (JS.binade q - 52)) as He.
  split.
  - apply Qle_shift_div_l; [exact He |].
    rewrite <- pow2_add. replace (52 + (JS.binade q - 52)) with (JS.binade q) by lia.
    exact Hlo.
  - apply Qlt_shift_div_r; [exact He |].
    rewrite <- pow2_add. replace (53 + (JS.binade q - 52)) with (JS.binade q + 1) by lia.
    exact Hhi.
Qed.

Lemma double_pos_bounds (q : Q) :
  (0 < q)%Q ->
  (JS.pow2 (JS.binade q) <= JS.double_pos q)%Q /\ (JS.double_pos q <= JS.pow2 (JS.binade q + 1))%Q.
Proof.
  intros Hq. destruct (mantissa_bounds q Hq) as [Hlo Hhi].
  unfold JS.double_pos. cbv zeta.
  set (e := JS.binade q - 52) in *. set (m := (q / JS.pow2 e)%Q) in *.
  pose proof (pow2_pos e) as He.
  assert (H52 : 2 ^ 52 <= JS.round_half_even m).
  { rewrite <- (round_half_even_Z (2 ^ 52)).
    apply round_half_even_mono. rewrite <- pow2_nat by lia. exact Hlo. }
  assert (H53 : JS.round_half_even m <= 2 ^ 53).
  { rewrite <- (round_half_even_Z (2 ^ 53)).
    apply round_half_even_mono. rewrite <- pow2_nat by lia.
    apply Qlt_le_weak. exact Hhi. }
  rewrite Zle_Qle in H52, H53. rewrite <- pow2_nat in H52, H53 by lia.
  split.
  - replace (JS.binade q) with (52 + e) by (subst e; lia). rewrite pow2_add.
    apply Qmult_le_compat_r; [exact H52 | apply Qlt_le_weak; exact He].
  - replace (JS.binade q + 1) with (53 + e) by (subst e; lia). rewrite pow2_add.
    apply Qmult_le_compat_r; [exact H53 | apply Qlt_le_weak; exact He].
Qed.

Lemma double_pos_positive (q : Q) : (0 < q)%Q -> (0 < JS.double_pos q)%Q.
Proof.
  intros Hq. destruct (double_pos_bounds q Hq) as [Hlo _].
  eapply Qlt_le_trans; [apply (pow2_pos (JS.binade q)) | exact Hlo].
Qed.

Lemma binade_comp (q q' : Q) : (0 < q)%Q -> (q == q')%Q -> JS.binade q = JS.binade q'.
Proof.
  intros Hq Heq.
  assert (Hq' : (0 < q')%Q) by (rewrite <- Heq; exact Hq).
  destruct (binade_spec q Hq) as [H1 H2]. destruct (binade_spec q' Hq') as [H3 H4].
  assert (Hle : (q <= q')%Q) by (rewrite Heq; apply Qle_refl).
  assert (Hge : (q' <= q)%Q) by (rewrite Heq; apply Qle_refl).
  apply (binade_unique q); [exact H1 | exact H2 | |].
  - eapply Qle_trans; eassumption.
  - eapply Qle_lt_trans; eassumption.
Qed.

Lemma binade_mono (q q' : Q) : (0 < q)%Q -> (q <= q')%Q -> JS.binade q <= JS.binade q'.
Proof.
  intros Hq Hle.
  assert (Hq' : (0 < q')%Q) by (eapply Qlt_le_trans; eassumption).
  destruct (binade_spec q Hq) as [H1 _]. destruct (binade_spec q' Hq') as [_ H4].
  assert (JS.binade q < JS.binade q' + 1); [| lia].
  apply pow2_lt_inv. eapply Qle_lt_trans; [exact H1 |].
  eapply Qle_lt_trans; eassumption.
Qed.

Lemma double_pos_comp (q q' : Q) :
  (0 < q)%Q -> (q == q')%Q -> (JS.double_pos q == JS.double_pos q')%Q.
Proof.
  intros Hq Heq. unfold JS.double_pos. cbv zeta.
  rewrite <- (binade_comp q q' Hq Heq).
  rewrite (round_half_even_comp (q / JS.pow2 (JS.binade q - 52)) (q' / JS.pow2 (JS.binade q - 52))).
  - reflexivity.
  - unfold Qdiv. apply Qmult_comp; [exact Heq | reflexivity].
Qed.

Lemma double_pos_mono (q q' : Q) :
  (0 < q)%Q -> (q <= q')%Q -> (JS.double_pos q <= JS.double_pos q')%Q.
Proof.
  intros Hq Hle.
  assert (Hq' : (0 < q')%Q) by (eapply Qlt_le_trans; eassumption).
  pose proof (binade_mono q q' Hq Hle) as Hb.
  destruct (Z.eq_dec (JS.binade q) (JS.binade q')) as [Heq | Hne].
  - unfold JS.double_pos. cbv zeta. rewrite <- Heq.
    pose proof (pow2_pos (JS.binade q - 52)) as He.
    apply Qmult_le_compat_r; [| apply Qlt_le_weak; exact He].
    rewrite <- Zle_Qle. apply round_half_even_mono.
    apply Qmult_le_compat_r; [exact Hle |].
    apply Qlt_le_weak. apply Qinv_lt_0_compat. exact He.
  - destruct (double_pos_bounds q Hq) as [_ H1].
    destruct (double_pos_bounds q' Hq') as [H2 _].
    eapply Qle_trans; [exact H1 |]. eapply Qle_trans; [| exact H2].
    apply pow2_le. lia.
Qed.

(** A number with at most 53 significant bits is a JS.double. *)
Lemma double_pos_fixed (q : Q) (n k : Z) :
  0 < n < 2 ^ 53 -> (q == inject_Z n * JS.pow2 k)%Q -> (JS.double_pos q == q)%Q.
Proof.
  intros Hn Hq.
  pose proof (pow2_pos k) as Hk.
  assert (Hn0 : (0 < inject_Z n)%Q).
  { change 0%Q with (inject_Z 0). rewrite <- Zlt_Qlt. lia. }
  assert (Hn53 : (inject_Z n < JS.pow2 53)%Q).
  { rewrite pow2_nat by lia. rewrite <- Zlt_Qlt. lia. }
  assert (Hpos : (0 < q)%Q).
  { rewrite Hq. apply Qmult_lt_0_compat; assumption. }
  destruct (binade_spec q Hpos) as [Hlo _].
  unfold JS.double_pos. cbv zeta.
  set (e := JS.binade q - 52) in *.
  assert (Hek : e <= k).
  { assert (JS.binade q < 53 + k); [| subst e; lia].
    apply pow2_lt_inv. eapply Qle_lt_trans; [exact Hlo |].
    rewrite Hq, pow2_add. apply Qmult_lt_compat_r; assumption. }
  pose proof (pow2_pos e) as He.
  assert (Hm : (q / JS.pow2 e == inject_Z (n * 2 ^ (k - e)))%Q).
  { rewrite inject_Z_mult, <- pow2_nat by lia.
    rewrite Hq. replace k with ((k - e) + e) at 1 by lia.
    rewrite pow2_add. field. apply Qnot_eq_sym, Qlt_not_eq. exact He. }
  rewrite (round_half_even_comp _ _ Hm), round_half_even_Z.
  rewrite inject_Z_mult, <- pow2_nat by lia.
  rewrite Hq. replace k with ((k - e) + e) at 2 by lia.
  rewrite pow2_add. ring.
Qed.

(** Rounding moves a number by at most half a unit in its last place. *)
Lemma double_pos_near (q : Q) :
  (0 < q)%Q ->
  (JS.double_pos q - q <= q * JS.pow2 (-53))%Q /\ (q - JS.double_pos q <= q * JS.pow2 (-53))%Q.
Proof.
  intros Hq. destruct (binade_spec q Hq) as [Hlo _].
  unfold JS.double_pos. cbv zeta.
  set (e := JS.binade q - 52) in *.
  pose proof (pow2_pos e) as He.
  destruct (round_half_even_near (q / JS.pow2 e)) as [Hup Hdown].
  set (r := inject_Z (JS.round_half_even (q / JS.pow2 e))) in *.
  assert (Hq' : (q == q / JS.pow2 e * JS.pow2 e)%Q).
  { field. apply Qnot_eq_sym, Qlt_not_eq. exact He. }
  set (m := (q / JS.pow2 e)%Q) in *.
  assert (Hulp : (JS.pow2 e * (1 # 2) <= q * JS.pow2 (-53))%Q).
  { assert (E : (JS.pow2 e * (1 # 2) == JS.pow2 (JS.binade q) * JS.pow2 (-53))%Q).
    { replace (JS.binade q) with (e + 52) by (subst e; lia).
      rewrite pow2_add.
      assert (E1 : (JS.pow2 52 * JS.pow2 (-53) == 1 # 2)%Q) by reflexivity.
      rewrite <- Qmult_assoc, E1. reflexivity. }
    rewrite E. apply Qmult_le_compat_r; [exact Hlo |].
    apply Qlt_le_weak. apply pow2_pos. }
  assert (H1 : (r * JS.pow2 e <= (m + (1 # 2)) * JS.pow2 e)%Q).
  { apply Qmult_le_compat_r; [exact Hup | apply Qlt_le_weak; exact He]. }
  assert (H2 : ((m - (1 # 2)) * JS.pow2 e <= r * JS.pow2 e)%Q).
  { apply Qmult_le_compat_r; [exact Hdown | apply Qlt_le_weak; exact He]. }
  assert (E1 : ((m + (1 # 2)) * JS.pow2 e == m * JS.pow2 e + JS.pow2 e * (1 # 2))%Q) by ring.
  assert (E2 : ((m - (1 # 2)) * JS.pow2 e == m * JS.pow2 e - JS.pow2 e * (1 # 2))%Q) by ring.
  rewrite E1 in H1. rewrite E2 in H2.
  set (U := (q * JS.pow2 (-53))%Q) in *.
  set (RP := (r * JS.pow2 e)%Q) in *. set (MP := (m * JS.pow2 e)%Q) in *.
  set (H := (JS.pow2 e * (1 # 2))%Q) in *.
  clearbody RP MP H U. split; lra.
Qed.

Lemma Qred_sign (q : Q) :
  match Qnum (Qred q) with
  | 0 => (q == 0)%Q
  | Zpos _ => (0 < q)%Q
  | Zneg _ => (q < 0)%Q
  end.
Proof.
  pose proof (Qred_correct q) as H.
  destruct (Qred q) as [n d] eqn:E. cbn [Qnum].
  destruct n as [| p | p].
  - rewrite <- H. reflexivity.
  - rewrite <- H. reflexivity.
  - rewrite <- H. reflexivity.
Qed.

Lemma double_comp (q q' : Q) : (q == q')%Q -> JS.double q = JS.double q'.
Proof. intros H. unfold JS.double. rewrite (Qred_complete q q' H). reflexivity. Qed.

Lemma double_zero (q : Q) : (q == 0)%Q -> JS.double q = 0%Q.
Proof. intros H. rewrite (double_comp q 0 H). reflexivity. Qed.

Lemma double_of_positive (q : Q) : (0 < q)%Q -> (JS.double q == JS.double_pos q)%Q.
Proof.
  intros Hq. unfold JS.double. cbv zeta.
  pose proof (Qred_sign q) as Hs. pose proof (Qred_correct q) as Hr.
  destruct (Qnum (Qred q)) as [| p | p].
  - exfalso. rewrite Hs in Hq. discriminate Hq.
  - rewrite Qred_correct. apply double_pos_comp; [| exact Hr].
    eapply Qlt_le_trans; [exact Hq |]. rewrite Hr. apply Qle_refl.
  - exfalso. apply (Qlt_irrefl q). eapply Qlt_trans; eassumption.
Qed.

Lemma double_of_negative (q : Q) : (q < 0)%Q -> (JS.double q == - JS.double_pos (- q))%Q.
Proof.
  intros Hq. unfold JS.double. cbv zeta.
  pose proof (Qred_sign q) as Hs. pose proof (Qred_correct q) as Hr.
  destruct (Qnum (Qred q)) as [| p | p].
  - exfalso. rewrite Hs in Hq. discriminate Hq.
  - exfalso. apply (Qlt_irrefl q). eapply Qlt_trans; eassumption.
  - rewrite Qred_correct. apply Qopp_comp. apply double_pos_comp.
    + rewrite Hr. lra.
    + rewrite Hr. reflexivity.
Qed.

Lemma double_positive (q : Q) : (0 < q)%Q -> (0 < JS.double q)%Q.
Proof.
  intros Hq. rewrite (double_of_positive q Hq). apply double_pos_positive. exact Hq.
Qed.

Lemma double_negative (q : Q) : (q < 0)%Q -> (JS.double q < 0)%Q.
Proof.
  intros Hq. rewrite (double_of_negative q Hq).
  assert (H : (0 < JS.double_pos (- q))%Q) by (apply double_pos_positive; lra).
  lra.
Qed.

Lemma double_nonpositive (q : Q) : (q <= 0)%Q -> (JS.double q <= 0)%Q.
Proof.
  intros Hq. destruct (Qlt_le_dec q 0) as [Hn | Hz].
  - apply Qlt_le_weak. apply double_negative. exact Hn.
  - rewrite (double_zero q); [apply Qle_refl | apply Qle_antisym; assumption].
Qed.

Lemma double_nonnegative (q : Q) : (0 <= q)%Q -> (0 <= JS.double q)%Q.
Proof.
  intros Hq. destruct (Qlt_le_dec 0 q) as [Hp | Hz].
  - apply Qlt_le_weak. apply double_positive. exact Hp.
  - rewrite (double_zero q); [apply Qle_refl | apply Qle_antisym; assumption].
Qed.

(** Rounding to JS.double keeps the order. *)
Lemma double_mono (q q' : Q) : (q <= q')%Q -> (JS.double q <= JS.double q')%Q.
Proof.
  intros Hle.
  destruct (Qlt_le_dec 0 q) as [Hp | Hnp].
  - assert (Hp' : (0 < q')%Q) by (eapply Qlt_le_trans; eassumption).
    rewrite (double_of_positive q Hp), (double_of_positive q' Hp').
    apply double_pos_mono; assumption.
  - destruct (Qlt_le_dec q' 0) as [Hn' | Hnn'].
    + assert (Hn : (q < 0)%Q) by (apply (Qle_lt_trans _ q'); assumption).
      rewrite (double_of_negative q Hn), (double_of_negative q' Hn').
      apply Qopp_le_compat. apply double_pos_mono; lra.
    + eapply Qle_trans; [apply double_nonpositive; exact Hnp |].
      apply double_nonnegative. exact Hnn'.
Qed.

(** A number with at most 53 significant bits is its own JS.double. *)
Lemma double_fixed (n k : Z) :
  - 2 ^ 53 < n < 2 ^ 53 -> (JS.double (inject_Z n * JS.pow2 k) == inject_Z n * JS.pow2 k)%Q.
Proof.
  intros Hn. pose proof (pow2_pos k) as Hk.
  destruct (Z.lt_trichotomy n 0) as [Hneg | [-> | Hpos]].
  - assert (Hq : (inject_Z n * JS.pow2 k < 0)%Q).
    { assert (H : (0 < - inject_Z n)%Q).
      { rewrite <- inject_Z_opp. change 0%Q with (inject_Z 0). rewrite <- Zlt_Qlt. lia. }
      assert (H' : (0 < - inject_Z n * JS.pow2 k)%Q) by (apply Qmult_lt_0_compat; assumption).
      assert (E : (- inject_Z n * JS.pow2 k == - (inject_Z n * JS.pow2 k))%Q) by ring.
      rewrite E in H'. lra. }
    rewrite (double_of_negative _ Hq).
    rewrite (double_pos_fixed (- (inject_Z n * JS.pow2 k)) (- n) k).
    + ring.
    + lia.
    + rewrite inject_Z_opp. ring.
  - rewrite double_zero; [ring | ring].
  - assert (Hq : (0 < inject_Z n * JS.pow2 k)%Q).
    { apply Qmult_lt_0_compat; [| exact Hk].
      change 0%Q with (inject_Z 0). rewrite <- Zlt_Qlt. lia. }
    rewrite (double_of_positive _ Hq).
    apply (double_pos_fixed _ n k); [lia | reflexivity].
Qed.

Lemma double_integer (n : Z) :
  - 2 ^ 53 < n < 2 ^ 53 -> (JS.double (inject_Z n) == inject_Z n)%Q.
Proof.
  intros Hn.
  assert (E : (inject_Z n == inject_Z n * JS.pow2 0)%Q) by (change (JS.pow2 0) with 1%Q; ring).
  rewrite (double_comp _ _ E).
  apply (Qeq_trans _ (inject_Z n * JS.pow2 0)); [apply double_fixed; exact Hn |].
  apply Qeq_sym. exact E.
Qed.

(** The relative error of one rounding is at most 2^-53. *)
Lemma double_near (q : Q) :
  (0 <= q)%Q ->
  (JS.double q - q <= q * JS.pow2 (-53))%Q /\ (q - JS.double q <= q * JS.pow2 (-53))%Q.
Proof.
  intros Hq. destruct (Qlt_le_dec 0 q) as [Hp | Hz].
  - rewrite (double_of_positive q Hp). apply double_pos_near. exact Hp.
  - assert (E : (q == 0)%Q) by (apply Qle_antisym; assumption).
    rewrite (double_zero q E). rewrite E. split; discriminate.
Qed.

(** On the numbers of the examples below, [JS.double] of the exact
    quotient is the quotient that the machine computes in binary64: the
    literal [0.1], a third, the hours run after 2016000 ms and after
    384000 ms, and the rates of 7 and of 100 requests over them. *)
Lemma double_agrees_with_machine :
  JS.float_value (JS.float_div (JS.float_of_Z 1) (JS.float_of_Z 10))
    = Some (JS.double (1 # 10)) /\
  JS.float_value (JS.float_div (JS.float_of_Z 1) (JS.float_of_Z 3))
    = Some (JS.double (1 # 3)) /\
  JS.float_value (JS.float_div (JS.float_of_Z 2016000) (JS.float_of_Z 3600000))
    = Some (JS.double (2016000 # 3600000)) /\
  JS.float_value (JS.float_div (JS.float_of_Z 384000) (JS.float_of_Z 3600000))
    = Some (JS.double (384000 # 3600000)) /\
  JS.float_value
    (JS.float_div (JS.float_of_Z 7)
       (JS.float_div (JS.float_of_Z 2016000) (JS.float_of_Z 3600000)))
    = Some (JS.double (7 / JS.double (2016000 # 3600000))) /\
  JS.float_value
    (JS.float_div (JS.float_of_Z 100)
       (JS.float_div (JS.float_of_Z 384000) (JS.float_of_Z 3600000)))
    = Some (JS.double (100 / JS.double (384000 # 3600000))).
Proof. repeat split; vm_compute; reflexivity. Qed.

(** ** One division, rounded at once

    Where the quotient of two integers goes straight into [Math.floor]
    or [Math.round], rounding it to a double first changes nothing, as
    long as the dividend is an integer that a double holds with room to
    spare; this is why the helpers that divide once are embedded with
    the exact quotient. *)

Lemma quotient_double_bounds (a b : Z) :
  0 <= a -> 0 < b ->
  (JS.double (inject_Z a / inject_Z b) - inject_Z a / inject_Z b
     <= inject_Z a * JS.pow2 (-53) / inject_Z b)%Q.
Proof.
  intros Ha Hb.
  assert (Hbq : (0 < inject_Z b)%Q).
  { change 0%Q with (inject_Z 0). rewrite <- Zlt_Qlt. exact Hb. }
  assert (Haq : (0 <= inject_Z a)%Q).
  { change 0%Q with (inject_Z 0). rewrite <- Zle_Qle. exact Ha. }
  assert (Hx : (0 <= inject_Z a / inject_Z b)%Q).
  { apply Qle_shift_div_l; [exact Hbq | lra]. }
  destruct (double_near _ Hx) as [Hup _].
  eapply Qle_trans; [exact Hup |].
  assert (E : (inject_Z a / inject_Z b * JS.pow2 (-53)
               == inject_Z a * JS.pow2 (-53) / inject_Z b)%Q) by (field; lra).
  rewrite E. apply Qle_refl.
Qed.

Lemma floor_of_double_quotient (a b : Z) :
  0 <= a < 2 ^ 53 -> 0 < b ->
  JS.Math_floor (JS.double (inject_Z a / inject_Z b)) = a / b.
Proof.
  intros Ha Hb. unfold JS.Math_floor.
  assert (Hbq : (0 < inject_Z b)%Q).
  { change 0%Q with (inject_Z 0). rewrite <- Zlt_Qlt. exact Hb. }
  pose proof (Z.mul_div_le a b Hb) as Hlo.
  pose proof (Z.mul_succ_div_gt a b Hb) as Hhi.
  assert (Hn : 0 <= a / b) by (apply Z.div_pos; lia).
  assert (Hna : a / b <= a) by (apply Z.div_le_upper_bound; nia).
  set (n := a / b) in *.
  set (x := (inject_Z a / inject_Z b)%Q).
  assert (Hxb : (x * inject_Z b == inject_Z a)%Q) by (subst x; field; lra).
  assert (Hge : (inject_Z n <= JS.double x)%Q).
  { rewrite <- (double_integer n) by lia. apply double_mono.
    subst x. apply Qle_shift_div_l; [exact Hbq |].
    rewrite <- inject_Z_mult, <- Zle_Qle. lia. }
  assert (Hlt : (JS.double x < inject_Z (n + 1))%Q).
  { pose proof (quotient_double_bounds a b ltac:(lia) Hb) as Hnear. fold x in Hnear.
    assert (H1 : (inject_Z a * JS.pow2 (-53) / inject_Z b < 1 / inject_Z b)%Q).
    { apply Qlt_shift_div_r; [exact Hbq |].
      assert (E : (1 / inject_Z b * inject_Z b == 1)%Q) by (field; lra).
      rewrite E.
      assert (Hp : (JS.pow2 (-53) == 1 # 9007199254740992)%Q) by reflexivity.
      rewrite Hp.
      assert (Ha53 : (inject_Z a < inject_Z (2 ^ 53))%Q) by (rewrite <- Zlt_Qlt; lia).
      change (inject_Z (2 ^ 53)) with (9007199254740992 # 1)%Q in Ha53. lra. }
    assert (H2 : (x + 1 / inject_Z b <= inject_Z (n + 1))%Q).
    { assert (E : (x + 1 / inject_Z b == inject_Z (a + 1) / inject_Z b)%Q).
      { subst x. rewrite inject_Z_plus. change (inject_Z 1) with 1%Q. field. lra. }
      rewrite E. apply Qle_shift_div_r; [exact Hbq |].
      rewrite <- inject_Z_mult, <- Zle_Qle. lia. }
    lra. }
  pose proof (Qfloor_le (JS.double x)) as Hf1.
  pose proof (Qlt_floor (JS.double x)) as Hf2.
  set (f := Qfloor (JS.double x)) in *. clearbody f.
  assert (H3 : (inject_Z f < inject_Z (n + 1))%Q) by lra.
  assert (H4 : (inject_Z n < inject_Z (f + 1))%Q) by lra.
  rewrite <- Zlt_Qlt in H3, H4. lia.
Qed.

Lemma round_of_double_quotient (a b : Z) :
  0 <= a < 2 ^ 52 -> 0 < b ->
  JS.Math_round (JS.double (inject_Z a / inject_Z b))
  = JS.Math_round (inject_Z a / inject_Z b).
Proof.
  intros Ha Hb. rewrite (round_quotient a b Hb).
  assert (Hbq : (0 < inject_Z b)%Q).
  { change 0%Q with (inject_Z 0). rewrite <- Zlt_Qlt. exact Hb. }
  pose proof (Z.mul_div_le (2 * a + b) (2 * b) ltac:(lia)) as Hlo.
  pose proof (Z.mul_succ_div_gt (2 * a + b) (2 * b) ltac:(lia)) as Hhi.
  assert (Hn : 0 <= (2 * a + b) / (2 * b)) by (apply Z.div_pos; lia).
  assert (Hna : (2 * a + b) / (2 * b) <= a).
  { assert ((2 * a + b) / (2 * b) < a + 1); [| lia].
    apply Z.div_lt_upper_bound; [lia |]. nia. }
  set (n := (2 * a + b) / (2 * b)) in *.
  set (x := (inject_Z a / inject_Z b)%Q).
  assert (Hge : (inject_Z (2 * n - 1) * JS.pow2 (-1) <= JS.double x)%Q).
  { rewrite <- (double_fixed (2 * n - 1) (-1)) by lia. apply double_mono.
    subst x. apply Qle_shift_div_l; [exact Hbq |].
    change (JS.pow2 (-1)) with (1 # 2)%Q.
    assert (H : (inject_Z ((2 * n - 1) * b) <= inject_Z (2 * a))%Q)
      by (rewrite <- Zle_Qle; lia).
    rewrite !inject_Z_mult in H. change (inject_Z 2) with 2%Q in H.
    set (nb := inject_Z (2 * n - 1)) in *. lra. }
  assert (Hlt : (JS.double x < inject_Z (2 * n + 1) * JS.pow2 (-1))%Q).
  { pose proof (quotient_double_bounds a b ltac:(lia) Hb) as Hnear. fold x in Hnear.
    assert (H1 : (inject_Z a * JS.pow2 (-53) / inject_Z b < (1 # 2) / inject_Z b)%Q).
    { apply Qlt_shift_div_r; [exact Hbq |].
      assert (E : ((1 # 2) / inject_Z b * inject_Z b == 1 # 2)%Q) by (field; lra).
      rewrite E.
      assert (Hp : (JS.pow2 (-53) == 1 # 9007199254740992)%Q) by reflexivity.
      rewrite Hp.
      assert (Ha52 : (inject_Z a < inject_Z (2 ^ 52))%Q) by (rewrite <- Zlt_Qlt; lia).
      change (inject_Z (2 ^ 52)) with (4503599627370496 # 1)%Q in Ha52. lra. }
    assert (H2 : (x + (1 # 2) / inject_Z b <= inject_Z (2 * n + 1) * JS.pow2 (-1))%Q).
    { assert (E : (x + (1 # 2) / inject_Z b
                   == inject_Z (2 * a + 1) * (1 # 2) / inject_Z b)%Q).
      { subst x. rewrite inject_Z_plus, inject_Z_mult.
        change (inject_Z 1) with 1%Q. change (inject_Z 2) with 2%Q. field. lra. }
      rewrite E. apply Qle_shift_div_r; [exact Hbq |].
      change (JS.pow2 (-1)) with (1 # 2)%Q.
      assert (H : (inject_Z (2 * a + 1) <= inject_Z ((2 * n + 1) * b))%Q)
        by (rewrite <- Zle_Qle; lia).
      rewrite inject_Z_mult in H.
      set (p := inject_Z (2 * a + 1)) in *. set (q := inject_Z (2 * n + 1)) in *. lra. }
    lra. }
  change (JS.pow2 (-1)) with (1 # 2)%Q in Hge, Hlt.
  unfold Z.sub in Hge. rewrite inject_Z_plus, inject_Z_mult, inject_Z_opp in Hge.
  rewrite inject_Z_plus, inject_Z_mult in Hlt.
  change (inject_Z 2) with 2%Q in *. change (inject_Z 1) with 1%Q in *.
  unfold JS.Math_round.
  pose proof (Qfloor_le (JS.double x + (1 # 2))) as Hf1.
  pose proof (Qlt_floor (JS.double x + (1 # 2))) as Hf2.
  set (f := Qfloor (JS.double x + (1 # 2))) in *. clearbody f.
  rewrite inject_Z_plus in Hf2. change (inject_Z 1) with 1%Q in Hf2.
  assert (H3 : (inject_Z f < inject_Z n + inject_Z 1)%Q).
  { change (inject_Z 1) with 1%Q. lra. }
  assert (H4 : (inject_Z n < inject_Z f + inject_Z 1)%Q).
  { change (inject_Z 1) with 1%Q. lra. }
  rewrite <- inject_Z_plus, <- Zlt_Qlt in H3, H4. lia.
Qed.

(** ** Running monadic code *)

Lemma bind_run {A B : Type} (c : M A) (k : A -> M B) (w : World) :
  (c ≫= k) w = match c w with Some (a, w') => k a w' | None => None end.
Proof. reflexivity. Qed.

Lemma ret_run {A : Type} (a : A) (w : World) : (mret a : M A) w = Some (a, w).
Proof. reflexivity. Qed.

Lemma div_nonzero (a b : Q) : ~ (b == 0)%Q -> JS.div a b = Some (a / b)%Q.
Proof.
  intros Hb. unfold JS.div.
  destruct (Qeq_bool b 0) eqn:E; [| reflexivity].
  apply Qeq_bool_iff in E. contradiction.
Qed.

(** ** Average response time *)

Lemma getAverageResponseTime_run (w : World) :
  getAverageResponseTime w =
  Some (if 0 <? responseTimeCount (serverMetrics w)
        then JS.Math_round (inject_Z (totalResponseTime (serverMetrics w)) /
                            inject_Z (responseTimeCount (serverMetrics w)))
        else 0, w).
Proof.
  unfold getAverageResponseTime. rewrite bind_run. simpl.
  destruct (0 <? responseTimeCount (serverMetrics w)) eqn:E.
  - apply Z.ltb_lt in E.
    rewrite bind_run. unfold lift_option.
    rewrite div_nonzero by (apply inject_Z_nonzero; lia).
    reflexivity.
  - reflexivity.
Qed.

(** C7: in every metrics state the average response time is computed
    without a division by zero (the computation always yields a number and
    leaves the world as it was); it is [round(totalResponseTime /
    responseTimeCount)], the integer nearest to the quotient, when
    [responseTimeCount > 0], and [0] when [responseTimeCount = 0]. *)
Theorem average_response_time_safe (w : World) :
  let m := serverMetrics w in
  exists avg : Z,
    getAverageResponseTime w = Some (avg, w) /\
    (0 < responseTimeCount m ->
       avg = JS.Math_round (inject_Z (totalResponseTime m) /
                            inject_Z (responseTimeCount m)) /\
       2 * totalResponseTime m - responseTimeCount m
         < 2 * responseTimeCount m * avg
         <= 2 * totalResponseTime m + responseTimeCount m) /\
    (responseTimeCount m = 0 -> avg = 0).
Proof.
  intros m. rewrite getAverageResponseTime_run. fold m.
  eexists. split; [reflexivity |]. split.
  - intros Hpos. apply Z.ltb_lt in Hpos as Hb. rewrite Hb.
    split; [reflexivity |]. apply round_quotient_nearest. exact Hpos.
  - intros Hz. rewrite Hz. reflexivity.
Qed.

Lemma average_response_time_safe_witness :
  exists avg : Z,
    getAverageResponseTime busy_world = Some (avg, busy_world) /\
    2 * 130 - 9 < 2 * 9 * avg <= 2 * 130 + 9.
Proof.
  destruct (average_response_time_safe busy_world) as (avg & Hrun & Hpos & _).
  exists avg. split; [exact Hrun |].
  apply Hpos. reflexivity.
Defined.

(** ** Uptime text *)

Lemma before_h_uint (d : Decimal.uint) (rest : string) :
  before_h (NilEmpty.string_of_uint d ++ String "h" rest)
  = Some (NilEmpty.string_of_uint d).
Proof.
  induction d as [| d IH | d IH | d IH | d IH | d IH | d IH | d IH | d IH | d IH | d IH];
    simpl; [reflexivity | rewrite IH; reflexivity ..].
Qed.

Lemma before_h_no_hours (d : Decimal.uint) :
  before_h (NilEmpty.string_of_uint d ++ "m") = None.
Proof.
  induction d as [| d IH | d IH | d IH | d IH | d IH | d IH | d IH | d IH | d IH | d IH];
    simpl; [reflexivity | rewrite IH; reflexivity ..].
Qed.

Lemma show_nonneg (n : Z) :
  0 <= n ->
  exists d, d <> Decimal.Nil /\ JS.show n = NilEmpty.string_of_uint d /\
            NilZero.int_of_string (JS.show n) = Some (Z.to_int n).
Proof.
  intros Hn. unfold JS.show.
  destruct n as [| p | p]; [| | lia].
  - exists (Decimal.D0 Decimal.Nil). repeat split; discriminate.
  - assert (Hp : Pos.to_uint p <> Decimal.Nil).
    { intros E. pose proof (DecimalPos.Unsigned.to_uint_nonnil p) as H.
      contradiction. }
    exists (Pos.to_uint p). split; [exact Hp |]. split.
    + simpl. destruct (Pos.to_uint p); [contradiction | reflexivity ..].
    + apply NilZero.isi; simpl; congruence.
Qed.

Lemma hour_component_hours (h : Z) (rest : string) :
  0 <= h -> hour_component (JS.show h ++ String "h" rest) = h.
Proof.
  intros Hh. destruct (show_nonneg h Hh) as (d & _ & Hd & Hparse).
  unfold hour_component.
  rewrite Hd at 1. rewrite before_h_uint. rewrite <- Hd, Hparse.
  apply DecimalZ.of_to.
Qed.

Lemma hour_component_minutes (m : Z) :
  0 <= m -> hour_component (JS.show m ++ "m") = 0.
Proof.
  intros Hm. destruct (show_nonneg m Hm) as (d & _ & Hd & _).
  unfold hour_component. rewrite Hd, before_h_no_hours. reflexivity.
Qed.

(** The hours and minutes of [uptimeString] as integer quotients. *)
Lemma uptimeString_quotients (uptime : Z) :
  uptimeString uptime =
  let hours := uptime / ms_per_hour in
  let minutes := Z.rem uptime ms_per_hour / ms_per_minute in
  if 0 <? hours
  then (JS.show hours ++ "h " ++ JS.show minutes ++ "m")%string
  else (JS.show minutes ++ "m")%string.
Proof.
  unfold uptimeString, JS.rem. rewrite !floor_quotient. reflexivity.
Qed.

Lemma hour_component_uptime (elapsed : Z) :
  0 <= elapsed -> hour_component (uptimeString elapsed) = elapsed / 3600000.
Proof.
  intros He. rewrite uptimeString_quotients. cbv zeta.
  change ms_per_hour with 3600000.
  assert (Hh : 0 <= elapsed / 3600000) by (apply Z.div_pos; lia).
  destruct (0 <? elapsed / 3600000) eqn:E.
  - apply hour_component_hours. exact Hh.
  - apply Z.ltb_ge in E.
    rewrite hour_component_minutes; [lia |].
    rewrite Z.rem_mod_nonneg by lia.
    apply Z.div_pos; [| reflexivity].
    apply Z.mod_pos_bound. lia.
Qed.

(** C9: for a non-negative elapsed time in milliseconds the uptime text
    is ["{hours}h {minutes}m"] when the hour count is positive and
    ["{minutes}m"] otherwise, where hours and minutes are the floor
    quotients [elapsed / 3600000] and [(elapsed mod 3600000) / 60000]; 90
    minutes give ["1h 30m"], 45 minutes give ["45m"]; the hour count that
    the text shows is [elapsed / 3600000] and does not decrease as
    elapsed time grows. *)
Theorem uptime_string_floor_and_monotone (elapsed : Z) :
  0 <= elapsed ->
  let hours := elapsed / 3600000 in
  let minutes := (elapsed mod 3600000) / 60000 in
  uptimeString elapsed =
    (if 0 <? hours
     then (JS.show hours ++ "h " ++ JS.show minutes ++ "m")%string
     else (JS.show minutes ++ "m")%string) /\
  hour_component (uptimeString elapsed) = hours /\
  (forall later, elapsed <= later ->
     hour_component (uptimeString elapsed) <= hour_component (uptimeString later)) /\
  uptimeString (90 * 60000) = "1h 30m"%string /\
  uptimeString (45 * 60000) = "45m"%string.
Proof.
  intros He hours minutes. repeat split.
  - rewrite uptimeString_quotients. cbv zeta.
    rewrite Z.rem_mod_nonneg by (try reflexivity; lia). reflexivity.
  - apply hour_component_uptime. exact He.
  - intros later Hl.
    rewrite !hour_component_uptime by lia.
    apply Z.div_le_mono; lia.
Qed.

Lemma uptime_string_floor_and_monotone_witness :
  uptimeString 5400000 = "1h 30m"%string /\
  hour_component (uptimeString 5400000) = 1 /\
  hour_component (uptimeString 5400000) <= hour_component (uptimeString 7200000).
Proof.
  destruct (uptime_string_floor_and_monotone 5400000 ltac:(lia))
    as (Htext & Hhours & Hmono & _).
  split; [exact Htext |]. split; [exact Hhours |].
  apply Hmono. lia.
Defined.

(** [getUptime] is [uptimeString] of the time since the start. *)
Lemma getUptime_run (w : World) :
  exists w',
    getUptime w = Some (uptimeString (clock w (clock_reads w) - startTime (serverMetrics w)), w')
    /\ serverMetrics w' = serverMetrics w.
Proof.
  eexists. split; reflexivity.
Qed.

(** ** Health sampler and GET /health *)

Lemma healthy_sample_of (c m d : Q) (ts : Z) :
  healthy (sample_of c m d ts) = true <-> (c < 80 /\ m < 85 /\ d < 90)%Q.
Proof.
  unfold sample_of. cbn [healthy].
  rewrite !andb_true_iff, !lt_spec. tauto.
Qed.

Lemma health_response_healthy (h : HealthSample) :
  healthy h = true ->
  res_status (health_response h) = 200 /\
  hb_status (res_body (health_response h)) = "healthy"%string.
Proof.
  intros H. unfold health_response. cbn. rewrite H. split; reflexivity.
Qed.

Lemma health_response_unhealthy (h : HealthSample) :
  healthy h = false ->
  res_status (health_response h) = 503 /\
  hb_status (res_body (health_response h)) = "unhealthy"%string.
Proof.
  intros H. unfold health_response. cbn. rewrite H. split; reflexivity.
Qed.

Lemma get_health_run (w : World) :
  get_health w =
  match getSystemHealth w with
  | Some (h, w') => Some (health_response h, w')
  | None => None
  end.
Proof. reflexivity. Qed.

Lemma getSystemHealth_run (w : World) :
  getSystemHealth w =
  Some (sample_of
          (inject_Z (JS.Math_floor (random w (random_draws w) * 30) + 10))
          (inject_Z (JS.Math_floor (random w (S (random_draws w)) * 40) + 30))
          (inject_Z (JS.Math_floor (random w (S (S (random_draws w))) * 20) + 20))
          (clock w (clock_reads w)),
        mkWorld (serverMetrics w) (clock w) (S (clock_reads w))
                (random w) (S (S (S (random_draws w)))) (docker_ps w)).
Proof. reflexivity. Qed.

(** C4: a sample built from numbers [cpu], [memory], [disk] is marked
    healthy exactly when [cpu < 80], [memory < 85] and [disk < 90]; the
    response of GET /health to a sample has status 200 and body status
    ["healthy"] exactly when the sample's flag is true, and status 503 and
    body status ["unhealthy"] otherwise; in every world the sampler
    returns a sample with numeric cpu, memory and disk whose flag is set
    by these thresholds, and the handler answers with the response to
    that very sample; the sample 10, 10, 10 gives 200 and the sample 90,
    10, 10 gives 503, also when the handler itself is run with a random
    source rigged to draw them. *)
Theorem health_thresholds_and_status :
  (forall (c m d : Q) (ts : Z),
     healthy (sample_of c m d ts) = true <-> (c < 80 /\ m < 85 /\ d < 90)%Q) /\
  (forall h : HealthSample,
     (healthy h = true <->
        res_status (health_response h) = 200 /\
        hb_status (res_body (health_response h)) = "healthy"%string) /\
     (healthy h = false <->
        res_status (health_response h) = 503 /\
        hb_status (res_body (health_response h)) = "unhealthy"%string)) /\
  (forall w : World,
     exists (h : HealthSample) (w' : World) (c m d : Q),
       getSystemHealth w = Some (h, w') /\
       cpu h = Some c /\ memory h = Some m /\ disk h = Some d /\
       (healthy h = true <-> (c < 80 /\ m < 85 /\ d < 90)%Q) /\
       get_health w = Some (health_response h, w') /\
       hb_details (res_body (health_response h)) = h) /\
  res_status (health_response (sample_of 10 10 10 0)) = 200 /\
  res_status (health_response (sample_of 90 10 10 0)) = 503 /\
  (exists w' : World,
     get_health (rigged_world 10 10 10) =
       Some (health_response (sample_of 10 10 10 0), w')) /\
  (exists w' : World,
     get_health (rigged_world 90 10 10) =
       Some (health_response (sample_of 90 10 10 0), w')).
Proof.
  split; [exact healthy_sample_of |].
  split; [| split; [| split; [reflexivity | split; [reflexivity |]]]].
  - intros h. split; split.
    + apply health_response_healthy.
    + intros [Hs _]. destruct (healthy h) eqn:E; [reflexivity |].
      destruct (health_response_unhealthy h E) as [Hs' _]. congruence.
    + apply health_response_unhealthy.
    + intros [Hs _]. destruct (healthy h) eqn:E; [| reflexivity].
      destruct (health_response_healthy h E) as [Hs' _]. congruence.
  - intros w. rewrite get_health_run, getSystemHealth_run.
    eexists _, _, _, _, _. split; [reflexivity |].
    do 3 (split; [reflexivity |]).
    split; [apply healthy_sample_of |]. split; reflexivity.
  - split; eexists; vm_compute; reflexivity.
Qed.

Lemma health_thresholds_and_status_witness :
  healthy (sample_of 10 10 10 0) = true /\
  hb_status (res_body (health_response (sample_of 90 10 10 0))) = "unhealthy"%string.
Proof.
  destruct health_thresholds_and_status as (Hflag & Hresp & _).
  split.
  - apply Hflag. repeat split; reflexivity.
  - apply (Hresp (sample_of 90 10 10 0)). reflexivity.
Defined.

(** [Math.floor(Math.random() * k)] lies in [0, k - 1]. *)
Lemma floor_scaled_draw (r : Q) (k : Z) :
  0 < k -> (0 <= r)%Q -> (r < 1)%Q ->
  0 <= JS.Math_floor (r * inject_Z k) <= k - 1.
Proof.
  intros Hk H0 H1. unfold JS.Math_floor.
  assert (Hkq : (inject_Z 0 < inject_Z k)%Q) by (rewrite <- Zlt_Qlt; exact Hk).
  change (inject_Z 0) with 0%Q in Hkq.
  split.
  - rewrite <- (Qfloor_Z 0). apply Qfloor_resp_le.
    apply Qmult_le_0_compat; [exact H0 | apply Qlt_le_weak; exact Hkq].
  - assert (Hlt : (inject_Z (Qfloor (r * inject_Z k)) < inject_Z k)%Q).
    { eapply Qle_lt_trans; [apply Qfloor_le |].
      rewrite <- (Qmult_1_l (inject_Z k)) at 2.
      apply Qmult_lt_compat_r; assumption. }
    rewrite <- Zlt_Qlt in Hlt. lia.
Qed.

(** C10: whatever the random draws in [0, 1), the synthesized sample has
    cpu in [10, 39], memory in [30, 69] and disk in [20, 39], is healthy,
    and GET /health answers 200 with body status ["healthy"], never 503. *)
Theorem synthesized_sample_always_healthy (w : World) :
  random_in_unit w ->
  exists (h : HealthSample) (w' : World) (c m d : Z),
    getSystemHealth w = Some (h, w') /\
    cpu h = Some (inject_Z c) /\ memory h = Some (inject_Z m) /\
    disk h = Some (inject_Z d) /\
    10 <= c <= 39 /\ 30 <= m <= 69 /\ 20 <= d <= 39 /\
    healthy h = true /\
    get_health w = Some (health_response h, w') /\
    res_status (health_response h) = 200 /\
    res_status (health_response h) <> 503 /\
    hb_status (res_body (health_response h)) = "healthy"%string.
Proof.
  intros Hr.
  destruct (Hr (random_draws w)) as [Ha0 Ha1].
  destruct (Hr (S (random_draws w))) as [Hb0 Hb1].
  destruct (Hr (S (S (random_draws w)))) as [Hc0 Hc1].
  pose proof (floor_scaled_draw _ 30 ltac:(lia) Ha0 Ha1) as Hcpu.
  pose proof (floor_scaled_draw _ 40 ltac:(lia) Hb0 Hb1) as Hmem.
  pose proof (floor_scaled_draw _ 20 ltac:(lia) Hc0 Hc1) as Hdisk.
  change (inject_Z 30) with 30%Q in Hcpu.
  change (inject_Z 40) with 40%Q in Hmem.
  change (inject_Z 20) with 20%Q in Hdisk.
  rewrite get_health_run, getSystemHealth_run.
  set (c := JS.Math_floor (random w (random_draws w) * 30) + 10) in *.
  set (m := JS.Math_floor (random w (S (random_draws w)) * 40) + 30) in *.
  set (d := JS.Math_floor (random w (S (S (random_draws w))) * 20) + 20) in *.
  assert (Hh : healthy (sample_of (inject_Z c) (inject_Z m) (inject_Z d)
                                  (clock w (clock_reads w))) = true).
  { apply healthy_sample_of.
    change 80%Q with (inject_Z 80). change 85%Q with (inject_Z 85).
    change 90%Q with (inject_Z 90).
    rewrite <- !Zlt_Qlt. subst c m d. lia. }
  destruct (health_response_healthy _ Hh) as [Hs Hb].
  eexists _, _, c, m, d.
  split; [reflexivity |].
  do 3 (split; [reflexivity |]).
  do 3 (split; [subst c m d; lia |]).
  split; [exact Hh |]. split; [reflexivity |].
  split; [exact Hs |]. split; [rewrite Hs; discriminate | exact Hb].
Qed.

Lemma synthesized_sample_always_healthy_witness :
  exists (h : HealthSample) (w' : World),
    get_health quiet_world = Some (health_response h, w') /\
    res_status (health_response h) = 200.
Proof.
  assert (Hr : random_in_unit quiet_world).
  { intros n. split; [discriminate | reflexivity]. }
  destruct (synthesized_sample_always_healthy quiet_world Hr)
    as (h & w' & c & m & d & _ & _ & _ & _ & _ & _ & _ & _ & Hrun & Hs & _).
  exists h, w'. split; [exact Hrun | exact Hs].
Defined.

(** ** Requests per hour *)

Lemma hours_as_fraction (uptimeMs : Z) :
  (inject_Z uptimeMs / inject_Z ms_per_hour == elapsedHours uptimeMs)%Q.
Proof.
  unfold elapsedHours. rewrite (Qmake_Qdiv uptimeMs 3600000). reflexivity.
Qed.

Lemma hoursRunning_double (uptimeMs : Z) :
  JS.double (inject_Z uptimeMs / inject_Z ms_per_hour) = elapsedHours_double uptimeMs.
Proof. apply double_comp, hours_as_fraction. Qed.

(** The double that the literal [0.1] denotes. *)
Lemma tenth_value : tenth = (3602879701896397 # 36028797018963968)%Q.
Proof. vm_compute. reflexivity. Qed.

Lemma tenth_floor : (1 # 10 <= tenth)%Q.
Proof. rewrite tenth_value. discriminate. Qed.

Lemma metrics_divisor_floor (h : Q) : (1 # 10 <= JS.Math_max h tenth)%Q.
Proof.
  eapply Qle_trans; [exact tenth_floor |]. apply max_spec.
Qed.

Lemma metrics_requestsPerHour_total (uptimeMs count : Z) :
  metrics_requestsPerHour uptimeMs count =
  Some (JS.Math_round
          (JS.double
             (inject_Z count /
              JS.Math_max (JS.double (inject_Z uptimeMs / inject_Z ms_per_hour)) tenth))).
Proof.
  unfold metrics_requestsPerHour. cbv zeta.
  rewrite div_nonzero; [reflexivity |].
  intros H.
  pose proof (metrics_divisor_floor
                (JS.double (inject_Z uptimeMs / inject_Z ms_per_hour))) as Hp.
  rewrite H in Hp. apply Hp. reflexivity.
Qed.

Lemma hoursRunning_sign (uptimeMs : Z) :
  JS.lt 0 (JS.double (inject_Z uptimeMs / inject_Z ms_per_hour)) = (0 <? uptimeMs).
Proof.
  destruct (0 <? uptimeMs) eqn:E.
  - apply Z.ltb_lt in E. apply lt_spec. apply double_positive.
    rewrite hours_as_fraction. unfold elapsedHours, Qlt. simpl. lia.
  - apply Z.ltb_ge in E.
    destruct (JS.lt 0 (JS.double (inject_Z uptimeMs / inject_Z ms_per_hour))) eqn:L;
      [| reflexivity].
    apply lt_spec in L. exfalso. apply (Qlt_not_le _ _ L).
    apply double_nonpositive.
    rewrite hours_as_fraction. unfold elapsedHours, Qle. simpl. lia.
Qed.

Lemma status_requestsPerHour_total (uptimeMs count : Z) :
  status_requestsPerHour uptimeMs count =
  Some (if 0 <? uptimeMs
        then JS.Math_round
               (JS.double
                  (inject_Z count /
                   JS.double (inject_Z uptimeMs / inject_Z ms_per_hour)))
        else 0).
Proof.
  unfold status_requestsPerHour. cbv zeta.
  rewrite hoursRunning_sign.
  destruct (0 <? uptimeMs) eqn:E; [| reflexivity].
  rewrite div_nonzero; [reflexivity |].
  intros H. rewrite <- hoursRunning_sign in E. apply lt_spec in E.
  rewrite H in E. discriminate E.
Qed.

Lemma metrics_matches_spec (uptimeMs count : Z) :
  metrics_requestsPerHour uptimeMs count =
  Some (spec_requestsPerHour_double count (elapsedHours_double uptimeMs)).
Proof.
  rewrite metrics_requestsPerHour_total, hoursRunning_double. f_equal.
  unfold spec_requestsPerHour_double, JS.Math_round. cbv zeta. do 2 f_equal.
  apply double_comp. unfold Qdiv. apply Qmult_comp; [reflexivity |].
  apply Qinv_comp. unfold JS.Math_max.
  destruct (Qle_bool (elapsedHours_double uptimeMs) tenth) eqn:E;
    destruct (Qlt_le_dec (elapsedHours_double uptimeMs) tenth) as [L | L].
  - reflexivity.
  - apply Qle_bool_iff in E. apply Qle_antisym; assumption.
  - exfalso. apply Qlt_le_weak in L. apply Qle_bool_iff in L. congruence.
  - reflexivity.
Qed.

(** From six minutes on the hours that the handlers compute are at least
    the double [0.1]. *)
Lemma hoursRunning_late (uptimeMs : Z) :
  360000 <= uptimeMs -> (tenth <= elapsedHours_double uptimeMs)%Q.
Proof.
  intros Hlate. unfold tenth, elapsedHours_double. apply double_mono.
  unfold elapsedHours, Qle. simpl. lia.
Qed.

Lemma hoursRunning_early (uptimeMs : Z) :
  uptimeMs <= 360000 -> (elapsedHours_double uptimeMs <= tenth)%Q.
Proof.
  intros Hearly. unfold tenth, elapsedHours_double. apply double_mono.
  unfold elapsedHours, Qle. simpl. lia.
Qed.

Lemma status_matches_spec_late (uptimeMs count : Z) :
  360000 <= uptimeMs ->
  status_requestsPerHour uptimeMs count =
  Some (spec_requestsPerHour_double count (elapsedHours_double uptimeMs)).
Proof.
  intros Hlate. rewrite status_requestsPerHour_total, hoursRunning_double.
  assert (E : (0 <? uptimeMs) = true) by (apply Z.ltb_lt; lia).
  rewrite E. f_equal.
  unfold spec_requestsPerHour_double, JS.Math_round. cbv zeta.
  destruct (Qlt_le_dec (elapsedHours_double uptimeMs) tenth) as [L | L].
  - exfalso. apply (Qlt_not_le _ _ L). apply hoursRunning_late. exact Hlate.
  - reflexivity.
Qed.

Lemma status_zero_early (uptimeMs count : Z) :
  uptimeMs <= 0 -> status_requestsPerHour uptimeMs count = Some 0.
Proof.
  intros Hearly. rewrite status_requestsPerHour_total.
  assert (E : (0 <? uptimeMs) = false) by (apply Z.ltb_ge; lia).
  rewrite E. reflexivity.
Qed.

(** ** The handlers run to completion *)

Ltac run_handler_code :=
  unfold mbind, M_bind, mret, M_ret, Date_now, Math_random, get_metrics,
    execAsync_docker_ps, lift_option;
  repeat first
    [ progress cbn [serverMetrics clock clock_reads random random_draws docker_ps]
    | rewrite getAverageResponseTime_run
    | rewrite metrics_requestsPerHour_total
    | rewrite status_requestsPerHour_total ].

Lemma get_api_metrics_run (w : World) :
  exists (resp : Response MetricsBody) (w' : World),
    get_api_metrics w = Some (resp, w') /\
    res_status resp = 200 /\
    mb_uptime_percent (res_body resp) =
      uptime_percentage (random w (3 + random_draws w)%nat) /\
    metrics_requestsPerHour
      (clock w (S (clock_reads w)) - startTime (serverMetrics w))
      (requestCount (serverMetrics w))
      = Some (mb_perf_requestsPerHour (res_body resp)) /\
    serverMetrics w' = serverMetrics w /\ clock w' = clock w /\
    (clock_reads w <= clock_reads w')%nat.
Proof.
  unfold get_api_metrics, getSystemHealth, checkDockerStatus, getUptime.
  run_handler_code.
  eexists _, _. split; [reflexivity |].
  repeat split. cbn. lia.
Qed.

Lemma get_api_status_run (w : World) :
  exists (resp : Response StatusBody) (w' : World),
    get_api_status w = Some (resp, w') /\
    res_status resp = 200 /\
    sb_docker_status (res_body resp) =
      (if running (docker_summary (docker_ps w)) then "online" else "offline")%string /\
    sb_docker_containers (res_body resp) =
      containerCount (docker_summary (docker_ps w)) /\
    status_requestsPerHour
      (clock w (S (clock_reads w)) - startTime (serverMetrics w))
      (requestCount (serverMetrics w))
      = Some (sb_metrics_requestsPerHour (res_body resp)) /\
    serverMetrics w' = serverMetrics w /\ clock w' = clock w /\
    (clock_reads w <= clock_reads w')%nat.
Proof.
  unfold get_api_status, getSystemHealth, checkDockerStatus, getUptime.
  run_handler_code.
  eexists _, _. split; [reflexivity |].
  repeat split. cbn. lia.
Qed.

(** ** Uptime percentage *)

Lemma uptime_percentage_bounds (r : Q) :
  (0 <= r)%Q -> (r < 1)%Q ->
  (99 <= uptime_percentage r)%Q /\ (uptime_percentage r <= 100)%Q.
Proof.
  intros H0 H1. unfold uptime_percentage. cbv zeta.
  destruct (max_spec 99 (100 - r * 1)) as (Hlo & _ & Hcase).
  set (u := JS.Math_max 99 (100 - r * 1)) in *.
  assert (Hhi : (u <= 100)%Q).
  { destruct Hcase as [E | E]; rewrite E; lra. }
  assert (Hz : 990 <= JS.Math_round (u * 10) <= 1000).
  { unfold JS.Math_round. split.
    - rewrite <- (Qfloor_Z 990). apply Qfloor_resp_le.
      change (inject_Z 990) with 990%Q. lra.
    - change 1000 with (Qfloor (1000 * 1 + (1 # 2))).
      apply Qfloor_resp_le. lra. }
  set (z := JS.Math_round (u * 10)) in *.
  unfold Qle, Qdiv, Qmult, Qinv. simpl. lia.
Qed.

(** C8: for every value of the random draw in [0, 1) the percentage
    [round(max(99.0, 100 - random * 1) * 10) / 10] lies in [99.0, 100.0],
    and GET /api/metrics, which always answers, reports such a value. *)
Theorem uptime_percentage_in_range :
  (forall r : Q, (0 <= r)%Q -> (r < 1)%Q ->
     (99 <= uptime_percentage r)%Q /\ (uptime_percentage r <= 100)%Q) /\
  (forall w : World, random_in_unit w ->
     exists (resp : Response MetricsBody) (w' : World),
       get_api_metrics w = Some (resp, w') /\
       (99 <= mb_uptime_percent (res_body resp))%Q /\
       (mb_uptime_percent (res_body resp) <= 100)%Q).
Proof.
  split; [exact uptime_percentage_bounds |].
  intros w Hr.
  destruct (get_api_metrics_run w) as (resp & w' & Hrun & _ & Hp & _).
  exists resp, w'. split; [exact Hrun |].
  rewrite Hp. destruct (Hr (3 + random_draws w)%nat) as [H0 H1].
  apply uptime_percentage_bounds; assumption.
Qed.

Lemma uptime_percentage_in_range_witness :
  (99 <= uptime_percentage (1 # 3))%Q /\ (uptime_percentage (1 # 3) <= 100)%Q.
Proof.
  destruct uptime_percentage_in_range as [Hpure _].
  apply (Hpure (1 # 3)%Q); [discriminate | reflexivity].
Defined.

(** ** The rate against the exact quotient *)

Lemma quotient_near (c xc hm x y d eps : Q) :
  (0 <= c)%Q -> (0 < xc)%Q -> (0 < hm)%Q ->
  (hm - xc <= xc * eps)%Q -> (xc - hm <= xc * eps)%Q ->
  (y * hm == c)%Q -> (x * xc == c)%Q ->
  (d - y <= y * eps)%Q -> (y - d <= y * eps)%Q ->
  (d - x <= 2 * (y * eps))%Q /\ (x - d <= 2 * (y * eps))%Q.
Proof.
  intros Hc Hxc Hhm Hh1 Hh2 Hy Hx Hd1 Hd2.
  assert (Hy0 : (0 <= y)%Q).
  { apply Qnot_lt_le. intros Hneg.
    assert (H : (y * hm < 0)%Q) by nra. rewrite Hy in H. lra. }
  assert (H1 : (x - y <= y * eps)%Q).
  { apply Qnot_lt_le. intros Hgt.
    assert (E : ((x - y - y * eps) * xc == y * (hm - xc - xc * eps))%Q).
    { assert (E0 : ((x - y - y * eps) * xc == x * xc - y * xc - y * eps * xc)%Q) by ring.
      assert (E1 : (y * (hm - xc - xc * eps) == y * hm - y * xc - y * eps * xc)%Q) by ring.
      rewrite E0, E1, Hx, Hy. reflexivity. }
    assert (Hp : (0 < (x - y - y * eps) * xc)%Q) by (apply Qmult_lt_0_compat; lra).
    rewrite E in Hp.
    assert (Hn : (y * (hm - xc - xc * eps) <= 0)%Q) by nra.
    lra. }
  assert (H2 : (y - x <= y * eps)%Q).
  { apply Qnot_lt_le. intros Hgt.
    assert (E : ((y - x - y * eps) * xc == y * (xc - hm - xc * eps))%Q).
    { assert (E0 : ((y - x - y * eps) * xc == y * xc - x * xc - y * eps * xc)%Q) by ring.
      assert (E1 : (y * (xc - hm - xc * eps) == y * xc - y * hm - y * eps * xc)%Q) by ring.
      rewrite E0, E1, Hx, Hy. reflexivity. }
    assert (Hp : (0 < (y - x - y * eps) * xc)%Q) by (apply Qmult_lt_0_compat; lra).
    rewrite E in Hp.
    assert (Hn : (y * (xc - hm - xc * eps) <= 0)%Q) by nra.
    lra. }
  split; lra.
Qed.

Lemma round_near (d x : Q) :
  (d - x < 1)%Q -> (x - d < 1)%Q ->
  Qfloor (x + (1 # 2)) - 1 <= Qfloor (d + (1 # 2)) <= Qfloor (x + (1 # 2)) + 1.
Proof.
  intros H1 H2.
  pose proof (Qfloor_le (d + (1 # 2))) as Hd1. pose proof (Qlt_floor (d + (1 # 2))) as Hd2.
  pose proof (Qfloor_le (x + (1 # 2))) as Hx1. pose proof (Qlt_floor (x + (1 # 2))) as Hx2.
  set (fd := Qfloor (d + (1 # 2))) in *. set (fx := Qfloor (x + (1 # 2))) in *.
  clearbody fd fx.
  assert (Ha : (inject_Z fd < inject_Z (fx + 1) + inject_Z 1)%Q).
  { change (inject_Z 1) with 1%Q. lra. }
  assert (Hb : (inject_Z fx < inject_Z (fd + 1) + inject_Z 1)%Q).
  { change (inject_Z 1) with 1%Q. lra. }
  rewrite <- inject_Z_plus, <- Zlt_Qlt in Ha, Hb. lia.
Qed.

(** The divisor of line 163 is the double nearest to the exact
    [max(elapsedHours, 0.1)]. *)
Lemma metrics_divisor_double (uptimeMs : Z) :
  (JS.Math_max (elapsedHours_double uptimeMs) tenth ==
   JS.double (if Qlt_le_dec (elapsedHours uptimeMs) (1 # 10)
              then 1 # 10 else elapsedHours uptimeMs))%Q.
Proof.
  unfold JS.Math_max.
  destruct (Qlt_le_dec (elapsedHours uptimeMs) (1 # 10)) as [L | L].
  - assert (H : (elapsedHours_double uptimeMs <= tenth)%Q).
    { unfold elapsedHours_double, tenth. apply double_mono. apply Qlt_le_weak. exact L. }
    apply Qle_bool_iff in H. rewrite H. reflexivity.
  - assert (H : (tenth <= elapsedHours_double uptimeMs)%Q).
    { unfold elapsedHours_double, tenth. apply double_mono. exact L. }
    destruct (Qle_bool (elapsedHours_double uptimeMs) tenth) eqn:E.
    + apply Qle_bool_iff in E. apply Qle_antisym; assumption.
    + reflexivity.
Qed.

Lemma metrics_near_exact (uptimeMs count : Z) :
  0 <= count < 2 ^ 48 ->
  exists rate : Z,
    metrics_requestsPerHour uptimeMs count = Some rate /\
    spec_requestsPerHour count (elapsedHours uptimeMs) - 1 <= rate
      <= spec_requestsPerHour count (elapsedHours uptimeMs) + 1.
Proof.
  intros Hc. rewrite metrics_requestsPerHour_total, hoursRunning_double.
  eexists. split; [reflexivity |].
  unfold spec_requestsPerHour, JS.Math_round. cbv zeta.
  pose proof (metrics_divisor_double uptimeMs) as Hhm.
  pose proof (metrics_divisor_floor (elapsedHours_double uptimeMs)) as Hfloor.
  set (hm := JS.Math_max (elapsedHours_double uptimeMs) tenth) in *.
  set (xc := if Qlt_le_dec (elapsedHours uptimeMs) (1 # 10)
             then (1 # 10)%Q else elapsedHours uptimeMs) in *.
  assert (Hxc : (1 # 10 <= xc)%Q).
  { subst xc. destruct (Qlt_le_dec (elapsedHours uptimeMs) (1 # 10)); [apply Qle_refl | assumption]. }
  assert (Hxc0 : (0 < xc)%Q) by lra.
  assert (Hhm0 : (0 < hm)%Q) by lra.
  destruct (double_near xc ltac:(lra)) as [Hn1 Hn2].
  setoid_rewrite <- Hhm in Hn1. setoid_rewrite <- Hhm in Hn2.
  assert (Hc0 : (0 <= inject_Z count)%Q).
  { change 0%Q with (inject_Z 0). rewrite <- Zle_Qle. lia. }
  assert (Hc48 : (inject_Z count <= inject_Z (2 ^ 48))%Q).
  { rewrite <- Zle_Qle. lia. }
  set (c := inject_Z count) in *.
  assert (Hy : (c / hm * hm == c)%Q) by (field; lra).
  assert (Hx : (c / xc * xc == c)%Q) by (field; lra).
  assert (Hy0 : (0 <= c / hm)%Q).
  { apply Qle_shift_div_l; [exact Hhm0 | lra]. }
  destruct (double_near (c / hm) Hy0) as [Hd1 Hd2].
  destruct (quotient_near c xc hm (c / xc) (c / hm) (JS.double (c / hm)) (JS.pow2 (-53))
              Hc0 Hxc0 Hhm0 Hn1 Hn2 Hy Hx Hd1 Hd2) as [Hq1 Hq2].
  assert (Hy10 : (c / hm <= 10 * c)%Q).
  { apply Qle_shift_div_r; [exact Hhm0 |]. nra. }
  assert (Heps : (JS.pow2 (-53) == 1 # 9007199254740992)%Q) by reflexivity.
  rewrite Heps in Hq1, Hq2.
  change (inject_Z (2 ^ 48)) with (281474976710656 # 1)%Q in Hc48.
  apply round_near; lra.
Qed.
(** ** Requests per hour on the two endpoints *)

(** C1 as stated fails on /api/status: with 10 requests after 0.05 hours
    (180000 ms) the handler's expression yields 200, whereas
    [round(10 / max(0.05, 0.1))] is 100, in exact and in double
    arithmetic alike. *)
Lemma status_rate_not_clamped :
  status_requestsPerHour 180000 10 = Some 200 /\
  spec_requestsPerHour 10 (elapsedHours 180000) = 100 /\
  status_requestsPerHour 180000 10
    <> Some (spec_requestsPerHour 10 (elapsedHours 180000)) /\
  spec_requestsPerHour_double 10 (elapsedHours_double 180000) = 100.
Proof.
  split; [vm_compute; reflexivity |]. split; [reflexivity |].
  split; [| vm_compute; reflexivity].
  intros H. vm_compute in H. discriminate H.
Qed.

(** C1, amended: on /api/metrics the rate is
    [round(requestCount / max(elapsedHours, 0.1))] in every state, in the
    double arithmetic of the program: the elapsed hours, [0.1] and the
    quotient are doubles.  For a count from 0 to below 2^48 that number
    is within 1 of the formula evaluated exactly, from which it can
    differ: 7 requests after 2016000 ms give 12 where the exact quotient
    12.5 rounds to 13, and on /api/status 100 requests after 384000 ms
    give 937 where the exact quotient 937.5 rounds to 938.  The divisor
    is never below 0.1, and 10 requests after 0.05 hours give 100.  On
    /api/status the rate is the same number once at least 0.1 hours
    (360000 ms) have elapsed, and it is 0 when no time has elapsed. *)
Theorem requests_per_hour_clamped_on_metrics :
  (forall uptimeMs count : Z,
     metrics_requestsPerHour uptimeMs count =
     Some (spec_requestsPerHour_double count (elapsedHours_double uptimeMs))) /\
  (forall uptimeMs count : Z,
     0 <= count < 2 ^ 48 ->
     exists rate : Z,
       metrics_requestsPerHour uptimeMs count = Some rate /\
       spec_requestsPerHour count (elapsedHours uptimeMs) - 1 <= rate
         <= spec_requestsPerHour count (elapsedHours uptimeMs) + 1) /\
  (metrics_requestsPerHour 2016000 7 = Some 12 /\
   spec_requestsPerHour 7 (elapsedHours 2016000) = 13) /\
  (status_requestsPerHour 384000 100 = Some 937 /\
   spec_requestsPerHour 100 (elapsedHours 384000) = 938) /\
  (forall h : Q, (1 # 10 <= JS.Math_max h tenth)%Q) /\
  metrics_requestsPerHour 180000 10 = Some 100 /\
  (forall w : World,
     exists (resp : Response MetricsBody) (w' : World),
       get_api_metrics w = Some (resp, w') /\
       mb_perf_requestsPerHour (res_body resp) =
         spec_requestsPerHour_double
           (requestCount (serverMetrics w))
           (elapsedHours_double
              (clock w (S (clock_reads w)) - startTime (serverMetrics w)))) /\
  (forall uptimeMs count : Z,
     360000 <= uptimeMs ->
     status_requestsPerHour uptimeMs count =
     Some (spec_requestsPerHour_double count (elapsedHours_double uptimeMs))) /\
  (forall uptimeMs count : Z,
     uptimeMs <= 0 -> status_requestsPerHour uptimeMs count = Some 0) /\
  (forall w : World,
     360000 <= clock w (S (clock_reads w)) - startTime (serverMetrics w) ->
     exists (resp : Response StatusBody) (w' : World),
       get_api_status w = Some (resp, w') /\
       sb_metrics_requestsPerHour (res_body resp) =
         spec_requestsPerHour_double
           (requestCount (serverMetrics w))
           (elapsedHours_double
              (clock w (S (clock_reads w)) - startTime (serverMetrics w)))).
Proof.
  split; [exact metrics_matches_spec |].
  split; [exact metrics_near_exact |].
  split; [split; vm_compute; reflexivity |].
  split; [split; vm_compute; reflexivity |].
  split; [exact metrics_divisor_floor |].
  split; [vm_compute; reflexivity |].
  split; [| split; [exact status_matches_spec_late |
                    split; [exact status_zero_early |]]].
  - intros w.
    destruct (get_api_metrics_run w) as (resp & w' & Hrun & _ & _ & Hrate & _).
    exists resp, w'. split; [exact Hrun |].
    rewrite metrics_matches_spec in Hrate. congruence.
  - intros w Hlate.
    destruct (get_api_status_run w) as (resp & w' & Hrun & _ & _ & _ & Hrate & _).
    exists resp, w'. split; [exact Hrun |].
    rewrite status_matches_spec_late in Hrate by exact Hlate. congruence.
Qed.

Lemma requests_per_hour_clamped_on_metrics_witness :
  status_requestsPerHour 7200000 10 =
    Some (spec_requestsPerHour_double 10 (elapsedHours_double 7200000)) /\
  status_requestsPerHour 0 10 = Some 0 /\
  exists rate : Z,
    metrics_requestsPerHour 2016000 7 = Some rate /\
    spec_requestsPerHour 7 (elapsedHours 2016000) - 1 <= rate
      <= spec_requestsPerHour 7 (elapsedHours 2016000) + 1.
Proof.
  destruct requests_per_hour_clamped_on_metrics
    as (_ & Hnear & _ & _ & _ & _ & _ & Hlate & Hzero & _).
  split; [apply Hlate; lia |]. split; [apply Hzero; lia |].
  apply Hnear. lia.
Defined.

(** ** Container runtime failures *)

(** C5: when the container runtime call fails, whatever the failure, the
    summary query returns [{running: false, containerCount: 0,
    containers: []}] instead of raising, and GET /api/status still
    answers 200 with docker status ["offline"] and 0 containers. *)
Theorem docker_failure_degrades (w : World) (message : string) :
  docker_ps w = Rejected message ->
  checkDockerStatus w = Some (mkDockerStatus false 0 [], w) /\
  exists (resp : Response StatusBody) (w' : World),
    get_api_status w = Some (resp, w') /\
    res_status resp = 200 /\
    sb_docker_status (res_body resp) = "offline"%string /\
    sb_docker_containers (res_body resp) = 0%nat.
Proof.
  intros Hfail. split.
  - unfold checkDockerStatus. rewrite bind_run.
    unfold execAsync_docker_ps. rewrite Hfail. reflexivity.
  - destruct (get_api_status_run w) as (resp & w' & Hrun & Hs & Hd & Hc & _).
    exists resp, w'. rewrite Hfail in Hd, Hc.
    repeat split; assumption.
Qed.

Lemma docker_failure_degrades_witness :
  checkDockerStatus quiet_world = Some (mkDockerStatus false 0 [], quiet_world) /\
  exists (resp : Response StatusBody) (w' : World),
    get_api_status quiet_world = Some (resp, w') /\
    res_status resp = 200 /\
    sb_docker_status (res_body resp) = "offline"%string /\
    sb_docker_containers (res_body resp) = 0%nat.
Proof.
  apply (docker_failure_degrades quiet_world "docker: not found"). reflexivity.
Defined.

(** ** Request accounting *)

Lemma track_request_run (w : World) :
  track_request w =
  Some (clock w (clock_reads w),
        mkWorld (mkMetrics (startTime (serverMetrics w))
                           (requestCount (serverMetrics w) + 1)
                           (totalResponseTime (serverMetrics w))
                           (responseTimeCount (serverMetrics w)))
                (clock w) (S (clock_reads w))
                (random w) (random_draws w) (docker_ps w)).
Proof. reflexivity. Qed.

Lemma on_finish_run (start : Z) (w : World) :
  on_finish start w =
  Some (tt,
        mkWorld (mkMetrics (startTime (serverMetrics w))
                           (requestCount (serverMetrics w))
                           (totalResponseTime (serverMetrics w)
                            + (clock w (clock_reads w) - start))
                           (responseTimeCount (serverMetrics w) + 1))
                (clock w) (S (clock_reads w))
                (random w) (random_draws w) (docker_ps w)).
Proof. reflexivity. Qed.

Lemma run_handler_preserves (h : Handler) (w : World) :
  exists w' : World,
    run_handler h w = Some (tt, w') /\
    serverMetrics w' = serverMetrics w /\ clock w' = clock w /\
    (clock_reads w <= clock_reads w')%nat.
Proof.
  destruct h as [| | | url]; unfold run_handler; rewrite bind_run.
  - eexists. split; [reflexivity |]. repeat split. cbn. lia.
  - destruct (get_api_status_run w) as (resp & w' & Hrun & _ & _ & _ & _ & Hm & Hc & Hn).
    exists w'. rewrite Hrun. repeat split; assumption.
  - destruct (get_api_metrics_run w) as (resp & w' & Hrun & _ & _ & _ & Hm & Hc & Hn).
    exists w'. rewrite Hrun. repeat split; assumption.
  - eexists. split; [reflexivity |]. repeat split. cbn. lia.
Qed.

Lemma step_arrive (s : Server) :
  step Arrive s =
  Some (mkServer
          (mkWorld (mkMetrics (startTime (serverMetrics (world s)))
                              (requestCount (serverMetrics (world s)) + 1)
                              (totalResponseTime (serverMetrics (world s)))
                              (responseTimeCount (serverMetrics (world s))))
                   (clock (world s)) (S (clock_reads (world s)))
                   (random (world s)) (random_draws (world s)) (docker_ps (world s)))
          (<[arrivals s := clock (world s) (clock_reads (world s))]> (in_flight s))
          (S (arrivals s))).
Proof. reflexivity. Qed.

Lemma step_finish (s : Server) (request : nat) :
  step (Finish request) s =
  match in_flight s !! request with
  | Some start =>
      Some (mkServer
              (mkWorld (mkMetrics (startTime (serverMetrics (world s)))
                                  (requestCount (serverMetrics (world s)))
                                  (totalResponseTime (serverMetrics (world s))
                                   + (clock (world s) (clock_reads (world s)) - start))
                                  (responseTimeCount (serverMetrics (world s)) + 1))
                       (clock (world s)) (S (clock_reads (world s)))
                       (random (world s)) (random_draws (world s))
                       (docker_ps (world s)))
              (delete request (in_flight s))
              (arrivals s))
  | None => None
  end.
Proof.
  unfold step. destruct (in_flight s !! request); reflexivity.
Qed.

Lemma step_answer (h : Handler) (s : Server) :
  exists w' : World,
    step (Answer h) s = Some (mkServer w' (in_flight s) (arrivals s)) /\
    serverMetrics w' = serverMetrics (world s) /\ clock w' = clock (world s) /\
    (clock_reads (world s) <= clock_reads w')%nat.
Proof.
  destruct (run_handler_preserves h (world s)) as (w' & Hrun & Hm & Hc & Hn).
  exists w'. unfold step. rewrite Hrun. repeat split; assumption.
Qed.

(** C2 as stated fails: the request is counted when it arrives, before
    its response completes, and completion adds nothing to
    [requestCount]. *)
Lemma request_counted_on_arrival :
  (s ← (s0 ← started quiet_world; run [Arrive] s0);
   Some (requestCount (serverMetrics (world s)))) = Some 1 /\
  (s ← (s0 ← started quiet_world; run [Arrive; Finish 0%nat] s0);
   Some (requestCount (serverMetrics (world s)))) = Some 1 /\
  ~ (forall (s s' : Server) (request : nat),
       step (Finish request) s = Some s' ->
       requestCount (serverMetrics (world s'))
       = requestCount (serverMetrics (world s)) + 1).
Proof.
  split; [reflexivity |]. split; [reflexivity |].
  intros H.
  specialize (H (mkServer quiet_world {[ 0%nat := 0 ]} 1)
                (mkServer (mkWorld (mkMetrics 0 0 (0 + (0 - 0)) (0 + 1))
                                   (clock quiet_world) 1 (random quiet_world) 0
                                   (docker_ps quiet_world))
                          (delete 0%nat {[ 0%nat := 0 ]}) 1)
                0%nat eq_refl).
  discriminate H.
Qed.

(** C2, amended: the middleware records the arrival instant as the
    request's start time and increments [requestCount] by 1 at once,
    leaving the two response-time counters as they are; when the response
    completes, the elapsed milliseconds since that start are added to
    [totalResponseTime], [responseTimeCount] grows by 1 and
    [requestCount] stays as it is.  Both steps always succeed. *)
Theorem request_accounting (s : Server) :
  let m := serverMetrics (world s) in
  let now := clock (world s) (clock_reads (world s)) in
  (exists s' : Server,
     step Arrive s = Some s' /\
     in_flight s' !! arrivals s = Some now /\
     requestCount (serverMetrics (world s')) = requestCount m + 1 /\
     totalResponseTime (serverMetrics (world s')) = totalResponseTime m /\
     responseTimeCount (serverMetrics (world s')) = responseTimeCount m) /\
  (forall (request : nat) (start : Z),
     in_flight s !! request = Some start ->
     exists s' : Server,
       step (Finish request) s = Some s' /\
       in_flight s' !! request = None /\
       requestCount (serverMetrics (world s')) = requestCount m /\
       totalResponseTime (serverMetrics (world s'))
         = totalResponseTime m + (now - start) /\
       responseTimeCount (serverMetrics (world s')) = responseTimeCount m + 1).
Proof.
  intros m now. split.
  - eexists. split; [apply step_arrive |]. cbn.
    split; [apply lookup_insert_eq |]. repeat split.
  - intros request start Hin.
    eexists. split; [rewrite step_finish, Hin; reflexivity |]. cbn.
    split; [apply lookup_delete_eq |]. repeat split.
Qed.

Lemma request_accounting_witness :
  exists s' : Server,
    step (Finish 0%nat) (mkServer quiet_world {[ 0%nat := 0 ]} 1) = Some s' /\
    requestCount (serverMetrics (world s')) = 0 /\
    responseTimeCount (serverMetrics (world s')) = 1.
Proof.
  destruct (request_accounting (mkServer quiet_world {[ 0%nat := 0 ]} 1))
    as [_ Hfinish].
  destruct (Hfinish 0%nat 0 eq_refl) as (s' & Hstep & _ & Hcount & _ & Hdone).
  exists s'. split; [exact Hstep |]. split; [exact Hcount | exact Hdone].
Defined.

(** ** Counters of the running server *)

Lemma started_invariant (w0 : World) :
  exists s0 : Server, started w0 = Some s0 /\ server_invariant w0 s0.
Proof.
  eexists. split; [reflexivity |].
  unfold server_invariant. cbn.
  split; [reflexivity |]. split; [lia |]. split.
  - rewrite map_size_empty. lia.
  - intros request start Hin. rewrite lookup_empty in Hin. discriminate.
Qed.

Lemma step_invariant (w0 : World) (e : Event) (s s' : Server) :
  server_invariant w0 s -> step e s = Some s' -> server_invariant w0 s'.
Proof.
  intros (Hclock & Hpos & Hsize & Hstarts) Hstep.
  destruct e as [| h | request].
  - rewrite step_arrive in Hstep. injection Hstep as <-.
    unfold server_invariant. cbn.
    split; [exact Hclock |]. split; [exact Hpos |]. split.
    + rewrite map_size_insert.
      destruct (in_flight s !! arrivals s); unfold id; lia.
    + intros request start Hin.
      destruct (decide (arrivals s = request)) as [Heq | Hne].
      * subst request. rewrite lookup_insert_eq in Hin. injection Hin as <-.
        exists (clock_reads (world s)). split; [lia |]. rewrite Hclock. reflexivity.
      * rewrite lookup_insert_ne in Hin by exact Hne.
        destruct (Hstarts request start Hin) as (i & Hi & Hs).
        exists i. split; [lia | exact Hs].
  - destruct (step_answer h s) as (w' & Hrun & Hm & Hc & Hn).
    rewrite Hrun in Hstep. injection Hstep as <-.
    unfold server_invariant. cbn. rewrite Hm, Hc.
    split; [exact Hclock |]. split; [exact Hpos |]. split; [exact Hsize |].
    intros request start Hin.
    destruct (Hstarts request start Hin) as (i & Hi & Hs).
    exists i. split; [lia | exact Hs].
  - rewrite step_finish in Hstep.
    destruct (in_flight s !! request) as [start |] eqn:Hin; [| discriminate].
    injection Hstep as <-.
    unfold server_invariant. cbn.
    split; [exact Hclock |]. split; [lia |]. split.
    + rewrite map_size_delete, Hin.
      assert (size (in_flight s) <> 0%nat).
      { apply map_size_non_empty_iff. intros Hempty.
        rewrite Hempty, lookup_empty in Hin. discriminate. }
      lia.
    + intros request' start' Hin'.
      destruct (decide (request = request')) as [Heq | Hne].
      * subst request'. rewrite lookup_delete_eq in Hin'. discriminate.
      * rewrite lookup_delete_ne in Hin' by exact Hne.
        destruct (Hstarts request' start' Hin') as (i & Hi & Hs).
        exists i. split; [lia | exact Hs].
Qed.

Lemma run_invariant (w0 : World) (events : list Event) :
  forall s s' : Server,
    server_invariant w0 s -> run events s = Some s' -> server_invariant w0 s'.
Proof.
  induction events as [| e rest IH]; intros s s' Hinv Hrun.
  - injection Hrun as <-. exact Hinv.
  - cbn in Hrun. destruct (step e s) as [s1 |] eqn:Hstep; [| discriminate].
    apply (IH s1 s'); [| exact Hrun].
    exact (step_invariant w0 e s s1 Hinv Hstep).
Qed.

Lemma reachable_invariant (w0 : World) (s : Server) :
  reachable w0 s -> server_invariant w0 s.
Proof.
  intros [events Hrun].
  destruct (started_invariant w0) as (s0 & Hs0 & Hinv).
  rewrite Hs0 in Hrun. cbn in Hrun.
  exact (run_invariant w0 events s0 s Hinv Hrun).
Qed.

Lemma step_counters_grow (w0 : World) (e : Event) (s s' : Server) :
  clock_monotone w0 -> server_invariant w0 s -> step e s = Some s' ->
  requestCount (serverMetrics (world s)) <= requestCount (serverMetrics (world s')) /\
  totalResponseTime (serverMetrics (world s))
    <= totalResponseTime (serverMetrics (world s')) /\
  responseTimeCount (serverMetrics (world s))
    <= responseTimeCount (serverMetrics (world s')).
Proof.
  intros Hmono (Hclock & Hpos & Hsize & Hstarts) Hstep.
  destruct e as [| h | request].
  - rewrite step_arrive in Hstep. injection Hstep as <-. cbn. lia.
  - destruct (step_answer h s) as (w' & Hrun & Hm & Hc & Hn).
    rewrite Hrun in Hstep. injection Hstep as <-. cbn. rewrite Hm. lia.
  - rewrite step_finish in Hstep.
    destruct (in_flight s !! request) as [start |] eqn:Hin; [| discriminate].
    injection Hstep as <-. cbn.
    destruct (Hstarts request start Hin) as (i & Hi & ->).
    assert (clock w0 i <= clock (world s) (clock_reads (world s))).
    { rewrite Hclock. apply Hmono. lia. }
    lia.
Qed.

(** The two counts grow with every step, whatever the clock does. *)
Lemma step_counts_grow (e : Event) (s s' : Server) :
  step e s = Some s' ->
  requestCount (serverMetrics (world s)) <= requestCount (serverMetrics (world s')) /\
  responseTimeCount (serverMetrics (world s))
    <= responseTimeCount (serverMetrics (world s')).
Proof.
  intros Hstep. destruct e as [| h | request].
  - rewrite step_arrive in Hstep. injection Hstep as <-. cbn. lia.
  - destruct (step_answer h s) as (w' & Hrun & Hm & Hc & Hn).
    rewrite Hrun in Hstep. injection Hstep as <-. cbn. rewrite Hm. lia.
  - rewrite step_finish in Hstep.
    destruct (in_flight s !! request) as [start |] eqn:Hin; [| discriminate].
    injection Hstep as <-. cbn. lia.
Qed.

(** C6 as stated fails for [totalResponseTime] when the wall clock is set
    back while a response is under way: the server starts at 0, a request
    arrives at 100 and its response finishes when the clock reads 50; the
    completion adds -50 to a total of 0. *)
Lemma total_response_time_falls_with_the_clock :
  exists s s' : Server,
    reachable skewed_world s /\
    step (Finish 0%nat) s = Some s' /\
    totalResponseTime (serverMetrics (world s)) = 0 /\
    totalResponseTime (serverMetrics (world s')) = -50 /\
    ~ totalResponseTime (serverMetrics (world s))
        <= totalResponseTime (serverMetrics (world s')).
Proof.
  eexists _, _.
  split; [exists [Arrive]; vm_compute; reflexivity |].
  split; [vm_compute; reflexivity |].
  split; [reflexivity |]. split; [reflexivity |].
  intros H. vm_compute in H. apply H. reflexivity.
Qed.

(** C6, amended: in every state that the server reaches after its start,
    through any sequence of request arrivals, handler runs and response
    completions, [responseTimeCount <= requestCount]; no step from such a
    state makes [requestCount] or [responseTimeCount] smaller; and no
    step makes [totalResponseTime] smaller provided the readings of
    [Date.now()] never decrease. *)
Theorem counters_invariant (w0 : World) (s : Server) :
  reachable w0 s ->
  responseTimeCount (serverMetrics (world s))
    <= requestCount (serverMetrics (world s)) /\
  forall (e : Event) (s' : Server),
    step e s = Some s' ->
    requestCount (serverMetrics (world s))
      <= requestCount (serverMetrics (world s')) /\
    responseTimeCount (serverMetrics (world s))
      <= responseTimeCount (serverMetrics (world s')) /\
    (clock_monotone w0 ->
     totalResponseTime (serverMetrics (world s))
       <= totalResponseTime (serverMetrics (world s'))).
Proof.
  intros Hreach.
  pose proof (reachable_invariant w0 s Hreach) as Hinv.
  split.
  - destruct Hinv as (_ & _ & Hsize & _). lia.
  - intros e s' Hstep.
    destruct (step_counts_grow e s s' Hstep) as [Hrequests Hresponses].
    split; [exact Hrequests |]. split; [exact Hresponses |].
    intros Hmono.
    apply (step_counters_grow w0 e s s' Hmono Hinv Hstep).
Qed.

Lemma counters_invariant_witness :
  exists s s' : Server,
    (s0 ← started quiet_world;
     run [Arrive; Answer HStatus; Arrive; Finish 0%nat] s0) = Some s /\
    step (Finish 1%nat) s = Some s' /\
    responseTimeCount (serverMetrics (world s))
      <= requestCount (serverMetrics (world s)) /\
    responseTimeCount (serverMetrics (world s))
      <= responseTimeCount (serverMetrics (world s')) /\
    totalResponseTime (serverMetrics (world s))
      <= totalResponseTime (serverMetrics (world s')).
Proof.
  assert (Hmono : clock_monotone quiet_world).
  { intros i j Hij. cbn. lia. }
  eexists _, _.
  split; [vm_compute; reflexivity |]. split; [vm_compute; reflexivity |].
  edestruct (counters_invariant quiet_world) as [Hle Hgrow];
    [exists [Arrive; Answer HStatus; Arrive; Finish 0%nat]; vm_compute; reflexivity |].
  split; [exact Hle |].
  edestruct (Hgrow (Finish 1%nat)) as (_ & Hresponses & Htotal);
    [vm_compute; reflexivity |].
  split; [exact Hresponses | exact (Htotal Hmono)].
Defined.

(** ** The not-found handler *)

(** C3 at GET /api/doesnotexist: the request reaches the not-found
    handler with [req.url] trimmed to ["/"], so the response is a 404
    with an error field whose path field is ["/"], not the requested
    path. *)
Theorem not_found_reports_trimmed_path :
  Router.dispatch_get "/api/doesnotexist" = Router.ApiNotFound "/" /\
  (r ← get_unmatched "/api/doesnotexist" quiet_world; Some (r.1))
    = Some (Some (mkResponse 404
                    (mkNotFoundBody "API endpoint not found" "/" 0))) /\
  "/"%string <> "/api/doesnotexist"%string.
Proof.
  split; [vm_compute; reflexivity |]. split; [vm_compute; reflexivity | discriminate].
Qed.

(** *** Every request that the ['/api/*'] layer takes is trimmed to ["/"] *)

Lemma star_tail_single_line (r : string) :
  Router.single_line r = true -> Router.star_tail r = Some (String.length r).
Proof.
  induction r as [| c r IH]; [reflexivity |].
  cbn [Router.single_line Router.star_tail String.length].
  intros H. apply andb_true_iff in H as [Hc Hr].
  apply negb_true_iff in Hc. rewrite Hc, (IH Hr). reflexivity.
Qed.

Lemma strip_prefix_length (p s rest : string) :
  Router.strip_prefix p s = Some rest ->
  String.length s = (String.length p + String.length rest)%nat.
Proof.
  revert s. induction p as [| a p IH]; intros s H.
  - cbn in H. injection H as ->. reflexivity.
  - destruct s as [| b s]; [discriminate |].
    cbn in H. destruct (Ascii.eqb (Router.lower a) (Router.lower b)); [| discriminate].
    cbn. rewrite (IH s H). reflexivity.
Qed.

Lemma substring_whole (s : string) : substring 0 (String.length s) s = s.
Proof.
  induction s as [| c s IH]; [reflexivity |]. cbn. rewrite IH. reflexivity.
Qed.

Lemma get_past_end (s : string) : get (String.length s) s = None.
Proof.
  induction s as [| c s IH]; [reflexivity | exact IH].
Qed.

Lemma pathname_empty_after (url : string) :
  let n := String.length (Router.pathname url) in
  let url' := substring n (String.length url - n) url in
  url' = EmptyString \/ exists t, url' = String "?" t.
Proof.
  induction url as [| c url IH]; [left; reflexivity |].
  cbn [Router.pathname].
  destruct (Ascii.eqb c "?") eqn:E.
  - apply Ascii.eqb_eq in E. subst c. right. exists url.
    cbn [String.length]. rewrite Nat.sub_0_r.
    apply (substring_whole (String "?" url)).
  - cbn [String.length]. cbn [substring Nat.sub]. exact IH.
Qed.

Lemma trim_whole_pathname (url : string) :
  String.length (Router.pathname url) <> 0%nat ->
  exists url' : string,
    Router.trim_prefix (Router.pathname url) (Router.pathname url) url = Some url' /\
    Router.pathname url' = "/"%string.
Proof.
  intros Hn. unfold Router.trim_prefix.
  apply Nat.eqb_neq in Hn. rewrite Hn.
  rewrite substring_whole, String.eqb_refl, get_past_end. cbn [negb].
  destruct (pathname_empty_after url) as [E | [t E]]; cbv zeta in E; rewrite E.
  - eexists. split; reflexivity.
  - eexists. split; reflexivity.
Qed.

Lemma api_star_match_whole (path rest : string) :
  Router.strip_prefix "/api/" path = Some rest ->
  Router.single_line rest = true ->
  Router.api_star_match path = Some (path, rest).
Proof.
  intros Hp Hl. unfold Router.api_star_match.
  rewrite Hp. cbn [mbind option_bind].
  rewrite (star_tail_single_line rest Hl). cbn [mbind option_bind].
  apply strip_prefix_length in Hp. cbn [String.length] in Hp.
  rewrite <- Hp, substring_whole. reflexivity.
Qed.

(** A GET request whose pathname starts with [/api/] (in any letter
    case), without line terminator or [%] after it, is answered by one of
    the five routes or reaches the not-found handler with a [req.url]
    whose pathname is ["/"]; and the not-found handler answers 404 with
    the pathname of the [req.url] it is given as its path field. *)
Lemma api_request_trimmed (url rest : string) :
  Router.strip_prefix "/api/" (Router.pathname url) = Some rest ->
  Router.single_line rest = true ->
  Router.has_percent rest = false ->
  (exists url' : string,
     Router.dispatch_get url = Router.ApiNotFound url' /\
     Router.pathname url' = "/"%string) \/
  In (Router.dispatch_get url)
     [Router.Health; Router.ApiStatus; Router.ApiMetrics;
      Router.ApiContainers; Router.ApiSystem].
Proof.
  intros Hp Hl Hpc. unfold Router.dispatch_get. cbv zeta.
  destruct (Router.route_match "/health" _); [right; cbn; tauto |].
  destruct (Router.route_match "/api/status" _); [right; cbn; tauto |].
  destruct (Router.route_match "/api/metrics" _); [right; cbn; tauto |].
  destruct (Router.route_match "/api/containers" _); [right; cbn; tauto |].
  destruct (Router.route_match "/api/system" _); [right; cbn; tauto |].
  left. rewrite (api_star_match_whole _ rest Hp Hl), Hpc.
  destruct (trim_whole_pathname url) as (url' & Htrim & Hpath).
  { apply strip_prefix_length in Hp. rewrite Hp. cbn. lia. }
  rewrite Htrim. exists url'. split; [reflexivity | exact Hpath].
Qed.

Lemma api_not_found_run (req_url : string) (w : World) :
  exists w' : World,
    api_not_found req_url w =
    Some (mkResponse 404
            (mkNotFoundBody "API endpoint not found" (Router.pathname req_url)
                            (clock w (clock_reads w))), w').
Proof. eexists. reflexivity. Qed.

(** * Further properties *)

(** ** [split] and [trim] *)

Lemma split_no_separator (sep : ascii) (s : string) :
  has_char sep s = false -> Str.split sep s = [s].
Proof.
  induction s as [| c s IH]; [reflexivity |].
  cbn [has_char Str.split]. intros H.
  apply orb_false_iff in H as [Hc Hs].
  rewrite Hc, (IH Hs). reflexivity.
Qed.

Lemma split_at_separator (sep : ascii) (a b : string) :
  has_char sep a = false ->
  Str.split sep (a ++ String sep b) = a :: Str.split sep b.
Proof.
  induction a as [| c a IH]; intros H.
  - simpl. rewrite Ascii.eqb_refl. reflexivity.
  - cbn [has_char] in H. apply orb_false_iff in H as [Hc Ha].
    simpl. rewrite Hc, (IH Ha). reflexivity.
Qed.

Lemma split_with_separator (sep : ascii) (s : string) :
  has_char sep s = true ->
  exists a b rest, Str.split sep s = a :: b :: rest.
Proof.
  induction s as [| c s IH]; [discriminate |].
  cbn [has_char Str.split]. intros H.
  destruct (Ascii.eqb c sep) eqn:E.
  - destruct (Str.split sep s) as [| b rest] eqn:Es.
    + destruct s; cbn in Es; [discriminate |].
      destruct (Ascii.eqb a sep); [discriminate |].
      destruct (Str.split sep s); discriminate.
    + eauto.
  - cbn in H. destruct (IH H) as (a & b & rest & ->). eauto.
Qed.

Lemma trim_start_head (s : string) (c : ascii) (t : string) :
  Str.trim_start s = String c t -> Str.is_space c = false.
Proof.
  induction s as [| d s IH]; [discriminate |].
  cbn [Str.trim_start]. destruct (Str.is_space d) eqn:E.
  - exact IH.
  - intros [= <- _]. exact E.
Qed.

Lemma trim_end_keeps_head (c : ascii) (t : string) :
  Str.is_space c = false -> Str.trim_end (String c t) = String c (Str.trim_end t).
Proof.
  intros Hc. cbn [Str.trim_end]. rewrite Hc.
  destruct (Str.trim_end t); reflexivity.
Qed.

Lemma trim_end_idempotent (s : string) :
  Str.trim_end (Str.trim_end s) = Str.trim_end s.
Proof.
  induction s as [| c s IH]; [reflexivity |].
  cbn [Str.trim_end].
  destruct (Str.trim_end s) as [| d u] eqn:E.
  - destruct (Str.is_space c) eqn:Hc; [reflexivity |].
    cbn. rewrite Hc. reflexivity.
  - change (Str.trim_end (String c (String d u))) with
      (match Str.trim_end (String d u) with
       | EmptyString => if Str.is_space c then EmptyString else String c EmptyString
       | t => String c t
       end).
    rewrite IH. reflexivity.
Qed.

Lemma trim_idempotent (s : string) : Str.trim (Str.trim s) = Str.trim s.
Proof.
  unfold Str.trim.
  destruct (Str.trim_start s) as [| c t] eqn:E; [reflexivity |].
  pose proof (trim_start_head s c t E) as Hc.
  rewrite (trim_end_keeps_head c t Hc).
  cbn [Str.trim_start]. rewrite Hc.
  rewrite (trim_end_keeps_head c _ Hc), trim_end_idempotent. reflexivity.
Qed.

Lemma trimmed_nonempty_not_blank (a b : string) :
  Str.trim a = a -> a <> EmptyString -> Str.truthy (Str.trim (a ++ b)) = true.
Proof.
  intros Ha Hne. destruct a as [| c a]; [contradiction |].
  assert (Hc : Str.is_space c = false).
  { unfold Str.trim in Ha.
    destruct (Str.is_space c) eqn:E; [| reflexivity].
    exfalso. cbn [Str.trim_start] in Ha. rewrite E in Ha.
    destruct (Str.trim_start a) as [| d t] eqn:Et.
    - discriminate.
    - pose proof (trim_start_head a d t Et) as Hd.
      rewrite (trim_end_keeps_head d t Hd) in Ha.
      injection Ha as -> _. congruence. }
  unfold Str.trim.
  change (String c a ++ b)%string with (String c (a ++ b)).
  cbn [Str.trim_start]. rewrite Hc.
  rewrite (trim_end_keeps_head c _ Hc). reflexivity.
Qed.

(** ** The summary of a listing *)

Lemma split_nonempty (sep : ascii) (s : string) : Str.split sep s <> [].
Proof.
  destruct s as [| c s]; simpl; [discriminate |].
  destruct (Ascii.eqb c sep); [discriminate |].
  destruct (Str.split sep s); discriminate.
Qed.

Lemma summary_counts (r : ExecResult) :
  containerCount (docker_summary r) = length (containers (docker_summary r)) /\
  (running (docker_summary r) = true <-> (0 < containerCount (docker_summary r))%nat).
Proof.
  destruct r as [stdout | message];
    cbn [docker_summary containerCount running containers]; cbv zeta.
  - rewrite length_fmap, Nat.ltb_lt. split; [reflexivity | tauto].
  - split; [reflexivity |]. split; [discriminate | lia].
Qed.

Lemma filter_nil_iff {A : Type} (f : A -> bool) (l : list A) :
  List.filter f l = [] <-> Forall (fun x => f x = false) l.
Proof.
  induction l as [| x l IH]; cbn.
  - split; [constructor | reflexivity].
  - destruct (f x) eqn:E.
    + split; [discriminate |]. intros H. inversion H; congruence.
    + rewrite IH. split; [intros H; constructor; assumption |].
      intros H. inversion H; assumption.
Qed.

Lemma truthy_false_iff (s : string) : Str.truthy s = false <-> s = EmptyString.
Proof. destruct s; cbn; split; congruence. Qed.

(** X1: the summary of a listing is the summary of a failed call exactly
    when every line after the header line is blank. *)
Theorem empty_listing_like_failure (stdout : string) :
  docker_summary (Resolved stdout) = mkDockerStatus false 0 [] <->
  Forall (fun line => Str.trim line = EmptyString)
         (tail (Str.split Str.newline stdout)).
Proof.
  cbn [docker_summary]. cbv zeta.
  set (lines := List.filter _ _).
  assert (Hnil : lines = [] <->
                 Forall (fun line => Str.trim line = EmptyString)
                        (tail (Str.split Str.newline stdout))).
  { unfold lines. rewrite filter_nil_iff.
    split; intros H; eapply Forall_impl; try exact H;
      intros line; cbv beta; apply truthy_false_iff. }
  rewrite <- Hnil. split.
  - intros [= _ Hlen _]. destruct lines; [reflexivity | discriminate].
  - intros ->. reflexivity.
Qed.

Lemma empty_listing_like_failure_witness :
  docker_summary (Resolved "NAMES   STATUS") = docker_summary (Rejected "no docker").
Proof.
  apply (empty_listing_like_failure "NAMES   STATUS"). constructor.
Defined.

(** X2: every container of a summary comes from a line after the header
    that is not blank; its name is always present and trimmed; without a
    tab in the line the name is the whole trimmed line and the status is
    absent, with a tab the status is present and trimmed. *)
Theorem listed_container_fields (stdout : string) (c : Container) :
  c ∈ containers (docker_summary (Resolved stdout)) ->
  exists line : string,
    line ∈ tail (Str.split Str.newline stdout) /\
    Str.trim line <> EmptyString /\
    (exists name, c_name c = Some name /\ Str.trim name = name) /\
    (has_char Str.tab line = false ->
       c_name c = Some (Str.trim line) /\ c_status c = None) /\
    (has_char Str.tab line = true ->
       exists status, c_status c = Some status /\ Str.trim status = status).
Proof.
  cbn [docker_summary containers]. cbv zeta.
  intros Hc. apply list_elem_of_fmap in Hc as (line & -> & Hline).
  apply list_elem_of_In, filter_In in Hline as [Hin Hblank].
  exists line. split; [apply list_elem_of_In; exact Hin |].
  split; [intros E; rewrite E in Hblank; discriminate |].
  unfold parse_container. cbv zeta. cbn [c_name c_status].
  split; [| split].
  - destruct (Str.split Str.tab line) as [| a rest] eqn:Es.
    + exfalso. exact (split_nonempty _ _ Es).
    + exists (Str.trim a). split; [reflexivity | apply trim_idempotent].
  - intros Hno. rewrite (split_no_separator _ _ Hno). split; reflexivity.
  - intros Hyes. destruct (split_with_separator _ _ Hyes) as (a & b & rest & ->).
    exists (Str.trim b). split; [reflexivity | apply trim_idempotent].
Qed.

Lemma listed_container_fields_witness :
  exists line : string,
    Str.trim line <> EmptyString /\
    (has_char Str.tab line = false ->
       c_name (mkContainer (Some "web   Up 2 hours"%string) None)
         = Some (Str.trim line)).
Proof.
  destruct (listed_container_fields
              (String.concat (String Str.newline EmptyString)
                 ["NAMES   STATUS"; "web   Up 2 hours"])%string
              (mkContainer (Some "web   Up 2 hours"%string) None))
    as (line & _ & Hne & _ & Hno & _).
  - vm_compute. apply list_elem_of_here.
  - exists line. split; [exact Hne |]. intros H. apply (Hno H).
Defined.

Lemma has_char_append (c : ascii) (a b : string) :
  has_char c (a ++ b) = has_char c a || has_char c b.
Proof.
  induction a as [| d a IH]; [reflexivity |].
  simpl. rewrite IH. apply orb_assoc.
Qed.

Lemma row_line_parsed (row : string * string) :
  cell row.1 -> cell row.2 ->
  parse_container (row_line row) = mkContainer (Some row.1) (Some row.2).
Proof.
  intros (Htab1 & _ & Htrim1) (Htab2 & _ & Htrim2).
  unfold parse_container, row_line. cbv zeta.
  rewrite (split_at_separator _ _ _ Htab1), (split_no_separator _ _ Htab2).
  cbn. rewrite Htrim1, Htrim2. reflexivity.
Qed.

Lemma table_body_lines (rows : list (string * string)) :
  Forall (fun row => cell row.1 /\ cell row.2 /\ row.1 <> EmptyString) rows ->
  parse_container <$>
    List.filter (fun line => Str.truthy (Str.trim line))
                (Str.split Str.newline (table_body rows))
  = (fun row => mkContainer (Some row.1) (Some row.2)) <$> rows.
Proof.
  induction 1 as [| row rows (Hname & Hstatus & Hne) _ IH]; [reflexivity |].
  cbn [table_body].
  rewrite split_at_separator.
  - cbn [List.filter].
    unfold row_line at 1.
    rewrite (trimmed_nonempty_not_blank _ _ (proj2 (proj2 Hname)) Hne).
    cbn [fmap list_fmap]. rewrite (row_line_parsed row Hname Hstatus).
    f_equal. exact IH.
  - unfold row_line. rewrite has_char_append. cbn [has_char].
    destruct Hname as (_ & -> & _). destruct Hstatus as (_ & -> & _).
    reflexivity.
Qed.

(** X3: a listing made of a header line and of rows [name TAB status],
    with non-empty names and cells free of tabs, newlines and outer white
    space, is read back row by row: the summary counts the rows, is
    running exactly when there is a row, and lists each name with its
    status. *)
Theorem listing_round_trip (header : string) (rows : list (string * string)) :
  has_char Str.newline header = false ->
  Forall (fun row => cell row.1 /\ cell row.2 /\ row.1 <> EmptyString) rows ->
  docker_summary (Resolved (table_text header rows)) =
  mkDockerStatus (0 <? length rows)%nat (length rows)
                 ((fun row => mkContainer (Some row.1) (Some row.2)) <$> rows).
Proof.
  intros Hheader Hrows.
  cbn [docker_summary]. cbv zeta. unfold table_text.
  rewrite (split_at_separator _ _ _ Hheader). cbn [tail].
  pose proof (table_body_lines rows Hrows) as Hparsed.
  assert (Hlen : length (List.filter (fun line => Str.truthy (Str.trim line))
                           (Str.split Str.newline (table_body rows)))
                 = length rows).
  { rewrite <- (length_fmap parse_container), Hparsed, length_fmap. reflexivity. }
  rewrite Hlen, Hparsed. reflexivity.
Qed.

Lemma listing_round_trip_witness :
  docker_summary
    (Resolved (table_text "NAMES" [("web", "Up 2 hours"); ("db", "Up 5 minutes")]%string))
  = mkDockerStatus true 2
      [mkContainer (Some "web") (Some "Up 2 hours");
       mkContainer (Some "db") (Some "Up 5 minutes")]%string.
Proof.
  apply (listing_round_trip "NAMES" [("web", "Up 2 hours"); ("db", "Up 5 minutes")]%string).
  - reflexivity.
  - repeat constructor; discriminate.
Defined.

(** ** What the two summaries report of docker and of health *)

Lemma get_api_status_fields (w : World) :
  exists (resp : Response StatusBody) (w' : World),
    get_api_status w = Some (resp, w') /\
    sb_docker_status (res_body resp) =
      (if running (docker_summary (docker_ps w)) then "online" else "offline")%string /\
    sb_docker_containers (res_body resp) =
      containerCount (docker_summary (docker_ps w)) /\
    sb_healthCheck_status (res_body resp) =
      (if healthy (sample_of
                     (inject_Z (JS.Math_floor (random w (random_draws w) * 30) + 10))
                     (inject_Z (JS.Math_floor (random w (S (random_draws w)) * 40) + 30))
                     (inject_Z (JS.Math_floor (random w (S (S (random_draws w))) * 20) + 20))
                     (clock w (clock_reads w)))
       then "online" else "degraded")%string /\
    sb_server_uptime (res_body resp) =
      uptimeString (clock w (S (S (clock_reads w))) - startTime (serverMetrics w)) /\
    sb_webServer_responseTime (res_body resp) =
      (if 0 <? responseTimeCount (serverMetrics w)
       then JS.Math_round (inject_Z (totalResponseTime (serverMetrics w)) /
                           inject_Z (responseTimeCount (serverMetrics w)))
       else 0).
Proof.
  unfold get_api_status, getSystemHealth, checkDockerStatus, getUptime.
  run_handler_code.
  eexists _, _. split; [reflexivity |].
  repeat split.
Qed.

Lemma get_api_metrics_fields (w : World) :
  exists (resp : Response MetricsBody) (w' : World),
    get_api_metrics w = Some (resp, w') /\
    mb_dock_status (res_body resp) =
      (if running (docker_summary (docker_ps w)) then "running" else "stopped")%string /\
    mb_dock_containerCount (res_body resp) =
      containerCount (docker_summary (docker_ps w)) /\
    mb_dock_containers (res_body resp) = containers (docker_summary (docker_ps w)) /\
    mb_system_healthy (res_body resp) =
      healthy (sample_of
                 (inject_Z (JS.Math_floor (random w (random_draws w) * 30) + 10))
                 (inject_Z (JS.Math_floor (random w (S (random_draws w)) * 40) + 30))
                 (inject_Z (JS.Math_floor (random w (S (S (random_draws w))) * 20) + 20))
                 (clock w (clock_reads w))) /\
    mb_perf_requestCount (res_body resp) = requestCount (serverMetrics w) /\
    mb_perf_averageResponseTime (res_body resp) =
      (if 0 <? responseTimeCount (serverMetrics w)
       then JS.Math_round (inject_Z (totalResponseTime (serverMetrics w)) /
                           inject_Z (responseTimeCount (serverMetrics w)))
       else 0) /\
    mb_uptime_startTime (res_body resp) = startTime (serverMetrics w).
Proof.
  unfold get_api_metrics, getSystemHealth, checkDockerStatus, getUptime.
  run_handler_code.
  eexists _, _. split; [reflexivity |].
  repeat split.
Qed.

(** X4: answered in the same world, GET /api/status and GET /api/metrics
    agree on docker: the first says ["online"] exactly when the second
    says ["running"], which is exactly when the container count, the
    same in both, is positive; and the count of /api/metrics is the
    length of the list it returns. *)
Theorem docker_fields_agree (w : World) :
  exists (s : Response StatusBody) (m : Response MetricsBody) (w1 w2 : World),
    get_api_status w = Some (s, w1) /\
    get_api_metrics w = Some (m, w2) /\
    sb_docker_containers (res_body s) = mb_dock_containerCount (res_body m) /\
    mb_dock_containerCount (res_body m) = length (mb_dock_containers (res_body m)) /\
    (sb_docker_status (res_body s) = "online"%string <->
       (0 < sb_docker_containers (res_body s))%nat) /\
    (mb_dock_status (res_body m) = "running"%string <->
       (0 < mb_dock_containerCount (res_body m))%nat) /\
    (sb_docker_status (res_body s) = "online"%string \/
     sb_docker_status (res_body s) = "offline"%string) /\
    (mb_dock_status (res_body m) = "running"%string \/
     mb_dock_status (res_body m) = "stopped"%string).
Proof.
  destruct (get_api_status_fields w) as (s & w1 & Hs & Hds & Hdc & _).
  destruct (get_api_metrics_fields w) as (m & w2 & Hm & Hms & Hmc & Hml & _).
  exists s, m, w1, w2.
  destruct (summary_counts (docker_ps w)) as [Hlen Hrun].
  rewrite Hds, Hdc, Hms, Hmc, Hml.
  split; [exact Hs |]. split; [exact Hm |].
  split; [reflexivity |]. split; [exact Hlen |].
  destruct (running (docker_summary (docker_ps w))) eqn:E.
  - assert (0 < containerCount (docker_summary (docker_ps w)))%nat
      by (apply Hrun; reflexivity).
    repeat split; auto.
  - assert (~ (0 < containerCount (docker_summary (docker_ps w)))%nat)
      by (intros H; apply Hrun in H; discriminate).
    repeat split; try discriminate; try contradiction; auto.
Qed.

Lemma drawn_sample_healthy (w : World) :
  random_in_unit w ->
  healthy (sample_of
             (inject_Z (JS.Math_floor (random w (random_draws w) * 30) + 10))
             (inject_Z (JS.Math_floor (random w (S (random_draws w)) * 40) + 30))
             (inject_Z (JS.Math_floor (random w (S (S (random_draws w))) * 20) + 20))
             (clock w (clock_reads w))) = true.
Proof.
  intros Hr.
  destruct (Hr (random_draws w)) as [Ha0 Ha1].
  destruct (Hr (S (random_draws w))) as [Hb0 Hb1].
  destruct (Hr (S (S (random_draws w)))) as [Hc0 Hc1].
  pose proof (floor_scaled_draw _ 30 ltac:(lia) Ha0 Ha1) as Hcpu.
  pose proof (floor_scaled_draw _ 40 ltac:(lia) Hb0 Hb1) as Hmem.
  pose proof (floor_scaled_draw _ 20 ltac:(lia) Hc0 Hc1) as Hdisk.
  change (inject_Z 30) with 30%Q in Hcpu.
  change (inject_Z 40) with 40%Q in Hmem.
  change (inject_Z 20) with 20%Q in Hdisk.
  apply healthy_sample_of.
  change 80%Q with (inject_Z 80). change 85%Q with (inject_Z 85).
  change 90%Q with (inject_Z 90).
  rewrite <- !Zlt_Qlt. lia.
Qed.

(** X5: with random draws in [0, 1), GET /api/status always reports the
    health check as ["online"], never ["degraded"], and GET /api/metrics
    always reports [healthy: true]. *)
Theorem health_never_degraded (w : World) :
  random_in_unit w ->
  exists (s : Response StatusBody) (m : Response MetricsBody) (w1 w2 : World),
    get_api_status w = Some (s, w1) /\
    get_api_metrics w = Some (m, w2) /\
    sb_healthCheck_status (res_body s) = "online"%string /\
    mb_system_healthy (res_body m) = true.
Proof.
  intros Hr.
  destruct (get_api_status_fields w) as (s & w1 & Hs & _ & _ & Hh & _).
  destruct (get_api_metrics_fields w) as (m & w2 & Hm & _ & _ & _ & Hmh & _).
  exists s, m, w1, w2. rewrite Hh, Hmh, (drawn_sample_healthy w Hr).
  repeat split; assumption.
Qed.

Lemma health_never_degraded_witness :
  exists (s : Response StatusBody) (w1 : World),
    get_api_status quiet_world = Some (s, w1) /\
    sb_healthCheck_status (res_body s) = "online"%string.
Proof.
  assert (Hr : random_in_unit quiet_world).
  { intros n. split; [discriminate | reflexivity]. }
  destruct (health_never_degraded quiet_world Hr)
    as (s & m & w1 & w2 & Hs & _ & Hh & _).
  exists s, w1. split; assumption.
Defined.

(** ** The rates as integers *)

Lemma Math_round_mono (a b : Q) : (a <= b)%Q -> JS.Math_round a <= JS.Math_round b.
Proof. intros H. unfold JS.Math_round. apply Qfloor_resp_le. lra. Qed.

Lemma Math_round_integer (z : Z) : JS.Math_round (inject_Z z) = z.
Proof.
  unfold JS.Math_round.
  pose proof (Qfloor_le (inject_Z z + (1 # 2))) as Hlo.
  pose proof (Qlt_floor (inject_Z z + (1 # 2))) as Hhi.
  set (f := Qfloor (inject_Z z + (1 # 2))) in *. clearbody f.
  assert (H1 : (inject_Z f < inject_Z z + inject_Z 1)%Q).
  { change (inject_Z 1) with 1%Q. lra. }
  assert (H2 : (inject_Z z < inject_Z (f + 1))%Q) by lra.
  rewrite <- inject_Z_plus in H1. rewrite <- Zlt_Qlt in H1, H2. lia.
Qed.

(** With a non-negative count below 2^48 the rate of the metrics lies
    between 0 and ten times the count. *)
Lemma metrics_rate_bounds (uptimeMs count : Z) :
  0 <= count < 2 ^ 48 ->
  exists rate : Z,
    metrics_requestsPerHour uptimeMs count = Some rate /\ 0 <= rate <= 10 * count.
Proof.
  intros Hc. rewrite metrics_requestsPerHour_total, hoursRunning_double.
  eexists. split; [reflexivity |].
  pose proof (metrics_divisor_floor (elapsedHours_double uptimeMs)) as Hfloor.
  set (hm := JS.Math_max (elapsedHours_double uptimeMs) tenth) in *.
  assert (Hhm0 : (0 < hm)%Q) by lra.
  assert (Hc0 : (0 <= inject_Z count)%Q).
  { change 0%Q with (inject_Z 0). rewrite <- Zle_Qle. lia. }
  assert (Hq0 : (0 <= inject_Z count / hm)%Q).
  { apply Qle_shift_div_l; [exact Hhm0 | lra]. }
  assert (Hq10 : (inject_Z count / hm <= inject_Z (10 * count))%Q).
  { apply Qle_shift_div_r; [exact Hhm0 |].
    rewrite inject_Z_mult. change (inject_Z 10) with 10%Q. nra. }
  split.
  - rewrite <- (Math_round_integer 0). apply Math_round_mono.
    apply double_nonnegative. exact Hq0.
  - rewrite <- (Math_round_integer (10 * count)). apply Math_round_mono.
    rewrite <- (double_integer (10 * count)) by lia.
    apply double_mono. exact Hq10.
Qed.

(** During the first six minutes the divisor is the double [0.1], and a
    count below 2^48 comes out multiplied by ten. *)
Lemma metrics_rate_early (uptimeMs count : Z) :
  uptimeMs <= 360000 -> 0 <= count < 2 ^ 48 ->
  metrics_requestsPerHour uptimeMs count = Some (10 * count).
Proof.
  intros Hu Hc. rewrite metrics_requestsPerHour_total, hoursRunning_double. f_equal.
  assert (Hle : Qle_bool (elapsedHours_double uptimeMs) tenth = true).
  { apply Qle_bool_iff. apply hoursRunning_early. exact Hu. }
  unfold JS.Math_max. rewrite Hle.
  assert (Hc0 : (0 <= inject_Z count)%Q).
  { change 0%Q with (inject_Z 0). rewrite <- Zle_Qle. lia. }
  assert (Hc48 : (inject_Z count <= inject_Z (2 ^ 48))%Q).
  { rewrite <- Zle_Qle. lia. }
  change (inject_Z (2 ^ 48)) with (281474976710656 # 1)%Q in Hc48.
  assert (Ht0 : (0 < tenth)%Q) by (rewrite tenth_value; reflexivity).
  assert (Hhi : (inject_Z count / tenth <= inject_Z (10 * count))%Q).
  { apply Qle_shift_div_r; [exact Ht0 |].
    rewrite inject_Z_mult. change (inject_Z 10) with 10%Q.
    pose proof tenth_floor. nra. }
  assert (Hlo : (inject_Z (20 * count - 1) * JS.pow2 (-1) <= inject_Z count / tenth)%Q).
  { apply Qle_shift_div_l; [exact Ht0 |].
    unfold Z.sub. rewrite inject_Z_plus, inject_Z_mult, inject_Z_opp.
    change (inject_Z 20) with 20%Q. change (inject_Z 1) with 1%Q.
    change (JS.pow2 (-1)) with (1 # 2)%Q. rewrite tenth_value. lra. }
  apply double_mono in Hhi. apply double_mono in Hlo.
  rewrite double_integer in Hhi by lia.
  rewrite double_fixed in Hlo by lia.
  set (d := JS.double (inject_Z count / tenth)) in *. clearbody d.
  unfold JS.Math_round.
  pose proof (Qfloor_le (d + (1 # 2))) as Hf1.
  pose proof (Qlt_floor (d + (1 # 2))) as Hf2.
  set (f := Qfloor (d + (1 # 2))) in *. clearbody f.
  change (JS.pow2 (-1)) with (1 # 2)%Q in Hlo.
  unfold Z.sub in Hlo. rewrite inject_Z_plus, inject_Z_mult, inject_Z_opp in Hlo.
  change (inject_Z 20) with 20%Q in Hlo. change (inject_Z 1) with 1%Q in Hlo.
  rewrite inject_Z_mult in Hhi. change (inject_Z 10) with 10%Q in Hhi.
  assert (H1 : (inject_Z f < inject_Z (10 * count) + inject_Z 1)%Q).
  { rewrite inject_Z_mult. change (inject_Z 10) with 10%Q. change (inject_Z 1) with 1%Q. lra. }
  assert (H2 : (inject_Z (10 * count) < inject_Z f + inject_Z 1)%Q).
  { rewrite inject_Z_plus in Hf2. rewrite inject_Z_mult.
    change (inject_Z 10) with 10%Q. change (inject_Z 1) with 1%Q in *. lra. }
  rewrite <- inject_Z_plus, <- Zlt_Qlt in H1, H2. lia.
Qed.

(** Once time has elapsed the rate of the status is not below the rate
    of the metrics: its divisor is not larger. *)
Lemma status_rate_above (uptimeMs count : Z) :
  0 < uptimeMs -> 0 <= count ->
  exists status_rate metrics_rate : Z,
    status_requestsPerHour uptimeMs count = Some status_rate /\
    metrics_requestsPerHour uptimeMs count = Some metrics_rate /\
    metrics_rate <= status_rate.
Proof.
  intros Hu Hc.
  rewrite status_requestsPerHour_total, metrics_requestsPerHour_total.
  assert (E : (0 <? uptimeMs) = true) by (apply Z.ltb_lt; exact Hu).
  rewrite E. eexists _, _. split; [reflexivity |]. split; [reflexivity |].
  apply Math_round_mono, double_mono.
  assert (Hh : (0 < JS.double (inject_Z uptimeMs / inject_Z ms_per_hour))%Q).
  { apply lt_spec. rewrite hoursRunning_sign. exact E. }
  set (h := JS.double (inject_Z uptimeMs / inject_Z ms_per_hour)) in *.
  destruct (max_spec h tenth) as (Hmax & _ & _).
  set (hm := JS.Math_max h tenth) in *.
  assert (Hc0 : (0 <= inject_Z count)%Q).
  { change 0%Q with (inject_Z 0). rewrite <- Zle_Qle. lia. }
  assert (Hhm : (0 < hm)%Q) by lra.
  apply Qle_shift_div_r; [exact Hhm |].
  assert (Hq : (0 <= inject_Z count / h)%Q).
  { apply Qle_shift_div_l; [exact Hh | lra]. }
  assert (Hqh : (inject_Z count / h * h == inject_Z count)%Q) by (field; lra).
  set (c := inject_Z count) in *. set (q := (c / h)%Q) in *. clearbody q c hm h.
  nra.
Qed.
(** The exact formula as an integer quotient, from six minutes on. *)
Lemma spec_rate_integer (uptimeMs count : Z) :
  360000 <= uptimeMs ->
  spec_requestsPerHour count (elapsedHours uptimeMs) =
  (2 * (3600000 * count) + uptimeMs) / (2 * uptimeMs).
Proof.
  intros Hu. assert (Hpos : 0 < uptimeMs) by lia.
  rewrite <- (round_quotient (3600000 * count) uptimeMs Hpos).
  unfold spec_requestsPerHour, JS.Math_round. cbv zeta.
  destruct (Qlt_le_dec (elapsedHours uptimeMs) (1 # 10)) as [L | L].
  - exfalso. unfold elapsedHours, Qlt in L. simpl in L. lia.
  - apply Qfloor_comp. rewrite <- hours_as_fraction.
    assert (Hnz : ~ (inject_Z uptimeMs == 0)%Q) by (apply inject_Z_nonzero; lia).
    rewrite inject_Z_mult.
    change (inject_Z ms_per_hour) with (inject_Z 3600000).
    change (inject_Z 3600000) with (3600000 # 1)%Q.
    field. exact Hnz.
Qed.

(** X6: the rate of GET /api/metrics as an integer, for a count from 0
    to below 2^48: it lies between 0 and ten times the count; during the
    first six minutes (360000 ms) it is ten times the count; afterwards
    it is within 1 of the integer nearest to [3600000 * count /
    uptimeMs], which it need not be (7 requests after 2016000 ms give 12,
    the quotient being 12.5). *)
Theorem metrics_rate_bounded (uptimeMs count : Z) :
  0 <= count < 2 ^ 48 ->
  exists rate : Z,
    metrics_requestsPerHour uptimeMs count = Some rate /\
    0 <= rate <= 10 * count /\
    (uptimeMs <= 360000 -> rate = 10 * count) /\
    (360000 <= uptimeMs ->
       2 * (3600000 * count) - 3 * uptimeMs < 2 * uptimeMs * rate
         <= 2 * (3600000 * count) + 3 * uptimeMs) /\
    metrics_requestsPerHour 2016000 7 = Some 12.
Proof.
  intros Hc.
  destruct (metrics_rate_bounds uptimeMs count Hc) as (rate & Hrate & Hbounds).
  exists rate. split; [exact Hrate |]. split; [exact Hbounds |].
  split; [| split; [| vm_compute; reflexivity]].
  - intros Hearly. rewrite (metrics_rate_early uptimeMs count Hearly Hc) in Hrate.
    congruence.
  - intros Hlate.
    destruct (metrics_near_exact uptimeMs count Hc) as (rate' & Hrate' & Hnear).
    assert (rate' = rate) as -> by congruence.
    rewrite (spec_rate_integer uptimeMs count Hlate) in Hnear.
    pose proof (Z.mul_div_le (2 * (3600000 * count) + uptimeMs) (2 * uptimeMs)
                             ltac:(lia)) as Hlo.
    pose proof (Z.mul_succ_div_gt (2 * (3600000 * count) + uptimeMs)
                                  (2 * uptimeMs) ltac:(lia)) as Hhi.
    set (nearest := (2 * (3600000 * count) + uptimeMs) / (2 * uptimeMs)) in *.
    nia.
Qed.

Lemma metrics_rate_bounded_witness :
  exists rate : Z,
    metrics_requestsPerHour 1000 7 = Some rate /\ rate = 10 * 7 /\ 0 <= rate <= 10 * 7.
Proof.
  destruct (metrics_rate_bounded 1000 7 ltac:(lia)) as (rate & Hrate & Hbound & Hearly & _).
  exists rate. split; [exact Hrate |]. split; [apply Hearly; lia | exact Hbound].
Defined.

(** X7: the rate of GET /api/status against the rate that GET
    /api/metrics computes from the same numbers.  When no time has
    elapsed it is 0, and there it is below the rate of the metrics, ten
    times the count (5 requests: 0 and 50).  Once time has elapsed and
    the count is not negative it is not below the rate of the metrics,
    and it has no limit in terms of the count: 1 request after 1 ms
    gives 3600000. *)
Theorem status_rate_not_below_metrics (uptimeMs count : Z) :
  exists status_rate metrics_rate : Z,
    status_requestsPerHour uptimeMs count = Some status_rate /\
    metrics_requestsPerHour uptimeMs count = Some metrics_rate /\
    (uptimeMs <= 0 -> status_rate = 0) /\
    (uptimeMs <= 0 -> 0 <= count < 2 ^ 48 -> metrics_rate = 10 * count) /\
    (0 < uptimeMs -> 0 <= count -> metrics_rate <= status_rate) /\
    (status_requestsPerHour 0 5 = Some 0 /\ metrics_requestsPerHour 0 5 = Some 50) /\
    status_requestsPerHour 1 1 = Some 3600000.
Proof.
  rewrite status_requestsPerHour_total, metrics_requestsPerHour_total.
  eexists _, _. split; [reflexivity |]. split; [reflexivity |].
  split; [| split; [| split; [| split; [split |]; vm_compute; reflexivity]]].
  - intros Hzero.
    assert (E : (0 <? uptimeMs) = false) by (apply Z.ltb_ge; exact Hzero).
    rewrite E. reflexivity.
  - intros Hzero Hc.
    pose proof (metrics_rate_early uptimeMs count ltac:(lia) Hc) as Hm.
    rewrite metrics_requestsPerHour_total in Hm. congruence.
  - intros Hpos Hc.
    destruct (status_rate_above uptimeMs count Hpos Hc) as (s & m & Hs & Hm & Hle).
    rewrite status_requestsPerHour_total in Hs.
    rewrite metrics_requestsPerHour_total in Hm.
    injection Hs as <-. injection Hm as <-. exact Hle.
Qed.

Lemma status_rate_not_below_metrics_witness :
  exists status_rate metrics_rate : Z,
    status_requestsPerHour 1 1 = Some status_rate /\
    metrics_requestsPerHour 1 1 = Some metrics_rate /\
    metrics_rate <= status_rate.
Proof.
  destruct (status_rate_not_below_metrics 1 1)
    as (s & m & Hs & Hm & _ & _ & Hle & _).
  exists s, m. split; [exact Hs |]. split; [exact Hm |].
  apply Hle; lia.
Defined.

(** ** More on the counters of the running server *)

Lemma started_balance (w0 : World) :
  exists s0 : Server,
    started w0 = Some s0 /\ server_balance s0 /\
    startTime (serverMetrics (world s0)) = clock w0 (clock_reads w0) /\
    requestCount (serverMetrics (world s0)) = 0 /\
    totalResponseTime (serverMetrics (world s0)) = 0 /\
    responseTimeCount (serverMetrics (world s0)) = 0.
Proof.
  eexists. split; [reflexivity |]. unfold server_balance. cbn.
  rewrite map_size_empty. repeat split.
  intros request start Hin. rewrite lookup_empty in Hin. discriminate.
Qed.

Lemma step_balance (e : Event) (s s' : Server) :
  server_balance s -> step e s = Some s' ->
  server_balance s' /\
  startTime (serverMetrics (world s')) = startTime (serverMetrics (world s)) /\
  requestCount (serverMetrics (world s'))
    = requestCount (serverMetrics (world s)) + (if is_arrival e then 1 else 0) /\
  responseTimeCount (serverMetrics (world s'))
    = responseTimeCount (serverMetrics (world s)) + (if is_completion e then 1 else 0).
Proof.
  intros [Hgap Hold] Hstep. unfold server_balance.
  destruct e as [| h | request].
  - rewrite step_arrive in Hstep. injection Hstep as <-. cbn.
    assert (Hfresh : in_flight s !! arrivals s = None).
    { destruct (in_flight s !! arrivals s) as [start |] eqn:E; [| reflexivity].
      apply Hold in E. lia. }
    rewrite (map_size_insert_None _ _ _ Hfresh).
    repeat split; try lia.
    intros request start Hin.
    destruct (decide (arrivals s = request)) as [Heq | Hne]; [lia |].
    rewrite lookup_insert_ne in Hin by exact Hne.
    apply Hold in Hin. lia.
  - destruct (step_answer h s) as (w' & Hrun & Hm & _).
    rewrite Hrun in Hstep. injection Hstep as <-. cbn. rewrite Hm.
    repeat split; try lia. exact Hold.
  - rewrite step_finish in Hstep.
    destruct (in_flight s !! request) as [start |] eqn:Hin; [| discriminate].
    injection Hstep as <-. cbn.
    rewrite map_size_delete, Hin.
    assert (size (in_flight s) <> 0%nat).
    { apply map_size_non_empty_iff. intros Hempty.
      rewrite Hempty, lookup_empty in Hin. discriminate. }
    repeat split; try lia.
    intros request' start' Hin'.
    destruct (decide (request = request')) as [Heq | Hne].
    + subst request'. rewrite lookup_delete_eq in Hin'. discriminate.
    + rewrite lookup_delete_ne in Hin' by exact Hne. exact (Hold _ _ Hin').
Qed.

Lemma run_balance (events : list Event) :
  forall s s' : Server,
    server_balance s -> run events s = Some s' ->
    server_balance s' /\
    startTime (serverMetrics (world s')) = startTime (serverMetrics (world s)) /\
    requestCount (serverMetrics (world s'))
      = requestCount (serverMetrics (world s))
        + Z.of_nat (length (List.filter is_arrival events)) /\
    responseTimeCount (serverMetrics (world s'))
      = responseTimeCount (serverMetrics (world s))
        + Z.of_nat (length (List.filter is_completion events)).
Proof.
  induction events as [| e rest IH]; intros s s' Hbal Hrun.
  - injection Hrun as <-. cbn. split; [exact Hbal |]. repeat split; lia.
  - cbn [run] in Hrun. destruct (step e s) as [s1 |] eqn:Hstep; [| discriminate].
    cbn in Hrun.
    destruct (step_balance e s s1 Hbal Hstep) as (Hbal1 & Hst1 & Hrc1 & Hrt1).
    destruct (IH s1 s' Hbal1 Hrun) as (Hbal' & Hst' & Hrc' & Hrt').
    split; [exact Hbal' |]. cbn [List.filter].
    destruct e; cbn [is_arrival is_completion length] in *; repeat split; lia.
Qed.

(** X8: in every state the server reaches, [requestCount] is
    [responseTimeCount] plus the number of requests whose response has
    not finished yet, and [startTime] is still the instant read at
    process start. *)
Theorem unfinished_requests_balance (w0 : World) (s : Server) :
  reachable w0 s ->
  requestCount (serverMetrics (world s))
    = responseTimeCount (serverMetrics (world s)) + Z.of_nat (size (in_flight s)) /\
  startTime (serverMetrics (world s)) = clock w0 (clock_reads w0).
Proof.
  intros [events Hrun].
  destruct (started_balance w0) as (s0 & Hs0 & Hbal & Hstart & _).
  rewrite Hs0 in Hrun. cbn in Hrun.
  destruct (run_balance events s0 s Hbal Hrun) as ([Hgap _] & Hst & _).
  split; [exact Hgap | congruence].
Qed.

Lemma unfinished_requests_balance_witness :
  exists s : Server,
    (s0 ← started quiet_world; run [Arrive; Arrive; Finish 0%nat] s0) = Some s /\
    requestCount (serverMetrics (world s))
      = responseTimeCount (serverMetrics (world s)) + Z.of_nat (size (in_flight s)).
Proof.
  eexists. split; [vm_compute; reflexivity |].
  apply (unfinished_requests_balance quiet_world).
  exists [Arrive; Arrive; Finish 0%nat]. vm_compute. reflexivity.
Defined.

(** X9: after any trace that the server can run from its start,
    [requestCount] is the number of arrivals in the trace and
    [responseTimeCount] the number of completions, whatever handlers ran
    in between. *)
Theorem counters_count_events (w0 : World) (events : list Event) (s : Server) :
  (s0 ← started w0; run events s0) = Some s ->
  requestCount (serverMetrics (world s))
    = Z.of_nat (length (List.filter is_arrival events)) /\
  responseTimeCount (serverMetrics (world s))
    = Z.of_nat (length (List.filter is_completion events)).
Proof.
  intros Hrun.
  destruct (started_balance w0) as (s0 & Hs0 & Hbal & _ & Hrc & _ & Hrt).
  rewrite Hs0 in Hrun. cbn in Hrun.
  destruct (run_balance events s0 s Hbal Hrun) as (_ & _ & Hrc' & Hrt').
  lia.
Qed.

Lemma counters_count_events_witness :
  exists s : Server,
    (s0 ← started quiet_world;
     run [Arrive; Answer HHealth; Arrive; Finish 1%nat; Answer HMetrics] s0) = Some s /\
    requestCount (serverMetrics (world s)) = 2 /\
    responseTimeCount (serverMetrics (world s)) = 1.
Proof.
  eexists. split; [vm_compute; reflexivity |].
  apply (counters_count_events quiet_world
           [Arrive; Answer HHealth; Arrive; Finish 1%nat; Answer HMetrics]).
  vm_compute. reflexivity.
Defined.

(** X10: answering a request, by any of the handlers of /health,
    /api/status, /api/metrics and of the 404, always succeeds and changes
    neither [serverMetrics] nor the set of unfinished requests. *)
Theorem answering_reads_only (h : Handler) (s : Server) :
  exists s' : Server,
    step (Answer h) s = Some s' /\
    serverMetrics (world s') = serverMetrics (world s) /\
    in_flight s' = in_flight s.
Proof.
  destruct (step_answer h s) as (w' & Hstep & Hm & _).
  eexists. split; [exact Hstep |]. split; [exact Hm | reflexivity].
Qed.

Lemma run_total_grows (w0 : World) (events : list Event) :
  clock_monotone w0 ->
  forall s s' : Server,
    server_invariant w0 s -> run events s = Some s' ->
    totalResponseTime (serverMetrics (world s))
      <= totalResponseTime (serverMetrics (world s')).
Proof.
  intros Hmono. induction events as [| e rest IH]; intros s s' Hinv Hrun.
  - injection Hrun as <-. lia.
  - cbn [run] in Hrun. destruct (step e s) as [s1 |] eqn:Hstep; [| discriminate].
    cbn in Hrun.
    destruct (step_counters_grow w0 e s s1 Hmono Hinv Hstep) as (_ & Ht & _).
    pose proof (IH s1 s' (step_invariant w0 e s s1 Hinv Hstep) Hrun). lia.
Qed.

(** X11: when the wall clock does not run backwards, the average
    response time is never negative in a state the server reaches, and
    it is 0 as long as no response has finished. *)
Theorem average_never_negative (w0 : World) (s : Server) :
  clock_monotone w0 ->
  reachable w0 s ->
  exists avg : Z,
    getAverageResponseTime (world s) = Some (avg, world s) /\
    0 <= avg /\
    (responseTimeCount (serverMetrics (world s)) = 0 -> avg = 0).
Proof.
  intros Hmono Hreach.
  pose proof (reachable_invariant w0 s Hreach) as (_ & Hpos & _).
  assert (Htotal : 0 <= totalResponseTime (serverMetrics (world s))).
  { destruct Hreach as [events Hrun].
    destruct (started_invariant w0) as (s0 & Hs0 & Hinv).
    destruct (started_balance w0) as (s0' & Hs0' & _ & _ & _ & Hzero & _).
    assert (s0' = s0) as -> by congruence.
    rewrite Hs0 in Hrun. cbn in Hrun.
    pose proof (run_total_grows w0 events Hmono s0 s Hinv Hrun). lia. }
  rewrite getAverageResponseTime_run. eexists. split; [reflexivity |].
  destruct (0 <? responseTimeCount (serverMetrics (world s))) eqn:E.
  - apply Z.ltb_lt in E. split; [| lia].
    rewrite round_quotient by exact E. apply Z.div_pos; lia.
  - split; [lia | reflexivity].
Qed.

Lemma average_never_negative_witness :
  exists (s : Server) (avg : Z),
    (s0 ← started quiet_world; run [Arrive; Arrive; Finish 0%nat] s0) = Some s /\
    getAverageResponseTime (world s) = Some (avg, world s) /\ 0 <= avg.
Proof.
  assert (Hmono : clock_monotone quiet_world).
  { intros i j Hij. cbn. lia. }
  eexists. 
  edestruct (average_never_negative quiet_world) as (avg & Hrun & Hpos & _);
    [exact Hmono | exists [Arrive; Arrive; Finish 0%nat]; vm_compute; reflexivity |].
  exists avg. split; [vm_compute; reflexivity |]. split; [exact Hrun | exact Hpos].
Defined.

(** ** More on the uptime text *)

Lemma append_cancel_l (p a b : string) : (p ++ a = p ++ b)%string -> a = b.
Proof.
  induction p as [| c p IH]; simpl; [tauto |].
  intros [= H]. exact (IH H).
Qed.

Lemma append_length (a b : string) :
  String.length (a ++ b) = (String.length a + String.length b)%nat.
Proof.
  induction a as [| c a IH]; simpl; [reflexivity | rewrite IH; reflexivity].
Qed.

Lemma append_cancel_r (a b s : string) : (a ++ s = b ++ s)%string -> a = b.
Proof.
  revert b. induction a as [| c a IH]; intros [| d b] H.
  - reflexivity.
  - exfalso. apply (f_equal String.length) in H.
    rewrite !append_length in H. simpl in H. lia.
  - exfalso. apply (f_equal String.length) in H.
    rewrite !append_length in H. simpl in H. lia.
  - simpl in H. injection H as -> H. f_equal. exact (IH b H).
Qed.

Lemma show_injective (a b : Z) : 0 <= a -> 0 <= b -> JS.show a = JS.show b -> a = b.
Proof.
  intros Ha Hb H.
  destruct (show_nonneg a Ha) as (_ & _ & _ & Pa).
  destruct (show_nonneg b Hb) as (_ & _ & _ & Pb).
  rewrite H in Pa. rewrite Pa in Pb. injection Pb as E.
  rewrite <- (DecimalZ.of_to a), <- (DecimalZ.of_to b), E. reflexivity.
Qed.

Lemma minutes_of_quotients (e : Z) :
  0 <= e ->
  e / 60000 = 60 * (e / 3600000) + (e mod 3600000) / 60000 /\
  0 <= (e mod 3600000) / 60000 < 60.
Proof.
  intros He.
  pose proof (Z.div_mod e 3600000 ltac:(lia)) as Hdm.
  pose proof (Z.mod_pos_bound e 3600000 ltac:(lia)) as Hr.
  split.
  - rewrite Hdm at 1.
    replace (3600000 * (e / 3600000) + e mod 3600000)
      with (60 * (e / 3600000) * 60000 + e mod 3600000) by lia.
    rewrite Z.div_add_l by lia. reflexivity.
  - split; [apply Z.div_pos; lia |].
    apply Z.div_lt_upper_bound; lia.
Qed.

(** X12: for non-negative elapsed times the uptime text tells the whole
    minutes elapsed and nothing more: two elapsed times give the same
    text exactly when they contain the same number of whole minutes. *)
Theorem uptime_text_tells_minutes (a b : Z) :
  0 <= a -> 0 <= b ->
  (uptimeString a = uptimeString b <-> a / 60000 = b / 60000).
Proof.
  intros Ha Hb.
  destruct (minutes_of_quotients a Ha) as [Hqa Hma].
  destruct (minutes_of_quotients b Hb) as [Hqb Hmb].
  assert (Hha : 0 <= a / 3600000) by (apply Z.div_pos; lia).
  assert (Hhb : 0 <= b / 3600000) by (apply Z.div_pos; lia).
  split.
  - intros Htext.
    assert (Hh : a / 3600000 = b / 3600000).
    { rewrite <- (hour_component_uptime a Ha), <- (hour_component_uptime b Hb), Htext.
      reflexivity. }
    rewrite !uptimeString_quotients in Htext. cbv zeta in Htext.
    change ms_per_hour with 3600000 in Htext.
    change ms_per_minute with 60000 in Htext.
    rewrite !Z.rem_mod_nonneg in Htext by lia.
    rewrite <- Hh in Htext.
    assert (Hm : (a mod 3600000) / 60000 = (b mod 3600000) / 60000).
    { destruct (0 <? a / 3600000).
      - apply append_cancel_l, append_cancel_l, append_cancel_r in Htext.
        apply show_injective; lia || exact Htext.
      - apply append_cancel_r in Htext. apply show_injective; lia || exact Htext. }
    lia.
  - intros Hq.
    assert (Hh : a / 3600000 = b / 3600000).
    { pose proof (Z.div_div a 60000 60 ltac:(lia) ltac:(lia)) as Da.
      pose proof (Z.div_div b 60000 60 ltac:(lia) ltac:(lia)) as Db.
      change (60000 * 60) with 3600000 in Da, Db. congruence. }
    rewrite !uptimeString_quotients. cbv zeta.
    change ms_per_hour with 3600000. change ms_per_minute with 60000.
    rewrite !Z.rem_mod_nonneg by lia.
    assert (Hm : (a mod 3600000) / 60000 = (b mod 3600000) / 60000) by lia.
    rewrite Hh, Hm. reflexivity.
Qed.

Lemma uptime_text_tells_minutes_witness :
  uptimeString 5400000 = uptimeString 5459999.
Proof.
  apply (uptime_text_tells_minutes 5400000 5459999); [lia | lia | reflexivity].
Defined.

(** X13: for a negative elapsed time (the clock was set back behind the
    start) the uptime text never has an hour part: it is ["{m}m"] for a
    minute count [m] between -60 and 0, so whole hours are lost and one
    hour back reads ["0m"]. *)
Theorem negative_uptime_shows_minutes_only (elapsed : Z) :
  elapsed < 0 ->
  exists minutes : Z,
    -60 <= minutes <= 0 /\
    uptimeString elapsed = (JS.show minutes ++ "m")%string /\
    uptimeString (-3600000) = "0m"%string.
Proof.
  intros He. exists (Z.rem elapsed 3600000 / 60000).
  pose proof (Z.rem_bound_pos_neg elapsed 3600000 ltac:(lia) ltac:(lia)) as Hr.
  split.
  - split.
    + apply Z.div_le_lower_bound; lia.
    + apply Z.div_le_upper_bound; lia.
  - split; [| reflexivity].
    rewrite uptimeString_quotients. cbv zeta.
    change ms_per_hour with 3600000. change ms_per_minute with 60000.
    assert (E : (0 <? elapsed / 3600000) = false).
    { apply Z.ltb_ge.
      assert (elapsed / 3600000 < 0) by (apply Z.div_lt_upper_bound; lia). lia. }
    rewrite E. reflexivity.
Qed.

Lemma negative_uptime_shows_minutes_only_witness :
  exists minutes : Z,
    -60 <= minutes <= 0 /\ uptimeString (-7260000) = (JS.show minutes ++ "m")%string.
Proof.
  destruct (negative_uptime_shows_minutes_only (-7260000) ltac:(lia))
    as (m & Hm & Htext & _).
  exists m. split; assumption.
Defined.

(** ** GET /api/containers *)

Section ContainersFacts.

Context {Json : Type}.
Variable JSON_parse : string -> string + Json.
Variable State : Json -> string + option string.

Lemma parse_lines_length (lines : list string) (cs : list Json) :
  parse_lines JSON_parse lines = inr cs -> length cs = length lines.
Proof.
  revert cs. induction lines as [| line rest IH]; intros cs H; cbn in H.
  - injection H as <-. reflexivity.
  - destruct (JSON_parse line) as [msg | c]; [discriminate |].
    destruct (parse_lines JSON_parse rest) as [msg | cs']; [discriminate |].
    injection H as <-. cbn. rewrite (IH cs' eq_refl). reflexivity.
Qed.

Lemma parse_lines_all (lines : list string) (cs : list Json) :
  parse_lines JSON_parse lines = inr cs ->
  Forall2 (fun line c => JSON_parse line = inr c) lines cs.
Proof.
  revert cs. induction lines as [| line rest IH]; intros cs H; cbn in H.
  - injection H as <-. constructor.
  - destruct (JSON_parse line) as [msg | c] eqn:E; [discriminate |].
    destruct (parse_lines JSON_parse rest) as [msg | cs']; [discriminate |].
    injection H as <-. constructor; [exact E | apply IH; reflexivity].
Qed.

Lemma parse_lines_failure (lines : list string) (line message : string) :
  line ∈ lines -> JSON_parse line = inl message ->
  exists message', parse_lines JSON_parse lines = inl message'.
Proof.
  induction 1 as [line rest | line other rest Hin IH]; intros Hbad; cbn.
  - rewrite Hbad. eauto.
  - destruct (JSON_parse other) as [msg | c]; [eauto |].
    destruct (IH Hbad) as [message' ->]. eauto.
Qed.

Lemma count_running_bound (cs : list Json) (n : nat) :
  count_running State cs = inr n -> (n <= length cs)%nat.
Proof.
  revert n. induction cs as [| c rest IH]; intros n H; cbn in H.
  - injection H as <-. cbn. lia.
  - destruct (State c) as [msg | state]; [discriminate |].
    destruct (count_running State rest) as [msg | k]; [discriminate |].
    specialize (IH k eq_refl). injection H as <-. cbn.
    destruct state as [text |]; [destruct (String.eqb text "running") |]; lia.
Qed.

(** X14: GET /api/containers always answers, with 200 or with 500.  With
    200 its [total] is the number of containers it lists, which is the
    number of non-blank lines of the output (the first line included),
    each container is the parsed value of its line, and [running] never
    exceeds [total].  With 500 the error field is ["Failed to fetch
    containers"]. *)
Theorem containers_listing_counts (r : ExecResult) (w : World) :
  exists (resp : Response (ErrorBody + ContainersBody)) (w' : World),
    get_api_containers JSON_parse State r w = Some (resp, w') /\
    ((res_status resp = 200 /\
      exists (b : ContainersBody) (stdout : string),
        res_body resp = inr b /\ r = Resolved stdout /\
        cb_total b = length (cb_containers b) /\
        Forall2 (fun line c => JSON_parse line = inr c)
                (List.filter (fun line => Str.truthy (Str.trim line))
                             (Str.split Str.newline stdout))
                (cb_containers b) /\
        (cb_running b <= cb_total b)%nat) \/
     (res_status resp = 500 /\
      exists b : ErrorBody,
        res_body resp = inl b /\
        eb_error b = "Failed to fetch containers"%string)).
Proof.
  unfold get_api_containers.
  destruct (list_containers JSON_parse State r) as [message | [cs n]] eqn:E.
  - eexists _, _. split; [reflexivity |]. right.
    split; [reflexivity |]. eexists. split; reflexivity.
  - eexists _, _. split; [reflexivity |]. left.
    split; [reflexivity |].
    unfold list_containers in E.
    destruct r as [stdout | message]; [| discriminate].
    destruct (parse_lines JSON_parse _) as [msg | cs'] eqn:Ep; [discriminate |].
    destruct (count_running State cs') as [msg | k] eqn:Ec; [discriminate |].
    injection E as <- <-.
    exists (mkContainersBody cs' (length cs') k (clock w (clock_reads w))), stdout.
    cbn. split; [reflexivity |]. split; [reflexivity |]. split; [reflexivity |].
    split; [exact (parse_lines_all _ _ Ep) | exact (count_running_bound _ _ Ec)].
Qed.

(** X15: GET /api/containers does not degrade: a failed call gives 500
    with the message of the failure, and so does a single line that
    [JSON.parse] rejects, however many other lines are well formed. *)
Theorem containers_listing_all_or_nothing (r : ExecResult) (w : World) :
  (forall message : string,
     r = Rejected message ->
     exists (stamp : Z) (w' : World),
       get_api_containers JSON_parse State r w =
       Some (mkResponse 500
               (inl (mkErrorBody "Failed to fetch containers" message stamp)), w')) /\
  (forall stdout line message : string,
     r = Resolved stdout ->
     line ∈ Str.split Str.newline stdout ->
     Str.trim line <> EmptyString ->
     JSON_parse line = inl message ->
     exists (message' : string) (stamp : Z) (w' : World),
       get_api_containers JSON_parse State r w =
       Some (mkResponse 500
               (inl (mkErrorBody "Failed to fetch containers" message' stamp)), w')).
Proof.
  split.
  - intros message ->. eexists _, _. reflexivity.
  - intros stdout line message -> Hin Hblank Hbad.
    assert (Hline : line ∈ List.filter (fun line => Str.truthy (Str.trim line))
                                       (Str.split Str.newline stdout)).
    { apply list_elem_of_In, filter_In. split; [apply list_elem_of_In; exact Hin |].
      destruct (Str.trim line); [contradiction | reflexivity]. }
    destruct (parse_lines_failure _ _ _ Hline Hbad) as [message' Hfail].
    unfold get_api_containers, list_containers. rewrite Hfail.
    eexists _, _, _. reflexivity.
Qed.

End ContainersFacts.

Lemma containers_listing_all_or_nothing_witness :
  exists (message : string) (stamp : Z) (w' : World),
    get_api_containers
      (fun line => if String.eqb line "{}" then inr line else inl line)
      (fun _ : string => inr None)
      (Resolved (String.concat (String Str.newline EmptyString) ["{}"; "oops"; "{}"])%string)
      quiet_world
    = Some (mkResponse 500
              (inl (mkErrorBody "Failed to fetch containers" message stamp)), w').
Proof.
  destruct (containers_listing_all_or_nothing
              (fun line => if String.eqb line "{}" then inr line else inl line)
              (fun _ : string => inr None)
              (Resolved (String.concat (String Str.newline EmptyString)
                           ["{}"; "oops"; "{}"])%string)
              quiet_world) as [_ Hline].
  apply (Hline _ "oops"%string "oops"%string eq_refl).
  - vm_compute. apply list_elem_of_further, list_elem_of_here.
  - discriminate.
  - reflexivity.
Defined.

(** ** The route table *)

Lemma strip_prefix_comparable (r1 r2 p t1 t2 : string) :
  Router.strip_prefix r1 p = Some t1 ->
  Router.strip_prefix r2 p = Some t2 ->
  Router.strip_prefix r1 r2 <> None \/ Router.strip_prefix r2 r1 <> None.
Proof.
  revert r2 p. induction r1 as [| a r1 IH]; intros r2 p H1 H2.
  - left. discriminate.
  - destruct r2 as [| b r2]; [right; discriminate |].
    destruct p as [| c p]; [discriminate |].
    cbn [Router.strip_prefix] in *.
    destruct (Ascii.eqb (Router.lower a) (Router.lower c)) eqn:Ea; [| discriminate].
    destruct (Ascii.eqb (Router.lower b) (Router.lower c)) eqn:Eb; [| discriminate].
    apply Ascii.eqb_eq in Ea, Eb.
    rewrite Ea, Eb, !Ascii.eqb_refl.
    exact (IH r2 p H1 H2).
Qed.

Lemma route_match_prefix (route path : string) :
  Router.route_match route path = true ->
  exists rest, Router.strip_prefix route path = Some rest.
Proof.
  unfold Router.route_match.
  destruct (Router.strip_prefix route path) as [rest |]; [eauto | discriminate].
Qed.

Lemma routes_exclusive (r1 r2 path : string) :
  Router.strip_prefix r1 r2 = None ->
  Router.strip_prefix r2 r1 = None ->
  Router.route_match r1 path = true ->
  Router.route_match r2 path = true -> False.
Proof.
  intros N1 N2 M1 M2.
  destruct (route_match_prefix _ _ M1) as [t1 H1].
  destruct (route_match_prefix _ _ M2) as [t2 H2].
  destruct (strip_prefix_comparable _ _ _ _ _ H1 H2); contradiction.
Qed.

Lemma not_found_only_under_api (url url' : string) :
  Router.dispatch_get url = Router.ApiNotFound url' ->
  exists rest, Router.strip_prefix "/api/" (Router.pathname url) = Some rest.
Proof.
  unfold Router.dispatch_get. cbv zeta.
  repeat (destruct (Router.route_match _ _); [discriminate |]).
  unfold Router.api_star_match.
  destruct (Router.strip_prefix "/api/" (Router.pathname url)) as [rest |];
    [eauto | discriminate].
Qed.

Ltac no_two_routes :=
  match goal with
  | H1 : Router.route_match ?r1 ?p = true,
    H2 : Router.route_match ?r2 ?p = true |- _ =>
      exfalso; exact (routes_exclusive r1 r2 p eq_refl eq_refl H1 H2)
  end.

Ltac past_the_routes :=
  match goal with
  | |- context [Router.api_star_match ?p] =>
      destruct (Router.api_star_match p) as [[? ?taken] |];
      [destruct (Router.has_percent taken);
       [| destruct (Router.trim_prefix _ _ _)] |]
  end.

(** X16: the order of registration shadows no route: a GET request is
    handed to the handler of /health, /api/status, /api/metrics,
    /api/containers or /api/system exactly when its pathname matches that
    route (in any letter case, with or without one trailing slash), and
    the not-found handler only ever sees requests whose pathname starts
    with [/api/] and matches none of them. *)
Theorem routes_not_shadowed (url : string) :
  let path := Router.pathname url in
  (Router.dispatch_get url = Router.Health <->
     Router.route_match "/health" path = true) /\
  (Router.dispatch_get url = Router.ApiStatus <->
     Router.route_match "/api/status" path = true) /\
  (Router.dispatch_get url = Router.ApiMetrics <->
     Router.route_match "/api/metrics" path = true) /\
  (Router.dispatch_get url = Router.ApiContainers <->
     Router.route_match "/api/containers" path = true) /\
  (Router.dispatch_get url = Router.ApiSystem <->
     Router.route_match "/api/system" path = true) /\
  (forall url' : string,
     Router.dispatch_get url = Router.ApiNotFound url' ->
     (exists rest, Router.strip_prefix "/api/" path = Some rest) /\
     Router.route_match "/api/status" path = false /\
     Router.route_match "/api/metrics" path = false /\
     Router.route_match "/api/containers" path = false /\
     Router.route_match "/api/system" path = false).
Proof.
  intros path.
  split; [| split; [| split; [| split; [| split]]]].
  6: { intros url' H. split; [exact (not_found_only_under_api url url' H) |].
       unfold Router.dispatch_get in H. cbv zeta in H. fold path in H.
       destruct (Router.route_match "/health" path); [discriminate |].
       destruct (Router.route_match "/api/status" path); [discriminate |].
       destruct (Router.route_match "/api/metrics" path); [discriminate |].
       destruct (Router.route_match "/api/containers" path); [discriminate |].
       destruct (Router.route_match "/api/system" path); [discriminate |].
       repeat split. }
  all: unfold Router.dispatch_get; cbv zeta; fold path;
    destruct (Router.route_match "/health" path) eqn:E1;
    destruct (Router.route_match "/api/status" path) eqn:E2;
    destruct (Router.route_match "/api/metrics" path) eqn:E3;
    destruct (Router.route_match "/api/containers" path) eqn:E4;
    destruct (Router.route_match "/api/system" path) eqn:E5;
    try no_two_routes;
    try (split; [reflexivity || discriminate | reflexivity || discriminate]);
    try (past_the_routes; split; discriminate).
Qed.

Lemma routes_not_shadowed_witness :
  Router.dispatch_get "/API/Status/?verbose=1" = Router.ApiStatus.
Proof.
  destruct (routes_not_shadowed "/API/Status/?verbose=1") as (_ & Hstatus & _).
  apply Hstatus. reflexivity.
Defined.

(** ** The dashboard: status indicators *)

Lemma health_indicator_online (f : Fetched) :
  health_indicator f = "online"%string <-> f = Answered 200.
Proof.
  destruct f as [status |]; cbn; [| split; discriminate].
  unfold response_ok.
  destruct (status =? 200) eqn:E.
  - apply Z.eqb_eq in E. subst status. split; reflexivity.
  - rewrite andb_false_r. split; [discriminate |].
    intros [= ->]. discriminate.
Qed.

(** X17: the health indicator of the dashboard is ["online"] exactly
    when the fetch is answered with status 200; read against GET
    /health of the backend it is ["online"] exactly for a healthy
    sample, hence always with random draws in [0, 1). *)
Theorem health_indicator_follows_sample :
  (forall f : Fetched, health_indicator f = "online"%string <-> f = Answered 200) /\
  (forall h : HealthSample,
     health_indicator (Answered (res_status (health_response h)))
     = (if healthy h then "online" else "offline")%string) /\
  (forall w : World,
     random_in_unit w ->
     exists (resp : Response HealthBody) (w' : World),
       get_health w = Some (resp, w') /\
       health_indicator (Answered (res_status resp)) = "online"%string).
Proof.
  split; [exact health_indicator_online |]. split.
  - intros h. unfold health_response. cbn [res_status].
    destruct (healthy h); reflexivity.
  - intros w Hr. rewrite get_health_run, getSystemHealth_run.
    eexists _, _. split; [reflexivity |].
    unfold health_response. cbn [res_status].
    rewrite (drawn_sample_healthy w Hr). reflexivity.
Qed.

Lemma health_indicator_follows_sample_witness :
  exists (resp : Response HealthBody) (w' : World),
    get_health quiet_world = Some (resp, w') /\
    health_indicator (Answered (res_status resp)) = "online"%string.
Proof.
  destruct health_indicator_follows_sample as (_ & _ & Hdraw).
  apply (Hdraw quiet_world).
  intros n. split; [discriminate | reflexivity].
Defined.

(** ** The dashboard: figures *)

(** X18: with a random draw in [0, 1) the simulated request counter of
    the dashboard lies between 1100 and 1299. *)
Theorem simulated_requests_range (r : Q) :
  (0 <= r)%Q -> (r < 1)%Q -> 1100 <= simulated_requests r <= 1299.
Proof.
  intros H0 H1. unfold simulated_requests. cbv zeta.
  pose proof (floor_scaled_draw r 200 ltac:(lia) H0 H1) as H.
  change (inject_Z 200) with 200%Q in H. lia.
Qed.

Lemma simulated_requests_range_witness :
  1100 <= simulated_requests (999 # 1000) <= 1299.
Proof.
  apply simulated_requests_range; [discriminate | reflexivity].
Defined.

Lemma digits_of_uint (d : Decimal.uint) :
  digits_only (NilEmpty.string_of_uint d) = true.
Proof.
  induction d; simpl; [reflexivity | exact IHd ..].
Qed.

Lemma show_digits (n : Z) : 0 <= n -> digits_only (JS.show n) = true.
Proof.
  intros Hn. destruct (show_nonneg n Hn) as (d & _ & -> & _).
  apply digits_of_uint.
Qed.

(** Digits followed by something that is not a digit split in one way. *)
Lemma digits_then_other (x y : string) (c c' : ascii) (r r' : string) :
  digits_only x = true -> digits_only y = true ->
  is_digit c = false -> is_digit c' = false ->
  (x ++ String c r = y ++ String c' r')%string ->
  x = y /\ c = c' /\ r = r'.
Proof.
  revert y. induction x as [| a x IH]; intros [| b y] Hx Hy Hc Hc' H; simpl in *.
  - injection H as -> ->. repeat split.
  - injection H as -> _. apply andb_true_iff in Hy as [Hb _]. congruence.
  - injection H as -> _. apply andb_true_iff in Hx as [Ha _]. congruence.
  - injection H as -> H.
    apply andb_true_iff in Hx as [_ Hx]. apply andb_true_iff in Hy as [_ Hy].
    destruct (IH y Hx Hy Hc Hc' H) as (-> & -> & ->). repeat split.
Qed.

Lemma dashboard_uptime_quotients (uptime : Z) :
  0 <= uptime ->
  dashboard_uptime uptime =
  let hours := uptime / 3600000 in
  if 0 <? hours / 24
  then (JS.show (hours / 24) ++ "d " ++ JS.show (hours mod 24) ++ "h")%string
  else (JS.show hours ++ "h")%string.
Proof.
  intros Hu. unfold dashboard_uptime, JS.rem. cbv zeta.
  rewrite floor_quotient. change ms_per_hour with 3600000.
  change 24%Q with (inject_Z 24). rewrite floor_quotient.
  rewrite Z.rem_mod_nonneg by (try apply Z.div_pos; lia). reflexivity.
Qed.

(** X19: for non-negative elapsed times the uptime text of the dashboard
    tells the whole hours elapsed and nothing more: two elapsed times
    give the same text exactly when they contain the same number of
    whole hours; the text has a day part exactly from 24 hours on, and
    the hours shown beside the days are below 24. *)
Theorem dashboard_uptime_tells_hours (a b : Z) :
  0 <= a -> 0 <= b ->
  (dashboard_uptime a = dashboard_uptime b <-> a / 3600000 = b / 3600000) /\
  (86400000 <= a ->
     exists days hours : Z,
       1 <= days /\ 0 <= hours < 24 /\ days * 24 + hours = a / 3600000 /\
       dashboard_uptime a = (JS.show days ++ "d " ++ JS.show hours ++ "h")%string) /\
  (a < 86400000 -> dashboard_uptime a = (JS.show (a / 3600000) ++ "h")%string).
Proof.
  intros Ha Hb.
  assert (Hha : 0 <= a / 3600000) by (apply Z.div_pos; lia).
  assert (Hhb : 0 <= b / 3600000) by (apply Z.div_pos; lia).
  set (ha := a / 3600000) in *. set (hb := b / 3600000) in *.
  pose proof (Z.div_mod ha 24 ltac:(lia)) as Da.
  pose proof (Z.div_mod hb 24 ltac:(lia)) as Db.
  pose proof (Z.mod_pos_bound ha 24 ltac:(lia)) as Ma.
  pose proof (Z.mod_pos_bound hb 24 ltac:(lia)) as Mb.
  assert (Hda : 0 <= ha / 24) by (apply Z.div_pos; lia).
  assert (Hdb : 0 <= hb / 24) by (apply Z.div_pos; lia).
  rewrite !dashboard_uptime_quotients by assumption. cbv zeta. fold ha hb.
  split; [| split].
  - split.
    + intros Htext.
      destruct (0 <? ha / 24) eqn:Ea; destruct (0 <? hb / 24) eqn:Eb.
      * apply digits_then_other in Htext
          as (Hd & _ & Hrest); try (apply show_digits; lia); try reflexivity.
        injection Hrest as Hrest.
        apply append_cancel_r in Hrest.
        apply show_injective in Hd; [| lia | lia].
        apply show_injective in Hrest; lia.
      * apply digits_then_other in Htext
          as (_ & Hc & _); try (apply show_digits; lia); try reflexivity.
        discriminate Hc.
      * apply digits_then_other in Htext
          as (_ & Hc & _); try (apply show_digits; lia); try reflexivity.
        discriminate Hc.
      * apply append_cancel_r in Htext. apply show_injective; assumption.
    + intros ->. reflexivity.
  - intros Hday.
    assert (24 <= ha) by (subst ha; apply Z.div_le_lower_bound; lia).
    assert (Hd : 1 <= ha / 24) by (apply Z.div_le_lower_bound; lia).
    assert (E : (0 <? ha / 24) = true) by (apply Z.ltb_lt; lia).
    rewrite E. exists (ha / 24), (ha mod 24).
    repeat split; lia.
  - intros Hday.
    assert (ha < 24) by (subst ha; apply Z.div_lt_upper_bound; lia).
    assert (ha / 24 = 0) by (apply Z.div_small; lia).
    assert (E : (0 <? ha / 24) = false) by (apply Z.ltb_ge; lia).
    rewrite E. reflexivity.
Qed.

Lemma dashboard_uptime_tells_hours_witness :
  dashboard_uptime 90000000 = dashboard_uptime 93599999 /\
  dashboard_uptime 90000000 = "1d 1h"%string.
Proof.
  destruct (dashboard_uptime_tells_hours 90000000 93599999 ltac:(lia) ltac:(lia))
    as (Hsame & _).
  split; [apply Hsame; reflexivity | reflexivity].
Defined.

(** ** The mobile menu *)

Lemma toggle_synced (p : Page) (s : Nav) :
  has_navMenu p = true -> has_navToggle p = true ->
  nav_synced (toggleMobileMenu p s).
Proof.
  intros Hm Ht. unfold nav_synced, toggleMobileMenu. cbn.
  rewrite Hm, Ht. repeat split.
Qed.

Lemma nav_step_synced (p : Page) (e : NavEvent) (s s' : Nav) :
  has_navMenu p = true -> has_navToggle p = true ->
  nav_synced s -> nav_step p e s = Some s' -> nav_synced s'.
Proof.
  intros Hm Ht Hs Hstep.
  pose proof (toggle_synced p s Hm Ht) as Htoggled.
  destruct e as [| width | key | in_menu in_toggle | target]; cbn in Hstep.
  - rewrite Ht in Hstep. injection Hstep as <-. exact Htoggled.
  - injection Hstep as <-. unfold handleResize.
    destruct ((768 <? width) && isMenuOpen s); assumption.
  - injection Hstep as <-. unfold handleKeydown.
    destruct (String.eqb key "Escape" && isMenuOpen s); assumption.
  - unfold handleOutsideClick in Hstep. rewrite Hm, Ht in Hstep.
    destruct (isMenuOpen s), in_menu, in_toggle; cbn in Hstep;
      injection Hstep as <-; assumption.
  - destruct target; cbn in Hstep; [| | discriminate];
      injection Hstep as <-; [| assumption].
    destruct (isMenuOpen s); assumption.
Qed.

(** X20: on a page that has both the menu and its toggle, no listener
    raises, and the [active] classes of the two elements and the
    overflow style of the body keep saying what [isMenuOpen] says: every
    sequence of listener calls from a state where they agree ends in a
    state where they agree, and two toggles in a row restore such a
    state. *)
Theorem menu_stays_synced (p : Page) (events : list NavEvent) (s : Nav) :
  has_navMenu p = true -> has_navToggle p = true ->
  Forall (fun e => e <> AnchorClick InvalidSelector) events ->
  nav_synced s ->
  (exists s' : Nav, nav_run p events s = Some s' /\ nav_synced s') /\
  toggleMobileMenu p (toggleMobileMenu p s) = s.
Proof.
  intros Hm Ht Hvalid Hs. split.
  - revert s Hs. induction Hvalid as [| e rest He _ IH]; intros s Hs.
    + exists s. split; [reflexivity | exact Hs].
    + assert (Hstep : exists s1, nav_step p e s = Some s1).
      { destruct e as [| width | key | in_menu in_toggle | target]; cbn; eauto.
        - unfold handleOutsideClick. rewrite Hm, Ht.
          destruct (isMenuOpen s), in_menu, in_toggle; cbn; eauto.
        - destruct target; cbn; eauto. contradiction. }
      destruct Hstep as [s1 Hstep].
      destruct (IH s1 (nav_step_synced p e s s1 Hm Ht Hs Hstep)) as (s' & Hrun & Hs').
      exists s'. split; [| exact Hs']. cbn [nav_run]. rewrite Hstep. exact Hrun.
  - destruct s as [open menu toggle overflow].
    destruct Hs as (Hmenu & Htoggle & Hover). cbn in Hmenu, Htoggle, Hover.
    subst menu toggle overflow.
    unfold toggleMobileMenu. cbn. rewrite Hm, Ht, negb_involutive.
    destruct open; reflexivity.
Qed.

Lemma menu_stays_synced_witness :
  exists s' : Nav,
    nav_run (mkPage true true)
            [ToggleClick; DocumentClick false true; KeyDown "Escape"]
            (mkNav false false false "") = Some s' /\
    nav_synced s'.
Proof.
  apply (menu_stays_synced (mkPage true true)
           [ToggleClick; DocumentClick false true; KeyDown "Escape"]
           (mkNav false false false "")).
  - reflexivity.
  - reflexivity.
  - repeat constructor; discriminate.
  - repeat split.
Defined.

(** X21: only the click on the toggle opens the menu: any other listener
    that runs without raising leaves a closed menu closed and changes
    nothing when the menu stays open.  The Escape key, a window wider
    than 768, a click outside both elements and a click on a link whose
    target exists each leave the menu closed. *)
Theorem menu_closed_by_the_others (p : Page) (e : NavEvent) (s s' : Nav) :
  closes_menu e = true ->
  nav_step p e s = Some s' ->
  (isMenuOpen s = false -> s' = s) /\
  (isMenuOpen s' = true -> s' = s) /\
  (e = KeyDown "Escape" \/ e = DocumentClick false false \/ e = AnchorClick Found \/
   (exists width, 768 < width /\ e = Resized width) ->
   isMenuOpen s' = false).
Proof.
  intros Hclose Hstep.
  assert (Hcases :
    (s' = s /\ (isMenuOpen s = false \/
                (e <> KeyDown "Escape" /\ e <> DocumentClick false false /\
                 e <> AnchorClick Found /\
                 forall width, 768 < width -> e <> Resized width))) \/
    (s' = toggleMobileMenu p s /\ isMenuOpen s = true)).
  { destruct e as [| width | key | in_menu in_toggle | target];
      [discriminate | | | |]; cbn in Hstep.
    - injection Hstep as <-. unfold handleResize.
      destruct (768 <? width) eqn:Ew; destruct (isMenuOpen s) eqn:Eo; cbn [andb];
        [right; split; reflexivity | left; split; [reflexivity | left; reflexivity]
        | | left; split; [reflexivity | left; reflexivity]].
      left. split; [reflexivity |]. right.
      repeat split; try discriminate.
      intros w Hw [= <-]. apply Z.ltb_ge in Ew. lia.
    - injection Hstep as <-. unfold handleKeydown.
      destruct (String.eqb key "Escape") eqn:Ek; destruct (isMenuOpen s) eqn:Eo;
        cbn [andb];
        [right; split; reflexivity | left; split; [reflexivity | left; reflexivity]
        | | left; split; [reflexivity | left; reflexivity]].
      left. split; [reflexivity |]. right.
      repeat split; try discriminate.
      intros [= ->]. discriminate.
    - unfold handleOutsideClick in Hstep.
      destruct (isMenuOpen s) eqn:Eo;
        [| injection Hstep as <-; left; split; [reflexivity | left; reflexivity]].
      destruct (has_navMenu p); [| discriminate].
      destruct in_menu; cbn [negb] in Hstep.
      + injection Hstep as <-. left. split; [reflexivity |]. right.
        repeat split; discriminate.
      + destruct (has_navToggle p); [| discriminate].
        destruct in_toggle; cbn [negb] in Hstep; injection Hstep as <-.
        * left. split; [reflexivity |]. right. repeat split; discriminate.
        * right. split; reflexivity.
    - destruct target; cbn in Hstep; [| | discriminate]; injection Hstep as <-.
      + destruct (isMenuOpen s) eqn:Eo;
          [right; split; reflexivity | left; split; [reflexivity | left; reflexivity]].
      + left. split; [reflexivity |]. right. repeat split; discriminate. }
  destruct Hcases as [[-> Hwhy] | [-> Hopen]].
  - split; [reflexivity |]. split; [reflexivity |].
    intros Hkind. destruct Hwhy as [Hclosed | (Hk & Hd & Ha & Hr)]; [exact Hclosed |].
    exfalso. destruct Hkind as [H | [H | [H | (width & Hw & H)]]];
      [exact (Hk H) | exact (Hd H) | exact (Ha H) | exact (Hr width Hw H)].
  - unfold toggleMobileMenu. cbn [isMenuOpen]. rewrite Hopen. cbn [negb].
    split; [congruence |]. split; [discriminate | reflexivity].
Qed.

Lemma menu_closed_by_the_others_witness :
  isMenuOpen (handleKeydown (mkPage true true) "Escape" (mkNav true true true "hidden"))
  = false.
Proof.
  destruct (menu_closed_by_the_others (mkPage true true) (KeyDown "Escape")
              (mkNav true true true "hidden")
              (handleKeydown (mkPage true true) "Escape" (mkNav true true true "hidden"))
              eq_refl eq_refl) as (_ & _ & Hclosed).
  apply Hclosed. left. reflexivity.
Defined.

Lemma nav_run_closed (p : Page) (events : list NavEvent) :
  has_navToggle p = false ->
  Forall (fun e => e <> AnchorClick InvalidSelector) events ->
  forall s : Nav,
    isMenuOpen s = false -> nav_run p events s = Some s.
Proof.
  intros Ht Hvalid. induction Hvalid as [| e rest He _ IH]; intros s Hs.
  - reflexivity.
  - assert (Hstep : nav_step p e s = Some s).
    { destruct e as [| width | key | in_menu in_toggle | target]; cbn.
      - rewrite Ht. reflexivity.
      - unfold handleResize. rewrite Hs, andb_false_r. reflexivity.
      - unfold handleKeydown. rewrite Hs, andb_false_r. reflexivity.
      - unfold handleOutsideClick. rewrite Hs. reflexivity.
      - destruct target; cbn; [rewrite Hs; reflexivity | reflexivity | contradiction]. }
    cbn [nav_run]. rewrite Hstep. cbn. exact (IH s Hs).
Qed.

(** X22: on a page that has the toggle but not the menu, once the toggle
    has opened the menu every click in the document raises (the listener
    reads [contains] of the missing element); on a page without the
    toggle the menu never opens and no listener changes anything. *)
Theorem menu_without_its_element (p : Page) (s : Nav) :
  (has_navMenu p = false -> has_navToggle p = true ->
   forall in_menu in_toggle : bool,
     isMenuOpen s = false ->
     nav_run p [ToggleClick; DocumentClick in_menu in_toggle] s = None) /\
  (has_navToggle p = false ->
   forall events : list NavEvent,
     Forall (fun e => e <> AnchorClick InvalidSelector) events ->
     isMenuOpen s = false ->
     nav_run p events s = Some s).
Proof.
  split.
  - intros Hm Ht in_menu in_toggle Hs.
    cbn. rewrite Ht. cbn.
    unfold handleOutsideClick, toggleMobileMenu. cbn. rewrite Hs, Hm. reflexivity.
  - intros Ht events Hvalid Hs. exact (nav_run_closed p events Ht Hvalid s Hs).
Qed.

Lemma menu_without_its_element_witness :
  nav_run (mkPage false true) [ToggleClick; DocumentClick false true]
          (mkNav false false false "") = None.
Proof.
  destruct (menu_without_its_element (mkPage false true) (mkNav false false false ""))
    as [Hraise _].
  apply Hraise; reflexivity.
Defined.

(** ** Frame rate *)

Lemma round_at_most (q : Q) (n : Z) :
  (0 <= q)%Q -> (q <= inject_Z n)%Q -> 0 <= JS.Math_round q <= n.
Proof.
  intros H0 Hn. unfold JS.Math_round. split.
  - rewrite <- (Qfloor_Z 0). apply Qfloor_resp_le.
    change (inject_Z 0) with 0%Q. lra.
  - pose proof (Qfloor_le (q + (1 # 2))) as Hf.
    assert (Hlt : (inject_Z (Qfloor (q + (1 # 2))) < inject_Z (n + 1))%Q).
    { rewrite inject_Z_plus. change (inject_Z 1) with 1%Q. lra. }
    rewrite <- Zlt_Qlt in Hlt. lia.
Qed.

(** X23: the frame counter never divides by zero, and the rate it
    publishes is sound: when at least 1000 ms have passed since the last
    measure, the new [fps] lies between 0 and the number of frames
    counted since then, this frame included, the count restarts at 0 and
    the time of the measure is kept; before that the frame is only
    counted and [fps] stays as it is. *)
Theorem fps_bounded_by_frames (currentTime : Q) (s : FpsMonitor) :
  0 <= frameCount s ->
  exists s' : FpsMonitor,
    measureFPS currentTime s = Some s' /\
    0 <= frameCount s' /\
    (((lastTime s + 1000 <= currentTime)%Q /\
      frameCount s' = 0 /\ lastTime s' = currentTime /\
      0 <= fps s' <= frameCount s + 1) \/
     ((currentTime < lastTime s + 1000)%Q /\
      frameCount s' = frameCount s + 1 /\ lastTime s' = lastTime s /\
      fps s' = fps s)).
Proof.
  intros Hcount. unfold measureFPS. cbv zeta.
  destruct (Qle_bool (lastTime s + 1000) currentTime) eqn:E.
  - apply Qle_bool_iff in E.
    assert (Hd : (0 < currentTime - lastTime s)%Q) by lra.
    rewrite div_nonzero by (intros Hz; rewrite Hz in Hd; discriminate Hd).
    cbn [mbind option_bind].
    eexists. split; [reflexivity |]. cbn [frameCount lastTime fps].
    split; [lia |]. left. split; [exact E |].
    split; [reflexivity |]. split; [reflexivity |].
    apply round_at_most.
    + apply Qle_shift_div_l; [exact Hd |].
      rewrite Qmult_0_l, inject_Z_mult.
      change (inject_Z 1000) with 1000%Q.
      assert ((0 <= inject_Z (frameCount s + 1))%Q)
        by (change 0%Q with (inject_Z 0); rewrite <- Zle_Qle; lia).
      nra.
    + apply Qle_shift_div_r; [exact Hd |].
      rewrite inject_Z_mult. change (inject_Z 1000) with 1000%Q.
      assert ((0 <= inject_Z (frameCount s + 1))%Q)
        by (change 0%Q with (inject_Z 0); rewrite <- Zle_Qle; lia).
      nra.
  - eexists. split; [reflexivity |]. cbn [frameCount lastTime fps].
    split; [lia |]. right.
    split; [| repeat split].
    apply Qnot_le_lt. intros H. apply Qle_bool_iff in H. congruence.
Qed.

Lemma fps_bounded_by_frames_witness :
  exists s' : FpsMonitor,
    measureFPS 2016 (mkFps 59 1000 0) = Some s' /\ 0 <= fps s' <= 59 + 1.
Proof.
  destruct (fps_bounded_by_frames 2016 (mkFps 59 1000 0) ltac:(cbn; lia))
    as (s' & Hrun & _ & [(_ & _ & _ & Hfps) | (Hearly & _)]).
  - exists s'. split; [exact Hrun | exact Hfps].
  - exfalso. revert Hearly. cbn. intros H. discriminate H.
Defined.

(** ** The queue of running animations *)

Lemma index_of_absent (a : nat) (queue : list nat) :
  a ∉ queue -> index_of a queue = None.
Proof.
  induction queue as [| b rest IH]; intros Hnot; [reflexivity |].
  cbn [index_of].
  destruct (Nat.eqb b a) eqn:E.
  - apply Nat.eqb_eq in E. subst b. exfalso. apply Hnot. apply list_elem_of_here.
  - rewrite IH; [reflexivity |].
    intros Hin. apply Hnot. apply list_elem_of_further. exact Hin.
Qed.

Lemma index_of_first (a : nat) (front back : list nat) :
  a ∉ front -> index_of a (front ++ a :: back) = Some (length front).
Proof.
  induction front as [| b front IH]; intros Hnot.
  - cbn. rewrite Nat.eqb_refl. reflexivity.
  - assert (Hb : Nat.eqb b a = false).
    { apply Nat.eqb_neq. intros ->. apply Hnot. apply list_elem_of_here. }
    assert (Hfront : a ∉ front).
    { intros Hin. apply Hnot. apply list_elem_of_further. exact Hin. }
    cbn [app index_of length]. rewrite Hb, (IH Hfront). reflexivity.
Qed.

Lemma finished_in_front (a : nat) (front back : list nat) :
  a ∉ front ->
  animation_finished a (front ++ a :: back) = front ++ back.
Proof.
  intros Hnot. unfold animation_finished.
  rewrite (index_of_first a front back Hnot). apply delete_middle.
Qed.

(** X24: the queue of running animations holds exactly the animations
    that started and have not finished: a finished animation leaves the
    queue and all others stay, in their order (the queue is what stood
    before the animation followed by what stood behind it); starting an
    animation and then finishing it restores the queue; and the finish of
    an animation that is not queued changes nothing. *)
Theorem animation_queue_tracks_running (a : nat) (queue : list nat) :
  NoDup queue ->
  (a ∉ queue -> animation_finished a queue = queue) /\
  (a ∉ queue -> animation_finished a (animation_started a queue) = queue) /\
  (a ∈ queue ->
     (a ∉ animation_finished a queue) /\
     S (length (animation_finished a queue)) = length queue /\
     NoDup (animation_finished a queue) /\
     (forall b : nat, b <> a -> (b ∈ animation_finished a queue <-> b ∈ queue)) /\
     exists front back : list nat,
       queue = front ++ a :: back /\
       animation_finished a queue = front ++ back).
Proof.
  intros Hnodup. split; [| split].
  - intros Hnot. unfold animation_finished.
    rewrite (index_of_absent a queue Hnot). reflexivity.
  - intros Hnot. unfold animation_started.
    rewrite (finished_in_front a queue [] Hnot). apply app_nil_r.
  - intros Hin.
    apply list_elem_of_split in Hin as (front & back & ->).
    apply NoDup_app in Hnodup as (Hfront & Hdisjoint & Hback).
    apply NoDup_cons in Hback as [Hnotback Hback].
    assert (Hnotfront : a ∉ front).
    { intros Hin. apply (Hdisjoint a Hin). apply list_elem_of_here. }
    rewrite (finished_in_front a front back Hnotfront).
    split; [| split; [| split; [| split]]].
    + intros Hin. apply elem_of_app in Hin as [Hin | Hin]; contradiction.
    + rewrite !length_app. cbn. lia.
    + apply NoDup_app. split; [exact Hfront |]. split; [| exact Hback].
      intros x Hx Hxb. apply (Hdisjoint x Hx). apply list_elem_of_further. exact Hxb.
    + intros b Hb. rewrite !elem_of_app, elem_of_cons. split.
      * intros [H | H]; auto.
      * intros [H | [H | H]]; auto. contradiction.
    + exists front, back. split; reflexivity.
Qed.

Lemma animation_queue_tracks_running_witness :
  animation_finished 7 (animation_started 7 [3; 5]%nat) = [3; 5]%nat /\
  (7%nat ∉ animation_finished 7 [3; 7; 5]%nat) /\
  exists front back : list nat,
    [3; 7; 5]%nat = front ++ 7%nat :: back /\
    animation_finished 7 [3; 7; 5]%nat = front ++ back.
Proof.
  assert (Hfresh : 7%nat ∉ [3; 5]%nat).
  { intros H. repeat (apply elem_of_cons in H as [H | H]; [discriminate |]).
    inversion H. }
  assert (Hnodup : NoDup [3; 7; 5]%nat).
  { repeat constructor; intros H;
      repeat (apply elem_of_cons in H as [H | H]; [discriminate |]); inversion H. }
  assert (Hin : 7%nat ∈ [3; 7; 5]%nat).
  { apply list_elem_of_further, list_elem_of_here. }
  split.
  - apply (animation_queue_tracks_running 7 [3; 5]%nat); [| exact Hfresh].
    repeat constructor; intros H;
      repeat (apply elem_of_cons in H as [H | H]; [discriminate |]); inversion H.
  - destruct (animation_queue_tracks_running 7 [3; 7; 5]%nat Hnodup)
      as (_ & _ & Hqueued).
    destruct (Hqueued Hin) as (Hgone & _ & _ & _ & Horder).
    split; [exact Hgone | exact Horder].
Defined.

(** ** A request that asks for the metrics *)

(** X25: a request counts itself but not its own response time: when a
    request has just passed the middleware and GET /api/metrics answers
    it, the reported [requestCount] is one more than before the request,
    while the reported average response time is the one of the responses
    that finished before; for the first request ever these are 1 and
    0. *)
Theorem metrics_request_counts_itself (s : Server) :
  exists (s1 : Server) (resp : Response MetricsBody) (w' : World),
    step Arrive s = Some s1 /\
    get_api_metrics (world s1) = Some (resp, w') /\
    mb_perf_requestCount (res_body resp) = requestCount (serverMetrics (world s)) + 1 /\
    getAverageResponseTime (world s)
      = Some (mb_perf_averageResponseTime (res_body resp), world s) /\
    (requestCount (serverMetrics (world s)) = 0 ->
     responseTimeCount (serverMetrics (world s)) = 0 ->
     mb_perf_requestCount (res_body resp) = 1 /\
     mb_perf_averageResponseTime (res_body resp) = 0).
Proof.
  eexists. 
  destruct (get_api_metrics_fields
              (mkWorld (mkMetrics (startTime (serverMetrics (world s)))
                                  (requestCount (serverMetrics (world s)) + 1)
                                  (totalResponseTime (serverMetrics (world s)))
                                  (responseTimeCount (serverMetrics (world s))))
                       (clock (world s)) (S (clock_reads (world s)))
                       (random (world s)) (random_draws (world s))
                       (docker_ps (world s))))
    as (resp & w' & Hrun & _ & _ & _ & _ & Hcount & Havg & _).
  cbn [serverMetrics requestCount totalResponseTime responseTimeCount] in Hcount, Havg.
  exists resp, w'. split; [apply step_arrive |]. cbn [world].
  split; [exact Hrun |]. split; [exact Hcount |].
  split; [rewrite getAverageResponseTime_run, Havg; reflexivity |].
  intros Hc Hr. rewrite Hcount, Havg, Hc, Hr. split; reflexivity.
Qed.

Lemma metrics_request_counts_itself_witness :
  exists (s : Server) (s1 : Server) (resp : Response MetricsBody) (w' : World),
    started quiet_world = Some s /\
    step Arrive s = Some s1 /\
    get_api_metrics (world s1) = Some (resp, w') /\
    mb_perf_requestCount (res_body resp) = 1 /\
    mb_perf_averageResponseTime (res_body resp) = 0.
Proof.
  eexists. 
  edestruct (metrics_request_counts_itself) as (s1 & resp & w' & Hstep & Hrun & _ & _ & Hfirst).
  exists s1, resp, w'. split; [reflexivity |].
  split; [exact Hstep |]. split; [exact Hrun |].
  apply Hfirst; reflexivity.
Defined.

(** ** The path that the not-found handler reports *)

(** X26: whatever path under [/api/] is asked for (in any letter case,
    without [%] or line terminator), if none of the five routes matches
    it the answer is a 404 whose error field is ["API endpoint not
    found"] and whose path field is ["/"]: neither the path asked for nor
    the query string shows in it. *)
Theorem not_found_path_is_root (url rest : string) (w : World) :
  Router.strip_prefix "/api/" (Router.pathname url) = Some rest ->
  Router.single_line rest = true ->
  Router.has_percent rest = false ->
  Router.route_match "/api/status" (Router.pathname url) = false ->
  Router.route_match "/api/metrics" (Router.pathname url) = false ->
  Router.route_match "/api/containers" (Router.pathname url) = false ->
  Router.route_match "/api/system" (Router.pathname url) = false ->
  exists w' : World,
    get_unmatched url w =
    Some (Some (mkResponse 404
                  (mkNotFoundBody "API endpoint not found" "/"
                                  (clock w (clock_reads w)))), w').
Proof.
  intros Hp Hl Hpc M1 M2 M3 M4.
  destruct (api_request_trimmed url rest Hp Hl Hpc) as [(url' & Hd & Hpath) | Hroute].
  - unfold get_unmatched. rewrite Hd.
    destruct (api_not_found_run url' w) as [w' Hrun].
    exists w'. rewrite bind_run, Hrun, Hpath. reflexivity.
  - exfalso.
    assert (M0 : Router.route_match "/health" (Router.pathname url) = false).
    { destruct (Router.route_match "/health" (Router.pathname url)) eqn:E; [| reflexivity].
      destruct (route_match_prefix _ _ E) as [t Ht].
      destruct (strip_prefix_comparable _ _ _ _ _ Ht Hp) as [H | H];
        exfalso; apply H; reflexivity. }
    unfold Router.dispatch_get in Hroute. cbv zeta in Hroute.
    rewrite M0, M1, M2, M3, M4 in Hroute.
    destruct (Router.api_star_match _) as [[lp taken] |];
      [destruct (Router.has_percent taken);
       [| destruct (Router.trim_prefix _ _ _)] |];
      cbn in Hroute; intuition discriminate.
Qed.

Lemma not_found_path_is_root_witness :
  exists w' : World,
    get_unmatched "/api/users/42?page=2" quiet_world =
    Some (Some (mkResponse 404 (mkNotFoundBody "API endpoint not found" "/" 0)), w').
Proof.
  apply (not_found_path_is_root "/api/users/42?page=2" "users/42" quiet_world);
    reflexivity.
Defined.

Lemma docker_fields_agree_witness :
  exists (s : Response StatusBody) (w1 : World),
    get_api_status busy_world = Some (s, w1) /\
    (sb_docker_status (res_body s) = "online"%string <->
       (0 < sb_docker_containers (res_body s))%nat).
Proof.
  destruct (docker_fields_agree busy_world)
    as (s & m & w1 & w2 & Hs & _ & _ & _ & Hiff & _).
  exists s, w1. split; assumption.
Defined.
